(** * Reverb client-side sampler (reverb/cc/sampler.cc)

    A shallow embedding of the sampler: the stream-response assembler, the
    [Sample] class, the remote and local workers and the [Sampler] core with
    its counters, followed by the properties proved about them.

    Conventions.
    - [int64_t] and [uint64_t] values are integers of [Z]: the sample
      counters and row counts are taken to stay in range.  Where the source
      narrows an [int64_t] to [int] the conversion is written out ([to_int]).
    - A [double] is carried as its 64 bits; the sampler only copies it.
    - A call that can fail to return normally has a result in [Exec]. *)

From Stdlib Require Import ZArith Bool Lia.
From stdpp Require Import base option list gmap sets strings relations.

Local Open Scope Z_scope.

(** ** Outcomes of a call *)

(** [Returns a]: the call returns [a].
    [Blocks]: the call waits (on the queue or on the sampler's condition) and
    cannot complete in the state it was given.
    [Aborts]: a [REVERB_CHECK] fails, the process terminates.
    [Undefined]: the C++ has no defined behaviour here (null dereference,
    index out of range, a TensorFlow primitive called outside its contract). *)
Inductive Exec (A : Type) : Type :=
  | Returns (a : A)
  | Blocks
  | Aborts
  | Undefined.
Arguments Returns {A} a.
Arguments Blocks {A}.
Arguments Aborts {A}.
Arguments Undefined {A}.

#[global] Instance Exec_ret : MRet Exec := fun A a => Returns a.
#[global] Instance Exec_bind : MBind Exec := fun A B f m =>
  match m with
  | Returns a => f a
  | Blocks => Blocks
  | Aborts => Aborts
  | Undefined => Undefined
  end.

(** Sequential traversal of a list, stopping at the first call that does not
    return. *)
Fixpoint exec_map {A B} (f : A -> Exec B) (l : list A) : Exec (list B) :=
  match l with
  | [] => Returns []
  | a :: l' => b ← f a; bs ← exec_map f l'; Returns (b :: bs)
  end.

(** ** Tensors (TensorFlow primitives used by the sampler) *)

Inductive DataType : Type :=
  | DT_FLOAT | DT_DOUBLE | DT_INT32 | DT_UINT8 | DT_INT64 | DT_BOOL | DT_UINT64.

#[global] Instance DataType_eq_dec : EqDecision DataType.
Proof. solve_decision. Defined.

Abbreviation double := Z (only parsing).

(** A dense tensor: element type, shape, and the elements in row-major
    order. *)
Record Tensor : Type := mkTensor {
  dtype : DataType;
  shape : list Z;
  buf : list Z;
}.

#[global] Instance Tensor_eq_dec : EqDecision Tensor.
Proof. solve_decision. Defined.

Definition dims (t : Tensor) : nat := length (shape t).

Definition num_elements (sh : list Z) : Z := foldr Z.mul 1 sh.

(** [Tensor::dim_size(0)]; a scalar has no dimension 0. *)
Definition dim_size0 (t : Tensor) : Exec Z :=
  match shape t with
  | [] => Undefined
  | d :: _ => Returns d
  end.

(** [tensorflow::Tensor(value)]: a scalar. *)
Definition scalar (dt : DataType) (v : Z) : Tensor :=
  {| dtype := dt; shape := []; buf := [v] |}.

(** [Tensor::Slice(start, limit)] along dimension 0; TensorFlow requires
    [dims >= 1] and [0 <= start <= limit <= dim_size(0)]. *)
Definition Slice (t : Tensor) (start limit : Z) : Exec Tensor :=
  match shape t with
  | [] => Undefined
  | d :: rest =>
      if (0 <=? start) && (start <=? limit) && (limit <=? d) then
        let row := Z.to_nat (num_elements rest) in
        Returns {| dtype := dtype t;
                   shape := (limit - start) :: rest;
                   buf := take (Z.to_nat (limit - start) * row)%nat
                               (drop (Z.to_nat start * row)%nat (buf t)) |}
      else Undefined
  end.

(** [Tensor::SubSlice(index)]: row [index], with the leading dimension
    removed; TensorFlow requires [dims >= 1] and [0 <= index <= dim_size(0)]. *)
Definition SubSlice (t : Tensor) (index : Z) : Exec Tensor :=
  match shape t with
  | [] => Undefined
  | d :: rest =>
      if (0 <=? index) && (index <=? d) then
        let row := Z.to_nat (num_elements rest) in
        Returns {| dtype := dtype t;
                   shape := rest;
                   buf := take row (drop (Z.to_nat index * row)%nat (buf t)) |}
      else Undefined
  end.

(** [if (!t.IsAligned()) t = tensor::DeepCopy(t)]: the copy has the value of
    the original, only its storage differs. *)
Definition DeepCopyIfUnaligned (t : Tensor) : Tensor := t.

(** ** Status *)

Inductive StatusCode : Type :=
  | kOk | kCancelled | kUnknown | kInvalidArgument | kDeadlineExceeded
  | kNotFound | kAlreadyExists | kPermissionDenied | kResourceExhausted
  | kFailedPrecondition | kAborted | kOutOfRange | kUnimplemented
  | kInternal | kUnavailable | kDataLoss | kUnauthenticated.

#[global] Instance StatusCode_eq_dec : EqDecision StatusCode.
Proof. solve_decision. Defined.

(** A dtype and shape signature entry ([internal::TensorSpec]); a shape of
    unknown rank is [None], an unknown dimension is [-1]. *)
Record TensorSpec : Type := mkTensorSpec {
  spec_name : string;
  spec_dtype : DataType;
  spec_shape : option (list Z);
}.

(** The arguments of an [absl::StrCat], kept in order and unrendered. *)
Inductive Piece : Type :=
  | Text (s : string)
  | Num (z : Z)
  | DTypeName (dt : DataType)
  | ShapeText (sh : option (list Z))
  | Signature (sig : list TensorSpec).

Record Status : Type := mkStatus {
  code : StatusCode;
  message : list Piece;
}.

Definition OkStatus : Status := mkStatus kOk [].
Definition ok (st : Status) : bool := bool_decide (code st = kOk).
Definition CancelledError (m : list Piece) := mkStatus kCancelled m.
Definition InvalidArgumentError (m : list Piece) := mkStatus kInvalidArgument m.
Definition FailedPreconditionError (m : list Piece) := mkStatus kFailedPrecondition m.
Definition OutOfRangeError (m : list Piece) := mkStatus kOutOfRange m.
Definition InternalError (m : list Piece) := mkStatus kInternal m.
Definition DataLossError (m : list Piece) := mkStatus kDataLoss m.
Definition IsUnavailable (st : Status) : bool := bool_decide (code st = kUnavailable).
Definition IsDeadlineExceeded (st : Status) : bool :=
  bool_decide (code st = kDeadlineExceeded).

(** [tensorflow::tensor::Concat] along dimension 0, through
    [FromTensorflowStatus]: an error status or the concatenation.  Tensors
    whose trailing dimensions disagree are outside its contract. *)
Definition Concat (ts : list Tensor) : Exec (Status + Tensor) :=
  match ts with
  | [] => Returns (inl (InvalidArgumentError [Text "Cannot concatenate zero tensors"]))
  | t0 :: _ =>
      if bool_decide (Exists (fun t => shape t = []) ts) then
        Returns (inl (InvalidArgumentError
                        [Text "Cannot concatenate a zero-dimensional tensor"]))
      else if bool_decide (Exists (fun t => dtype t ≠ dtype t0) ts) then
        Returns (inl (InvalidArgumentError
                        [Text "Cannot concatenate tensors that have different data types."]))
      else if bool_decide (Forall (fun t => tail (shape t) = tail (shape t0)) ts) then
        Returns (inr {| dtype := dtype t0;
                        shape := foldr Z.add 0 ((fun t => hd 0 (shape t)) <$> ts)
                                   :: tail (shape t0);
                        buf := mjoin (buf <$> ts) |})
      else Undefined
  end.

(** ** Protocol messages (schema.proto, reverb_service.proto) *)

Record ChunkSlice : Type := mkChunkSlice {
  slice_chunk_key : Z;
  slice_offset : Z;
  slice_length : Z;
  slice_index : Z;
}.

Record Column : Type := mkColumn {
  chunk_slices : list ChunkSlice;
  squeeze : bool;
}.

Record FlatTrajectory : Type := mkFlatTrajectory {
  columns : list Column;
}.

Record PrioritizedItem : Type := mkItem {
  item_key : Z;
  item_priority : double;
  flat_trajectory : FlatTrajectory;
}.

Record SampleInfo : Type := mkSampleInfo {
  info_item : PrioritizedItem;
  info_probability : double;
  info_table_size : Z;
}.

(** A compressed tensor as it travels in a chunk. *)
Record TensorProto : Type := mkTensorProto {
  proto_dtype : DataType;
  proto_shape : list Z;
  proto_content : list Z;
}.

Record ChunkData : Type := mkChunkData {
  chunk_key : Z;
  tensors : list TensorProto;
  delta_encoded : bool;
}.

(** A [SampleStreamResponse]; both sub-messages are optional on the wire. *)
Record SampleStreamResponse : Type := mkResponse {
  opt_info : option SampleInfo;
  opt_data : option ChunkData;
}.

(** Protobuf accessors return the default instance of an absent message. *)
Definition default_info : SampleInfo :=
  mkSampleInfo (mkItem 0 0 (mkFlatTrajectory [])) 0 0.
Definition default_data : ChunkData := mkChunkData 0 [] false.

Definition info (r : SampleStreamResponse) : SampleInfo := default default_info (opt_info r).
Definition data (r : SampleStreamResponse) : ChunkData := default default_data (opt_data r).
Definition has_data (r : SampleStreamResponse) : bool := bool_decide (is_Some (opt_data r)).

(** Modelled from the spec: [internal::GetChunkKeys] (trajectory_util, not
    part of sampler.cc) yields the chunk keys referenced by the slices of the
    trajectory's columns. *)
Definition GetChunkKeys (traj : FlatTrajectory) : list Z :=
  mjoin ((fun col => slice_chunk_key <$> chunk_slices col) <$> columns traj).

(** ** SampleIsDone *)

(** The [received_chunks] hash set after the first loop. *)
Definition received_chunks (sample : list SampleStreamResponse) : gset Z :=
  foldl (fun acc response =>
           if has_data response then {[ chunk_key (data response) ]} ∪ acc else acc)
        ∅ sample.

Definition SampleIsDone (sample : list SampleStreamResponse) : bool :=
  match sample with
  | [] => false
  | front :: _ =>
      forallb (fun key => bool_decide (key ∈ received_chunks sample))
              (GetChunkKeys (flat_trajectory (info_item (info front))))
  end.

(** [InitializeTensor<T>(value, length)]: a vector of [length] copies of
    [value]; [TensorShape({length})] needs a non-negative length. *)
Definition InitializeTensor (dt : DataType) (value : Z) (length : Z) : Exec Tensor :=
  if length <? 0 then Undefined
  else Returns {| dtype := dt; shape := [length];
                  buf := replicate (Z.to_nat length) value |}.

(** ** The Sample class *)

(** Conversion of an [int64_t] sum to [int] (32 bits, two's complement). *)
Definition to_int (z : Z) : Z := (z + 2 ^ 31) mod 2 ^ 32 - 2 ^ 31.

Module Sample.

Record t : Type := mk {
  key_ : Z;
  probability_ : double;
  table_size_ : Z;
  priority_ : double;
  num_timesteps_ : Z;
  num_data_tensors_ : nat;
  chunks_ : list (list Tensor);
  squeeze_columns_ : list bool;
  next_timestep_index_ : Z;
  next_timestep_called_ : bool;
}.

Definition set_chunks (s : t) (c : list (list Tensor)) : t :=
  mk (key_ s) (probability_ s) (table_size_ s) (priority_ s) (num_timesteps_ s)
     (num_data_tensors_ s) c (squeeze_columns_ s) (next_timestep_index_ s)
     (next_timestep_called_ s).

(** [for (batches : chunks_) num_timesteps_ += batches.front().dim_size(0)] *)
Fixpoint sum_front_dims (chunks : list (list Tensor)) (acc : Z) : Exec Z :=
  match chunks with
  | [] => Returns acc
  | batches :: rest =>
      match batches with
      | [] => Undefined
      | front :: _ => d ← dim_size0 front; sum_front_dims rest (acc + d)
      end
  end.

(** The constructor, with its two [REVERB_CHECK]s. *)
Definition new (key : Z) (probability : double) (table_size : Z) (priority : double)
    (chunks : list (list Tensor)) (squeeze_columns : list bool) : Exec t :=
  match chunks with
  | [] => Aborts
  | front :: _ =>
      if bool_decide (front = []) then Aborts
      else
        n ← sum_front_dims chunks 0;
        Returns (mk key probability table_size priority n (length front) chunks
                    squeeze_columns 0 false)
  end.

Definition is_end_of_sample (s : t) : bool := bool_decide (chunks_ s = []).

(** The inner loop of [is_composed_of_timesteps] for column [i]:
    [length += unpacked_chunk[i].dim_size(0)] with [int length]. *)
Fixpoint column_length (chunks : list (list Tensor)) (i : nat) (length : Z) : Exec Z :=
  match chunks with
  | [] => Returns length
  | unpacked_chunk :: rest =>
      match unpacked_chunk !! i with
      | None => Undefined
      | Some tensor =>
          d ← dim_size0 tensor; column_length rest i (to_int (length + d))
      end
  end.

Definition is_composed_of_timesteps (s : t) : Exec bool :=
  match chunks_ s with
  | [] => Undefined
  | front :: _ =>
      column_lengths ← exec_map (fun i => column_length (chunks_ s) i 0)
                                (seq 0 (length front));
      Returns (forallb (fun a => a =? default 0 (head column_lengths)) column_lengths)
  end.

Definition metadata (s : t) : list Tensor :=
  [scalar DT_UINT64 (key_ s); scalar DT_DOUBLE (probability_ s);
   scalar DT_INT64 (table_size_ s); scalar DT_DOUBLE (priority_ s)].

(** [GetNextTimestep]: the row and the sample after the call. *)
Definition GetNextTimestep (s : t) : Exec (list Tensor * t) :=
  if is_end_of_sample s then Aborts
  else
    decomposable ← is_composed_of_timesteps s;
    if negb decomposable then Aborts
    else
      match chunks_ s with
      | [] => Undefined
      | front :: rest =>
          slices ← exec_map (fun tensor =>
                               slice ← SubSlice tensor (next_timestep_index_ s);
                               Returns (DeepCopyIfUnaligned slice)) front;
          let result := metadata s ++ slices in
          let next := next_timestep_index_ s + 1 in
          match front with
          | [] => Undefined
          | first :: _ =>
              d ← dim_size0 first;
              if next =? d then
                Returns (result,
                         mk (key_ s) (probability_ s) (table_size_ s) (priority_ s)
                            (num_timesteps_ s) (num_data_tensors_ s) rest
                            (squeeze_columns_ s) 0 true)
              else
                Returns (result,
                         mk (key_ s) (probability_ s) (table_size_ s) (priority_ s)
                            (num_timesteps_ s) (num_data_tensors_ s) (chunks_ s)
                            (squeeze_columns_ s) next true)
          end
      end.

(** One pass of [for (batch : chunks_.front()) (it_to++)->push_back(batch)]:
    the tensors of a group are appended to the per-column vectors in order;
    a group with more tensors than there are columns runs off the end. *)
Fixpoint push_group (data_tensors : list (list Tensor)) (group : list Tensor)
    {struct group} : Exec (list (list Tensor)) :=
  match group with
  | [] => Returns data_tensors
  | batch :: group' =>
      match data_tensors with
      | [] => Undefined
      | col :: cols =>
          cols' ← push_group cols group'; Returns ((col ++ [batch]) :: cols')
      end
  end.

(** [while (!chunks_.empty()) { ...; chunks_.pop_front(); }] *)
Fixpoint extract_chunks (data_tensors : list (list Tensor)) (chunks : list (list Tensor))
    : Exec (list (list Tensor)) :=
  match chunks with
  | [] => Returns data_tensors
  | group :: rest =>
      data_tensors' ← push_group data_tensors group; extract_chunks data_tensors' rest
  end.

(** [for (chunks : data_tensors) REVERB_RETURN_IF_ERROR(Concat(chunks, ...))] *)
Fixpoint concat_all (data_tensors : list (list Tensor)) : Exec (Status + list Tensor) :=
  match data_tensors with
  | [] => Returns (inr [])
  | chunks :: rest =>
      r ← Concat chunks;
      match r with
      | inl err => Returns (inl err)
      | inr sequence =>
          rs ← concat_all rest;
          match rs with
          | inl err => Returns (inl err)
          | inr sequences => Returns (inr (sequence :: sequences))
          end
      end
  end.

(** [AsBatchedTimesteps(&data)]: the status, what was written to [*data]
    (if anything), and the sample after the call. *)
Definition AsBatchedTimesteps (s : t) : Exec (Status * option (list Tensor) * t) :=
  if next_timestep_called_ s then
    Returns (DataLossError
               [Text "Sample::AsBatchedTimesteps: Some time steps have been lost."],
             None, s)
  else
    decomposable ← is_composed_of_timesteps s;
    if negb decomposable then
      Returns (FailedPreconditionError
                 [Text "Sample::AsBatchedTimesteps when trajectory cannot be decomposed into timesteps."],
               None, s)
    else
      s0 ← InitializeTensor DT_UINT64 (key_ s) (num_timesteps_ s);
      s1 ← InitializeTensor DT_DOUBLE (probability_ s) (num_timesteps_ s);
      s2 ← InitializeTensor DT_INT64 (table_size_ s) (num_timesteps_ s);
      s3 ← InitializeTensor DT_DOUBLE (priority_ s) (num_timesteps_ s);
      data_tensors ← extract_chunks (replicate (num_data_tensors_ s) []) (chunks_ s);
      r ← concat_all data_tensors;
      match r with
      | inl err => Returns (err, None, set_chunks s [])
      | inr sequences =>
          Returns (OkStatus, Some ([s0; s1; s2; s3] ++ sequences), set_chunks s [])
      end.

(** The squeeze loop of [AsTrajectory] from column [i] on, over the output
    vector [sequences]. *)
Fixpoint squeeze_from (squeeze_columns : list bool) (i : nat) (sequences : list Tensor)
    : Exec (Status + list Tensor) :=
  match squeeze_columns with
  | [] => Returns (inr sequences)
  | sq :: rest =>
      if negb sq then squeeze_from rest (S i) sequences
      else
        match sequences !! (i + 4)%nat with
        | None => Undefined
        | Some column =>
            batch_dim ← dim_size0 column;
            if negb (to_int batch_dim =? 1) then
              Returns (inl (InternalError
                              [Text "Tried to squeeze column with batch size ";
                               Num (to_int batch_dim); Text "."]))
            else
              row ← SubSlice column 0;
              squeeze_from rest (S i)
                           (<[(i + 4)%nat := DeepCopyIfUnaligned row]> sequences)
        end
  end.

(** [AsTrajectory(&data)]. *)
Definition AsTrajectory (s : t) : Exec (Status * option (list Tensor) * t) :=
  if next_timestep_called_ s then
    Returns (DataLossError
               [Text "Sample::AsBatchedTimesteps: Some time steps have been lost."],
             None, s)
  else
    r ← match chunks_ s with
        | [front] =>
            if bool_decide (length front ≤ num_data_tensors_ s)%nat then
              Returns (inr (front ++ replicate (num_data_tensors_ s - length front)
                                               (mkTensor DT_FLOAT [0] [])))
            else Undefined
        | _ =>
            data_tensors ← extract_chunks (replicate (num_data_tensors_ s) []) (chunks_ s);
            concat_all data_tensors
        end;
    match r with
    | inl err => Returns (err, None, set_chunks s [])
    | inr columns =>
        q ← squeeze_from (squeeze_columns_ s) 0 (metadata s ++ columns);
        match q with
        | inl err => Returns (err, None, set_chunks s [])
        | inr sequences => Returns (OkStatus, Some sequences, set_chunks s [])
        end
    end.

(** The calls a consumer can make on a sample, as a relation between the
    sample before and after. *)
Inductive call : t -> t -> Prop :=
  | call_timestep s row s' :
      GetNextTimestep s = Returns (row, s') -> call s s'
  | call_batched s status data s' :
      AsBatchedTimesteps s = Returns (status, data, s') -> call s s'
  | call_trajectory s status data s' :
      AsTrajectory s = Returns (status, data, s') -> call s s'.

(** The tensors of data column [i], one per chunk group, in group order. *)
Definition column (chunks : list (list Tensor)) (i : nat) : list Tensor :=
  omap (fun group => group !! i) chunks.

End Sample.

(** A vector tensor holding [values], for concrete runs. *)
Definition vector (dt : DataType) (values : list Z) : Tensor :=
  mkTensor dt [Z.of_nat (length values)] values.

(** ** The sample queue *)

(** Modelled from the spec: [internal::Queue] (support/queue.h, not part of
    sampler.cc) is a bounded FIFO with close semantics.  [Push] waits for
    capacity and is refused once the queue is closed; [Pop] waits for an item
    and fails once the queue is closed and empty; [Close] is idempotent. *)
Module Queue.

Record t (A : Type) : Type := mk {
  items : list A;
  capacity : nat;
  closed : bool;
}.
Arguments mk {A}.
Arguments items {A}.
Arguments capacity {A}.
Arguments closed {A}.

Definition Push {A} (x : A) (q : t A) : Exec (bool * t A) :=
  if closed q then Returns (false, q)
  else if bool_decide (length (items q) < capacity q)%nat then
    Returns (true, mk (items q ++ [x]) (capacity q) (closed q))
  else Blocks.

Definition Pop {A} (q : t A) : Exec (option A * t A) :=
  match items q with
  | x :: rest => Returns (Some x, mk rest (capacity q) (closed q))
  | [] => if closed q then Returns (None, q) else Blocks
  end.

Definition Close {A} (q : t A) : t A := mk (items q) (capacity q) true.

End Queue.

(** ** Assembling a sample from stream responses *)

(** Functions of tensor_compression.h and support/trajectory_util.h that
    sampler.cc calls; only their signatures are used here. *)
Class TrajectoryUtil : Type := {
  DecompressTensorFromProto : TensorProto -> Tensor;
  DeltaEncode : Tensor -> bool -> Tensor;
  IsTimestepTrajectory : FlatTrajectory -> bool;
  TimestepTrajectoryOffset : FlatTrajectory -> Z;
  TimestepTrajectoryLength : FlatTrajectory -> Z;
  UnpackChunkColumnAndSlice : ChunkData -> ChunkSlice -> Status * Tensor;
}.

(** An item as the in-process table returns it ([Table::SampledItem]); a
    chunk of the chunk store is identified with its [ChunkData]. *)
Record SampledItem : Type := mkSampledItem {
  sampled_item : PrioritizedItem;
  sampled_probability : double;
  sampled_table_size : Z;
  sampled_chunks : list ChunkData;
}.

Section Assembly.
Context `{TrajectoryUtil}.

(** The released tensor is decompressed and, in a delta-encoded chunk,
    decoded ([DeltaEncode] with [encode = false]). *)
Definition decode_tensor (delta : bool) (chunk : TensorProto) : Tensor :=
  let batch := DecompressTensorFromProto chunk in
  if delta then DeltaEncode batch false else batch.

(** The [while (!tensors().empty())] loop of one response: the tensors are
    released from the back ([rev_tensors] is the reversed tensor list) and
    stored at decreasing indices of [batches]. *)
Fixpoint convert_tensors (delta : bool) (offset remaining : Z)
    (rev_tensors : list TensorProto) (batch_size : Z) (batches : list Tensor)
    : Exec (Status + (list Tensor * Z)) :=
  match rev_tensors with
  | [] => Returns (inr (batches, batch_size))
  | chunk :: rest =>
      let batch := decode_tensor delta chunk in
      d ← dim_size0 batch;
      if negb (batch_size <? 0) && negb (batch_size =? d) then
        Returns (inl (InternalError
          [Text "Chunks of the same response must have identical batch size, but first chunk has batch size ";
           Num batch_size; Text " while the current chunk has batch size "; Num d]))
      else
        let batch_size := if batch_size <? 0 then d else batch_size in
        sliced ← Slice batch offset (Z.min (offset + remaining) batch_size);
        convert_tensors delta offset remaining rest batch_size
                        (DeepCopyIfUnaligned sliced :: batches)
  end.

(** The [for (auto& response : responses)] loop: the chunk groups emitted
    so far and the value of [remaining]. *)
Fixpoint unpack_responses (responses : list SampleStreamResponse)
    (offset remaining : Z) (chunks : list (list Tensor))
    : Exec (Status + (list (list Tensor) * Z)) :=
  match responses with
  | [] => Returns (inr (chunks, remaining))
  | response :: rest =>
      if negb (0 <? remaining) then Aborts
      else
        r ← convert_tensors (delta_encoded (data response)) offset remaining
                            (reverse (tensors (data response))) (-1) [];
        match r with
        | inl err => Returns (inl err)
        | inr (batches, batch_size) =>
            unpack_responses rest 0
              (remaining - Z.min remaining (batch_size - offset))
              (chunks ++ [batches])
        end
  end.

Definition TimestepTrajectoryAsSample (responses : list SampleStreamResponse)
    : Exec (Status * option Sample.t) :=
  match responses with
  | [] => Undefined
  | front :: _ =>
      let info := info front in
      let traj := flat_trajectory (info_item info) in
      r ← unpack_responses responses (TimestepTrajectoryOffset traj)
                           (TimestepTrajectoryLength traj) [];
      match r with
      | inl err => Returns (err, None)
      | inr (chunks, remaining) =>
          if negb (remaining =? 0) then Aborts
          else
            sample ← Sample.new (item_key (info_item info)) (info_probability info)
                                (info_table_size info) (item_priority (info_item info))
                                chunks (squeeze <$> columns traj);
            Returns (OkStatus, Some sample)
      end
  end.

(** [chunks[key] = WrapUnique(response.release_data())]: a response without
    data leaves a null pointer under key 0. *)
Definition index_responses (responses : list SampleStreamResponse)
    : gmap Z (option ChunkData) :=
  foldl (fun chunks response => <[chunk_key (data response) := opt_data response]> chunks)
        ∅ responses.

Definition chunk_not_found (key item : Z) : Status :=
  InternalError [Text "Chunk "; Num key;
                 Text " could not be found when unpacking item "; Num item; Text "."].

Fixpoint unpack_slices (chunks : gmap Z (option ChunkData)) (item : Z)
    (slices : list ChunkSlice) : Exec (Status + list Tensor) :=
  match slices with
  | [] => Returns (inr [])
  | slice :: rest =>
      match chunks !! slice_chunk_key slice with
      | None => Returns (inl (chunk_not_found (slice_chunk_key slice) item))
      | Some None => Undefined
      | Some (Some chunk) =>
          let '(st, tensor) := UnpackChunkColumnAndSlice chunk slice in
          if negb (ok st) then Returns (inl st)
          else
            r ← unpack_slices chunks item rest;
            match r with
            | inl err => Returns (inl err)
            | inr unpacked => Returns (inr (tensor :: unpacked))
            end
      end
  end.

Fixpoint unpack_columns (chunks : gmap Z (option ChunkData)) (item : Z)
    (cols : list Column) : Exec (Status + list Tensor) :=
  match cols with
  | [] => Returns (inr [])
  | column :: rest =>
      r ← unpack_slices chunks item (chunk_slices column);
      match r with
      | inl err => Returns (inl err)
      | inr unpacked_chunks =>
          c ← Concat unpacked_chunks;
          match c with
          | inl err => Returns (inl err)
          | inr unpacked =>
              rs ← unpack_columns chunks item rest;
              match rs with
              | inl err => Returns (inl err)
              | inr unpacked_columns => Returns (inr (unpacked :: unpacked_columns))
              end
          end
      end
  end.

(** [AsSample(std::vector<SampleStreamResponse>, ...)] *)
Definition AsSample (responses : list SampleStreamResponse)
    : Exec (Status * option Sample.t) :=
  match responses with
  | [] => Undefined
  | front :: _ =>
      let info := info front in
      let traj := flat_trajectory (info_item info) in
      if IsTimestepTrajectory traj then TimestepTrajectoryAsSample responses
      else
        r ← unpack_columns (index_responses responses) (item_key (info_item info))
                           (columns traj);
        match r with
        | inl err => Returns (err, None)
        | inr unpacked_columns =>
            sample ← Sample.new (item_key (info_item info)) (info_probability info)
                                (info_table_size info) (item_priority (info_item info))
                                [unpacked_columns] (squeeze <$> columns traj);
            Returns (OkStatus, Some sample)
        end
  end.

(** [chunks[chunk->key()] = chunk] over the item's chunks. *)
Definition index_chunks (chunks : list ChunkData) : gmap Z ChunkData :=
  foldl (fun m chunk => <[chunk_key chunk := chunk]> m) ∅ chunks.

(** The local path reads [chunks[slice.chunk_key()]->data()]: [operator[]]
    inserts a null pointer for an absent key, which is then dereferenced. *)
Fixpoint unpack_slices_local (chunks : gmap Z ChunkData) (slices : list ChunkSlice)
    : Exec (Status + list Tensor) :=
  match slices with
  | [] => Returns (inr [])
  | slice :: rest =>
      match chunks !! slice_chunk_key slice with
      | None => Undefined
      | Some chunk =>
          let '(st, tensor) := UnpackChunkColumnAndSlice chunk slice in
          if negb (ok st) then Returns (inl st)
          else
            r ← unpack_slices_local chunks rest;
            match r with
            | inl err => Returns (inl err)
            | inr unpacked => Returns (inr (tensor :: unpacked))
            end
      end
  end.

Fixpoint unpack_columns_local (chunks : gmap Z ChunkData) (cols : list Column)
    : Exec (Status + list Tensor) :=
  match cols with
  | [] => Returns (inr [])
  | column :: rest =>
      r ← unpack_slices_local chunks (chunk_slices column);
      match r with
      | inl err => Returns (inl err)
      | inr unpacked_chunks =>
          c ← Concat unpacked_chunks;
          match c with
          | inl err => Returns (inl err)
          | inr unpacked =>
              rs ← unpack_columns_local chunks rest;
              match rs with
              | inl err => Returns (inl err)
              | inr flat => Returns (inr (unpacked :: flat))
              end
          end
      end
  end.

(** [AsSample(const Table::SampledItem&, ...)] *)
Definition AsSampleLocal (item : SampledItem) : Exec (Status * option Sample.t) :=
  let traj := flat_trajectory (sampled_item item) in
  r ← unpack_columns_local (index_chunks (sampled_chunks item)) (columns traj);
  match r with
  | inl err => Returns (err, None)
  | inr flat =>
      sample ← Sample.new (item_key (sampled_item item)) (sampled_probability item)
                          (sampled_table_size item) (item_priority (sampled_item item))
                          [flat] (squeeze <$> columns traj);
      Returns (OkStatus, Some sample)
  end.

End Assembly.

(** An instance on which the model can be run: tensors travel uncompressed
    and unencoded; a trajectory is timestep-aligned when its columns have the
    same slices of the same chunks; its offset and length are read off the
    first column; a slice of a chunk column is cut out with [Slice].  The
    properties below hold for every instance. *)
Definition plain_tensor (p : TensorProto) : Tensor :=
  mkTensor (proto_dtype p) (proto_shape p) (proto_content p).

Definition slice_span (sl : ChunkSlice) : Z * Z * Z :=
  (slice_chunk_key sl, slice_offset sl, slice_length sl).

Definition plain_unpack (chunk : ChunkData) (sl : ChunkSlice) : Status * Tensor :=
  match tensors chunk !! Z.to_nat (slice_index sl) with
  | None => (InternalError [Text "no such column"], mkTensor DT_FLOAT [0] [])
  | Some p =>
      match Slice (plain_tensor p) (slice_offset sl) (slice_offset sl + slice_length sl) with
      | Returns t => (OkStatus, t)
      | _ => (InternalError [Text "slice out of range"], mkTensor DT_FLOAT [0] [])
      end
  end.

Definition plain_util : TrajectoryUtil := {|
  DecompressTensorFromProto := plain_tensor;
  DeltaEncode := fun t _ => t;
  IsTimestepTrajectory := fun traj =>
    match columns traj with
    | [] => false
    | col :: cols =>
        forallb (fun c => bool_decide (slice_span <$> chunk_slices c
                                       = slice_span <$> chunk_slices col)) cols
    end;
  TimestepTrajectoryOffset := fun traj =>
    match columns traj with
    | col :: _ => default 0 (slice_offset <$> head (chunk_slices col))
    | [] => 0
    end;
  TimestepTrajectoryLength := fun traj =>
    match columns traj with
    | col :: _ => foldr Z.add 0 (slice_length <$> chunk_slices col)
    | [] => 0
    end;
  UnpackChunkColumnAndSlice := plain_unpack;
|}.

(** ** Workers *)

(** What a worker has done so far inside one [FetchSamples] call: the samples
    it pushed (oldest first), [num_samples_returned], and the answers the
    queue still has to give to its [Push] calls ([true]: accepted, [false]:
    refused because the queue was closed; no answer left: the push waits). *)
Record Progress : Type := mkProgress {
  pushed : list Sample.t;
  num_samples_returned : Z;
  push_answers : list bool;
}.

(** What [FetchSamples] hands back: the pair it returns and the samples it
    pushed to the queue meanwhile. *)
Record Fetched : Type := mkFetched {
  fetched_pushed : list Sample.t;
  fetched_result : Z * Status;
}.

(** The count a worker keeps agrees with the pushes it has made. *)
Definition counted (p : Progress) : Prop :=
  num_samples_returned p = Z.of_nat (length (pushed p)).

(** [queue->Push(std::move(sample))] followed by [++num_samples_returned]. *)
Definition push_sample (sample : Sample.t) (p : Progress) : Exec (bool * Progress) :=
  match push_answers p with
  | [] => Blocks
  | false :: answers =>
      Returns (false, mkProgress (pushed p) (num_samples_returned p) answers)
  | true :: answers =>
      Returns (true, mkProgress (pushed p ++ [sample]) (num_samples_returned p + 1) answers)
  end.

(** The final check shared by both workers. *)
Definition finish_fetch (num_samples : Z) (p : Progress) : Fetched :=
  if negb (num_samples_returned p =? num_samples) then
    mkFetched (pushed p)
      (num_samples_returned p,
       InternalError [Text "num_samples_returned != num_samples (";
                      Num (num_samples_returned p); Text " vs. "; Num num_samples])
  else mkFetched (pushed p) (num_samples_returned p, OkStatus).

Section Workers.
Context `{TrajectoryUtil}.

(** *** GrpcSamplerWorker *)

(** The server side of one [SampleStream]: how many [Write]s succeed before
    the stream breaks, the responses [Read] delivers before it fails, and
    the status of [Finish]. *)
Record Stream : Type := mkStream {
  writable : nat;
  incoming : list SampleStreamResponse;
  finish : Status;
}.

(** [while (!SampleIsDone(responses)) { Read; push_back }]: the responses of
    one sample, or [None] when [Read] fails, and the unread rest. *)
Fixpoint read_sample (incoming : list SampleStreamResponse)
    (responses : list SampleStreamResponse)
    : option (list SampleStreamResponse) * list SampleStreamResponse :=
  if SampleIsDone responses then (Some responses, incoming)
  else
    match incoming with
    | [] => (None, [])
    | response :: rest => read_sample rest (responses ++ [response])
    end.

(** [for (i = 0; i < request.num_samples(); i++)]: [inr] carries on,
    [inl status] is an early return with that status. *)
Fixpoint fetch_request (count : nat) (finish : Status)
    (incoming : list SampleStreamResponse) (p : Progress)
    : Exec (Progress * (Status + list SampleStreamResponse)) :=
  match count with
  | O => Returns (p, inr incoming)
  | S count' =>
      match read_sample incoming [] with
      | (None, _) => Returns (p, inl finish)
      | (Some responses, incoming') =>
          '(status, sample) ← AsSample responses;
          if negb (ok status) then Returns (p, inl status)
          else
            match sample with
            | None => Undefined
            | Some sample =>
                '(accepted, p') ← push_sample sample p;
                if negb accepted then
                  Returns (p', inl (CancelledError [Text "`Close` called on Sampler"]))
                else fetch_request count' finish incoming' p'
            end
      end
  end.

(** [while (num_samples_returned < num_samples)]; each iteration starts
    with one [Write]. *)
Fixpoint fetch_stream (samples_per_request num_samples : Z) (writable : nat)
    (finish : Status) (incoming : list SampleStreamResponse) (p : Progress)
    : Exec Fetched :=
  if num_samples_returned p <? num_samples then
    match writable with
    | O => Returns (mkFetched (pushed p) (num_samples_returned p, finish))
    | S writable' =>
        let request_num_samples :=
          Z.min samples_per_request (num_samples - num_samples_returned p) in
        '(p', r) ← fetch_request (Z.to_nat request_num_samples) finish incoming p;
        match r with
        | inl status => Returns (mkFetched (pushed p') (num_samples_returned p', status))
        | inr incoming' =>
            fetch_stream samples_per_request num_samples writable' finish incoming' p'
        end
    end
  else Returns (finish_fetch num_samples p).

(** [GrpcSamplerWorker::FetchSamples]; [closed] is [closed_] as read under
    the worker's mutex on entry. *)
Definition GrpcFetchSamples (samples_per_request : Z) (closed : bool)
    (stream : Stream) (answers : list bool) (num_samples : Z) : Exec Fetched :=
  if closed then
    Returns (mkFetched [] (0, CancelledError [Text "`Close` called on Sampler."]))
  else
    fetch_stream samples_per_request num_samples (writable stream) (finish stream)
                 (incoming stream) (mkProgress [] 0 answers).

(** *** LocalSamplerWorker *)

(** What one iteration of the local worker's loop observes: [closed_] under
    the mutex, the answer of [Table::SampleFlexibleBatch] to the batch size
    it is given, and whether the final deadline is still ahead when the
    call comes back. *)
Record Round : Type := mkRound {
  closed_seen : bool;
  SampleFlexibleBatch : Z -> Status * list SampledItem;
  before_final_deadline : bool;
}.

(** [for (const auto& item : items)] *)
Fixpoint push_items (items : list SampledItem) (p : Progress)
    : Exec (Progress * option Status) :=
  match items with
  | [] => Returns (p, None)
  | item :: rest =>
      '(status, sample) ← AsSampleLocal item;
      if negb (ok status) then Returns (p, Some status)
      else
        match sample with
        | None => Undefined
        | Some sample =>
            '(accepted, p') ← push_sample sample p;
            if negb accepted then
              Returns (p', Some (CancelledError [Text "`Close` called on Sampler"]))
            else push_items rest p'
        end
  end.

(** [while (num_samples_returned < num_samples)] of the local worker; a
    call of the table that never comes back leaves the worker waiting. *)
Fixpoint fetch_local (flexible_batch_size num_samples : Z) (rounds : list Round)
    (p : Progress) : Exec Fetched :=
  if num_samples_returned p <? num_samples then
    match rounds with
    | [] => Blocks
    | round :: rest =>
        if closed_seen round then
          Returns (mkFetched (pushed p)
                     (0, CancelledError [Text "`Close` called on Sampler."]))
        else
          let batch_size :=
            Z.min flexible_batch_size (to_int (num_samples - num_samples_returned p)) in
          let '(status, items) := SampleFlexibleBatch round batch_size in
          if IsDeadlineExceeded status && before_final_deadline round then
            fetch_local flexible_batch_size num_samples rest p
          else if negb (ok status) then
            Returns (mkFetched (pushed p) (num_samples_returned p, status))
          else
            '(p', r) ← push_items items p;
            match r with
            | Some status =>
                Returns (mkFetched (pushed p') (num_samples_returned p', status))
            | None => fetch_local flexible_batch_size num_samples rest p'
            end
    end
  else Returns (finish_fetch num_samples p).

(** [LocalSamplerWorker::FetchSamples] *)
Definition LocalFetchSamples (flexible_batch_size : Z) (rounds : list Round)
    (answers : list bool) (num_samples : Z) : Exec Fetched :=
  fetch_local flexible_batch_size num_samples rounds (mkProgress [] 0 answers).

End Workers.

(** ** The Sampler *)

Inductive ValidationMode : Type := kTimestep | kBatchedTimestep | kTrajectory.

(** [PartialTensorShape::IsCompatibleWith(TensorShape)] *)
Definition IsCompatibleWith (spec : option (list Z)) (sh : list Z) : bool :=
  match spec with
  | None => true
  | Some ds =>
      bool_decide (length ds = length sh)
      && forallb (fun '(dx, dy) => (dx =? -1) || (dy =? -1) || (dx =? dy)) (zip ds sh)
  end.

(** The signature [internal::SpecsFromTensors] reads off a tensor list. *)
Definition SpecsFromTensors (ts : list Tensor) : list TensorSpec :=
  (fun t => mkTensorSpec EmptyString (dtype t) (Some (shape t))) <$> ts.

Definition nl : string := String (Ascii.ascii_of_nat 10) EmptyString.

Module Sampler.

Record t : Type := mk {
  table_ : string;
  max_samples_ : Z;
  max_samples_per_stream_ : Z;
  active_sample_ : option Sample.t;
  samples_ : Queue.t Sample.t;
  dtypes_and_shapes_ : option (list TensorSpec);
  (* guarded by mu_ *)
  requested_ : Z;
  returned_ : Z;
  worker_status_ : Status;
  closed_ : bool;
}.

Definition set_active_sample (s : t) (a : option Sample.t) : t :=
  mk (table_ s) (max_samples_ s) (max_samples_per_stream_ s) a (samples_ s)
     (dtypes_and_shapes_ s) (requested_ s) (returned_ s) (worker_status_ s) (closed_ s).

Definition set_samples (s : t) (q : Queue.t Sample.t) : t :=
  mk (table_ s) (max_samples_ s) (max_samples_per_stream_ s) (active_sample_ s) q
     (dtypes_and_shapes_ s) (requested_ s) (returned_ s) (worker_status_ s) (closed_ s).

Definition set_requested (s : t) (n : Z) : t :=
  mk (table_ s) (max_samples_ s) (max_samples_per_stream_ s) (active_sample_ s)
     (samples_ s) (dtypes_and_shapes_ s) n (returned_ s) (worker_status_ s) (closed_ s).

Definition set_returned (s : t) (n : Z) : t :=
  mk (table_ s) (max_samples_ s) (max_samples_per_stream_ s) (active_sample_ s)
     (samples_ s) (dtypes_and_shapes_ s) (requested_ s) n (worker_status_ s) (closed_ s).

Definition set_worker_status (s : t) (st : Status) : t :=
  mk (table_ s) (max_samples_ s) (max_samples_per_stream_ s) (active_sample_ s)
     (samples_ s) (dtypes_and_shapes_ s) (requested_ s) (returned_ s) st (closed_ s).

Definition set_closed (s : t) (b : bool) : t :=
  mk (table_ s) (max_samples_ s) (max_samples_per_stream_ s) (active_sample_ s)
     (samples_ s) (dtypes_and_shapes_ s) (requested_ s) (returned_ s)
     (worker_status_ s) b.

(** The state the constructor leaves, for a resolved [max_samples] and
    [max_samples_per_stream]. *)
Definition new (table : string) (max_samples max_samples_per_stream : Z)
    (num_workers : Z) (dtypes_and_shapes : option (list TensorSpec)) : t :=
  mk table max_samples max_samples_per_stream None
     (Queue.mk [] (Z.to_nat (Z.max num_workers 1)) false)
     dtypes_and_shapes 0 0 OkStatus false.

(** The loop of [ValidateAgainstOutputSpec] from index [i] on, over the
    tensors and the signature entries at the same positions. *)
Fixpoint validate_from (table : string) (sig : list TensorSpec) (mode : ValidationMode)
    (i : Z) (entries : list (Tensor * TensorSpec)) : Status :=
  match entries with
  | [] => OkStatus
  | (tensor, spec) :: rest =>
      let batched := match mode with kBatchedTimestep => true | _ => false end in
      if batched && bool_decide (shape tensor = []) then
        InvalidArgumentError
          [Text "Invalid tensor shape received from table '"; Text table;
           Text "'.  time_step is false but data["; Num i;
           Text "] has scalar shape (no time dimension)."]
      else
        let sh := if batched then tail (shape tensor) else shape tensor in
        if bool_decide (dtype tensor ≠ spec_dtype spec)
           || negb (IsCompatibleWith (spec_shape spec) sh) then
          InvalidArgumentError
            [Text "Received incompatible tensor at flattened index "; Num i;
             Text " from table '"; Text table;
             Text "'.  Specification has (dtype, shape): (";
             DTypeName (spec_dtype spec); Text ", "; ShapeText (spec_shape spec);
             Text ").  Tensor has (dtype, shape): ("; DTypeName (dtype tensor);
             Text ", "; ShapeText (Some sh);
             Text (")." +:+ nl +:+ "Table signature: "); Signature sig]
        else validate_from table sig mode (i + 1) rest
  end.

Definition ValidateAgainstOutputSpec (s : t) (data : list Tensor) (mode : ValidationMode)
    : Status :=
  match dtypes_and_shapes_ s with
  | None => OkStatus
  | Some sig =>
      if bool_decide (length data ≠ length sig) then
        InvalidArgumentError
          [Text "Inconsistent number of tensors received from table '"; Text (table_ s);
           Text "'.  Specification has "; Num (Z.of_nat (length sig));
           Text " tensors, but data coming from the table shows ";
           Num (Z.of_nat (length data));
           Text (" tensors." +:+ nl +:+ "Table signature: "); Signature sig;
           Text ("." +:+ nl +:+ "Incoming tensor signature: ");
           Signature (SpecsFromTensors data)]
      else validate_from (table_ s) sig mode 4 (zip (drop 4 data) (drop 4 sig))
  end.

Definition should_stop_workers (s : t) : bool :=
  closed_ s || (returned_ s =? max_samples_ s) || negb (ok (worker_status_ s)).

(** The two writes of [Close()] to the sampler, [closed_ = true] under the
    mutex and [samples_.Close()], taken as one action.  The call itself
    returns only after the worker threads have been joined: what a joined
    worker still writes is its own action ([report] below), and the whole
    call, with the actions of the other threads, is [Close_call]. *)
Definition Close (s : t) : t :=
  if closed_ s then s
  else
    let s := set_closed s true in
    set_samples s (Queue.Close (samples_ s)).

(** [PopNextSample(&sample)]: the status, the sample stored through the
    pointer (if any), and the sampler after the call. *)
Definition PopNextSample (s : t) : Exec (Status * option Sample.t * t) :=
  '(popped, q) ← Queue.Pop (samples_ s);
  match popped with
  | Some sample => Returns (OkStatus, Some sample, set_samples s q)
  | None =>
      if returned_ s =? max_samples_ s then
        Returns (OutOfRangeError [Text "`max_samples` already returned."], None, s)
      else if closed_ s then
        Returns (CancelledError [Text "Sampler has been cancelled."], None, s)
      else Returns (worker_status_ s, None, s)
  end.

(** Whether [MaybeSampleNext] has to pop. *)
Definition needs_next_sample (s : t) : bool :=
  match active_sample_ s with
  | Some active => Sample.is_end_of_sample active
  | None => true
  end.

Definition MaybeSampleNext (s : t) : Exec (Status * t) :=
  if negb (needs_next_sample s) then Returns (OkStatus, s)
  else
    '(status, popped, s') ← PopNextSample s;
    match popped with
    | Some sample => Returns (status, set_active_sample s' (Some sample))
    | None => Returns (status, s')
    end.

(** [if (++returned_ == max_samples_) samples_.Close();] *)
Definition count_returned (s : t) : t :=
  let s := set_returned s (returned_ s + 1) in
  if returned_ s =? max_samples_ s then set_samples s (Queue.Close (samples_ s)) else s.

(** [GetNextTimestep(&data, &end_of_sequence)]: the status, what was
    written to [*data] and to [*end_of_sequence], and the sampler after. *)
Definition GetNextTimestep (s : t)
    : Exec (Status * option (list Tensor) * option bool * t) :=
  '(status, s) ← MaybeSampleNext s;
  if negb (ok status) then Returns (status, None, None, s)
  else
    match active_sample_ s with
    | None => Undefined
    | Some active =>
        decomposable ← Sample.is_composed_of_timesteps active;
        if negb decomposable then
          Returns (InvalidArgumentError
                     [Text "Sampled trajectory cannot be decomposed into timesteps."],
                   None, None, s)
        else
          '(data, active) ← Sample.GetNextTimestep active;
          let s := set_active_sample s (Some active) in
          let status := ValidateAgainstOutputSpec s data kTimestep in
          if negb (ok status) then Returns (status, Some data, None, s)
          else
            let end_of_sequence := Sample.is_end_of_sample active in
            let s := if end_of_sequence then count_returned s else s in
            Returns (OkStatus, Some data, Some end_of_sequence, s)
    end.

(** The common shape of [GetNextSample] and [GetNextTrajectory]: pop,
    materialise, validate, count. *)
Definition get_next (materialise : Sample.t -> Exec (Status * option (list Tensor) * Sample.t))
    (mode : ValidationMode) (s : t) : Exec (Status * option (list Tensor) * t) :=
  '(status, popped, s) ← PopNextSample s;
  if negb (ok status) then Returns (status, None, s)
  else
    match popped with
    | None => Undefined
    | Some sample =>
        '(status, data, _) ← materialise sample;
        if negb (ok status) then Returns (status, data, s)
        else
          match data with
          | None => Undefined
          | Some tensors =>
              let status := ValidateAgainstOutputSpec s tensors mode in
              if negb (ok status) then Returns (status, data, s)
              else Returns (OkStatus, data, count_returned s)
          end
    end.

Definition GetNextSample : t -> Exec (Status * option (list Tensor) * t) :=
  get_next Sample.AsBatchedTimesteps kBatchedTimestep.

Definition GetNextTrajectory : t -> Exec (Status * option (list Tensor) * t) :=
  get_next Sample.AsTrajectory kTrajectory.

(** The fields no consumer call writes: the configuration and, of the
    counters under [mu_], [requested_], [worker_status_] and [closed_]. *)
Definition consumer_frame (s s' : t) : Prop :=
  table_ s' = table_ s
  ∧ max_samples_ s' = max_samples_ s
  ∧ max_samples_per_stream_ s' = max_samples_per_stream_ s
  ∧ dtypes_and_shapes_ s' = dtypes_and_shapes_ s
  ∧ requested_ s' = requested_ s
  ∧ worker_status_ s' = worker_status_ s
  ∧ closed_ s' = closed_ s.

(** *** RunWorker

    One iteration of the worker loop is two critical sections around a
    [FetchSamples] call made without the lock. *)

(** [mu_.LockWhen(trigger)] up to [mu_.Unlock()]: [None] when the thread
    returns, otherwise [samples_to_stream]. *)
Definition reserve (s : t) : Exec (option Z * t) :=
  if should_stop_workers s then Returns (None, s)
  else if requested_ s <? max_samples_ s then
    let samples_to_stream :=
      Z.min (max_samples_per_stream_ s) (max_samples_ s - requested_ s) in
    Returns (Some samples_to_stream, set_requested s (requested_ s + samples_to_stream))
  else Blocks.

(** The block under [WriterMutexLock] after [FetchSamples] came back with
    [result]: the sampler after it and whether the thread returns. *)
Definition report (samples_to_stream : Z) (result : Z * Status) (s : t) : t * bool :=
  let s := set_requested s (requested_ s - (samples_to_stream - result.1)) in
  if ok (worker_status_ s) && negb (ok result.2) && negb (IsUnavailable result.2) then
    let s := set_worker_status s result.2 in
    (set_samples s (Queue.Close (samples_ s)), true)
  else (s, false).

(** The samples a worker pushed meanwhile, as they sit in the queue. *)
Definition deliver (samples : list Sample.t) (s : t) : t :=
  set_samples s (Queue.mk (Queue.items (samples_ s) ++ samples)
                          (Queue.capacity (samples_ s)) (Queue.closed (samples_ s))).

(** What the threads sharing a sampler can do to it, one atomic action at
    a time. *)
Inductive step : t -> t -> Prop :=
  | step_reserve s n s' :
      reserve s = Returns (n, s') -> step s s'
  | step_push s sample q :
      Queue.Push sample (samples_ s) = Returns (true, q) -> step s (set_samples s q)
  | step_report s n result :
      step s (report n result s).1
  | step_timestep s status data eos s' :
      GetNextTimestep s = Returns (status, data, eos, s') -> step s s'
  | step_sample s status data s' :
      GetNextSample s = Returns (status, data, s') -> step s s'
  | step_trajectory s status data s' :
      GetNextTrajectory s = Returns (status, data, s') -> step s s'
  | step_close s :
      step s (Close s).

End Sampler.

(** ** Options, worker count and construction *)

(** Constants of sampler.h, and [absl::FormatDuration]; sampler.cc only
    names them. *)
Class SamplerConstants : Type := {
  kUnlimitedMaxSamples : Z;
  kAutoSelectValue : Z;
  kDefaultNumWorkers : Z;
  kDefaultMaxSamplesPerStream : Z;
  FormatDuration : Z -> string;
}.

Definition INT64_MAX : Z := 2 ^ 63 - 1.
Definition INT64_MIN : Z := - 2 ^ 63.

(** [Sampler::Options]; the rate limiter timeout is a duration in ticks, of
    which the sampler tests the sign. *)
Record Options : Type := mkOptions {
  max_samples : Z;
  max_in_flight_samples_per_worker : Z;
  num_workers : Z;
  max_samples_per_stream : Z;
  rate_limiter_timeout : Z;
  flexible_batch_size : Z;
}.

Section OptionsModel.
Context `{SamplerConstants}.

(** [Sampler::Options::Validate] *)
Definition Validate (o : Options) : Status :=
  if (max_samples o <? 1) && negb (max_samples o =? kUnlimitedMaxSamples) then
    InvalidArgumentError
      [Text "max_samples ("; Num (max_samples o); Text ") must be ";
       Num kUnlimitedMaxSamples; Text " or >= 1"]
  else if max_in_flight_samples_per_worker o <? 1 then
    InvalidArgumentError
      [Text "max_in_flight_samples_per_worker (";
       Num (max_in_flight_samples_per_worker o); Text ") has to be >= 1"]
  else if (num_workers o <? 1) && negb (num_workers o =? kAutoSelectValue) then
    InvalidArgumentError
      [Text "num_workers ("; Num (num_workers o); Text ") must be ";
       Num kAutoSelectValue; Text " or >= 1"]
  else if (max_samples_per_stream o <? 1)
          && negb (max_samples_per_stream o =? kUnlimitedMaxSamples) then
    InvalidArgumentError
      [Text "max_samples_per_stream ("; Num (max_samples_per_stream o);
       Text ") must be "; Num kUnlimitedMaxSamples; Text " or >= 1"]
  else if rate_limiter_timeout o <? 0 then
    InvalidArgumentError
      [Text "rate_limiter_timeout ("; Text (FormatDuration (rate_limiter_timeout o));
       Text ") must not be negative."]
  else if (flexible_batch_size o <? 1)
          && negb (flexible_batch_size o =? kAutoSelectValue) then
    InvalidArgumentError
      [Text "flexible_batch_size ("; Num (flexible_batch_size o); Text ") must be ";
       Num kAutoSelectValue; Text " or >= 1"]
  else OkStatus.

(** [max_samples] and [num_workers] as [GetNumWorkers] resolves them. *)
Definition resolved_max_samples (o : Options) : Z :=
  if max_samples o =? kUnlimitedMaxSamples then INT64_MAX else max_samples o.

Definition resolved_num_workers (o : Options) : Z :=
  if num_workers o =? kAutoSelectValue then kDefaultNumWorkers else num_workers o.

(** [GetNumWorkers]; the quotient is C++ integer division on [int64_t],
    undefined for a zero divisor and for [INT64_MIN / -1]. *)
Definition GetNumWorkers (o : Options) : Exec Z :=
  if max_in_flight_samples_per_worker o =? 0 then Undefined
  else if (resolved_max_samples o =? INT64_MIN)
          && (max_in_flight_samples_per_worker o =? -1) then Undefined
  else
    Returns (Z.min (resolved_num_workers o)
                   (Z.max 1 (Z.quot (resolved_max_samples o)
                                    (max_in_flight_samples_per_worker o)))).

(** The batch size [MakeLocalWorkers] hands to each [LocalSamplerWorker],
    whose constructor checks that it is at least 1;
    [default_flexible_batch_size] is [table->DefaultFlexibleBatchSize()], and
    the local [int flexible_batch_size] holds the selected value. *)
Definition local_flexible_batch_size (default_flexible_batch_size : Z) (o : Options)
    : Exec Z :=
  let flexible_batch_size :=
    to_int (if flexible_batch_size o =? kAutoSelectValue then default_flexible_batch_size
            else flexible_batch_size o) in
  let flexible_batch_size :=
    Z.min flexible_batch_size (max_in_flight_samples_per_worker o) in
  if flexible_batch_size <? 1 then Aborts else Returns flexible_batch_size.

(** The constructor [Sampler(workers, table, options, dtypes_and_shapes)]:
    the members it initialises and its four [REVERB_CHECK]s. *)
Definition construct (table : string) (o : Options)
    (dtypes_and_shapes : option (list TensorSpec)) : Exec Sampler.t :=
  let max_samples_ := resolved_max_samples o in
  let max_samples_per_stream_ :=
    if max_samples_per_stream o =? kAutoSelectValue then kDefaultMaxSamplesPerStream
    else max_samples_per_stream o in
  if negb (0 <? max_samples_) then Aborts
  else if negb (0 <? max_in_flight_samples_per_worker o) then Aborts
  else if negb ((num_workers o =? kAutoSelectValue) || (0 <? num_workers o)) then Aborts
  else if negb ((flexible_batch_size o =? kAutoSelectValue) || (0 <? flexible_batch_size o))
  then Aborts
  else Returns (Sampler.new table max_samples_ max_samples_per_stream_ (num_workers o)
                            dtypes_and_shapes).

End OptionsModel.

(** Values of the constants on which the model can be run. *)
Definition plain_constants : SamplerConstants := {|
  kUnlimitedMaxSamples := -1;
  kAutoSelectValue := -1;
  kDefaultNumWorkers := 1;
  kDefaultMaxSamplesPerStream := 10000;
  FormatDuration := fun _ => "duration";
|}.

(** Concrete inputs for runs of the model: a sample of two timesteps in one
    chunk group, and a sampler for one sample that holds it in its queue. *)
Definition two_step_sample : Sample.t :=
  Sample.mk 7 0 1 0 2 1 [[vector DT_INT64 [10; 20]]] [false] 0 false.

Definition one_sample_sampler : Sampler.t :=
  Sampler.mk "table" 1 1 None (Queue.mk [two_step_sample] 1 false) None 1 0 OkStatus false.

(** ** Notions used in the statements *)

(** A sample as its constructor leaves it: some chunk group, the cursor at
    the first row, not iterated. *)
Definition fresh (s : Sample.t) : Prop :=
  Sample.chunks_ s ≠ []
  ∧ Sample.next_timestep_index_ s = 0
  ∧ Sample.next_timestep_called_ s = false.

(** [k] successive [GetNextTimestep] calls on a sample: the rows in order
    and the sample they leave. *)
Fixpoint timesteps (k : nat) (s : Sample.t) : Exec (list (list Tensor) * Sample.t) :=
  match k with
  | O => Returns ([], s)
  | S k' =>
      '(row, s1) ← Sample.GetNextTimestep s;
      '(rows, s2) ← timesteps k' s1;
      Returns (row :: rows, s2)
  end.

(** Chunk groups of [n] columns each, the tensors of a group sharing the
    group's positive leading dimension ([dims] lists these dimensions). *)
Definition aligned (n : nat) (chunks : list (list Tensor)) (dims : list Z) : Prop :=
  Forall2 (fun group d =>
             0 < d ∧ length group = n
             ∧ Forall (fun t => exists rest, shape t = d :: rest) group)
          chunks dims.

(** The sample [s] once its iteration stands at row [index] of the first
    group of [chunks]. *)
Definition at_cursor (s : Sample.t) (chunks : list (list Tensor)) (index : Z) : Sample.t :=
  Sample.mk (Sample.key_ s) (Sample.probability_ s) (Sample.table_size_ s)
            (Sample.priority_ s) (Sample.num_timesteps_ s) (Sample.num_data_tensors_ s)
            chunks (Sample.squeeze_columns_ s) index true.

(** A column as [AsTrajectory] returns it: its first row, without the
    leading dimension, when the column is squeezed. *)
Definition squeezed (squeeze_column : bool) (t : Tensor) : Tensor :=
  if squeeze_column then
    {| dtype := dtype t;
       shape := tail (shape t);
       buf := take (Z.to_nat (num_elements (tail (shape t)))) (buf t) |}
  else t.

(** A whole [Close()] call, from the sampler before it to the sampler it
    returns with.  On a closed sampler the call returns at once.  Otherwise
    [closed_] is set under the mutex, the workers are told to cancel, the
    queue is closed, and the call returns when the worker threads have been
    joined; in between, and until the join is over, the other threads act on
    the sampler: workers push and report, the consumer calls. *)
Inductive Close_call : Sampler.t -> Sampler.t -> Prop :=
  | Close_call_closed s :
      Sampler.closed_ s = true -> Close_call s s
  | Close_call_run s s1 s2 :
      Sampler.closed_ s = false ->
      rtc Sampler.step (Sampler.set_closed s true) s1 ->
      rtc Sampler.step (Sampler.set_samples s1 (Queue.Close (Sampler.samples_ s1))) s2 ->
      Close_call s s2.

(** What the validator's loop asks of the tensor and the signature entry at
    one index. *)
Definition matches_spec (mode : ValidationMode) (tensor : Tensor) (spec : TensorSpec)
    : Prop :=
  dtype tensor = spec_dtype spec
  ∧ match mode with
    | kBatchedTimestep =>
        shape tensor ≠ [] ∧ IsCompatibleWith (spec_shape spec) (tail (shape tensor)) = true
    | _ => IsCompatibleWith (spec_shape spec) (shape tensor) = true
    end.

(** * Properties *)

(** ** Completion of a sample ([SampleIsDone]) *)

Lemma elem_of_received_chunks_acc (sample : list SampleStreamResponse) (acc : gset Z) key :
  key ∈ foldl (fun acc response =>
                 if has_data response then {[ chunk_key (data response) ]} ∪ acc else acc)
              acc sample
  ↔ key ∈ acc ∨ ∃ r, r ∈ sample ∧ has_data r = true ∧ chunk_key (data r) = key.
Proof.
  revert acc. induction sample as [|r sample IH]; intros acc; simpl.
  - split; [auto | intros [?|(r & Hr & _)]; [done | by apply elem_of_nil in Hr]].
  - rewrite IH. split.
    + intros [Hk | (r' & Hin & Hd & Hk)].
      * destruct (has_data r) eqn:Hd; [|by left].
        apply elem_of_union in Hk as [Hk | Hk]; [|by left].
        apply elem_of_singleton in Hk. right. exists r. split; [left | done].
      * right. exists r'. split; [by right | done].
    + intros [Hk | (r' & Hin & Hd & Hk)].
      * left. destruct (has_data r); [by apply elem_of_union_r | done].
      * apply elem_of_cons in Hin as [-> | Hin].
        -- left. rewrite Hd. by apply elem_of_union_l, elem_of_singleton.
        -- right. by exists r'.
Qed.

Lemma elem_of_received_chunks (sample : list SampleStreamResponse) key :
  key ∈ received_chunks sample
  ↔ ∃ r, r ∈ sample ∧ has_data r = true ∧ chunk_key (data r) = key.
Proof.
  unfold received_chunks. rewrite elem_of_received_chunks_acc.
  split; [intros [Hk | Hk]; [by apply not_elem_of_empty in Hk | done] | by right].
Qed.

Lemma elem_of_GetChunkKeys traj key :
  key ∈ GetChunkKeys traj
  ↔ ∃ col sl, col ∈ columns traj ∧ sl ∈ chunk_slices col ∧ slice_chunk_key sl = key.
Proof.
  unfold GetChunkKeys. rewrite list_elem_of_join. split.
  - intros (l & Hk & Hl). apply list_elem_of_fmap in Hl as (col & -> & Hcol).
    apply list_elem_of_fmap in Hk as (sl & -> & Hsl). by exists col, sl.
  - intros (col & sl & Hcol & Hsl & <-).
    exists (slice_chunk_key <$> chunk_slices col). split.
    + by apply list_elem_of_fmap_2.
    + apply list_elem_of_fmap. by exists col.
Qed.

(** C4. [SampleIsDone] is false on the empty list, and on a non-empty list
    it is true exactly when every chunk key referenced by a slice of the
    first response's flat trajectory is the [chunk_key] of some data-bearing
    response of the list. *)
Theorem SampleIsDone_covers :
  forall (front : SampleStreamResponse) (rest : list SampleStreamResponse),
    (SampleIsDone (front :: rest) = true
     ↔ (forall col sl,
          col ∈ columns (flat_trajectory (info_item (info front))) ->
          sl ∈ chunk_slices col ->
          exists r, r ∈ front :: rest ∧ has_data r = true
                    ∧ chunk_key (data r) = slice_chunk_key sl))
    ∧ SampleIsDone [] = false.
Proof.
  intros front rest. split; [|reflexivity].
  unfold SampleIsDone. rewrite forallb_forall. split.
  - intros Hall col sl Hcol Hsl.
    apply elem_of_received_chunks.
    eapply bool_decide_eq_true_1, Hall, list_elem_of_In, elem_of_GetChunkKeys.
    by exists col, sl.
  - intros Hcov key Hkey. apply bool_decide_eq_true_2, elem_of_received_chunks.
    apply list_elem_of_In, elem_of_GetChunkKeys in Hkey as (col & sl & Hcol & Hsl & <-).
    by apply (Hcov col sl).
Qed.

(** ** The Sample class *)

(** Case analysis on the next call, test or match a hypothesis about a run
    is stuck on. *)
Ltac exec_case H :=
  match type of H with
  | context [mbind _ ?m] => destruct m eqn:?; simpl in H; try discriminate H
  | context [match ?x with _ => _ end] => destruct x eqn:?; simpl in H; try discriminate H
  end.

Lemma sum_front_dims_returns chunks acc :
  Forall (fun group => exists front, head group = Some front ∧ shape front ≠ []) chunks ->
  exists n, Sample.sum_front_dims chunks acc = Returns n.
Proof.
  intros Hall. revert acc. induction Hall as [|group chunks (front & Hf & Hsh) _ IH];
    intros acc; simpl.
  - by eexists.
  - destruct group as [|t0 group]; [done|]. injection Hf as ->.
    unfold dim_size0. destruct (shape front); [done|]. simpl. apply IH.
Qed.

(** C8 (refuted as stated). A sample whose first chunk group has two tensors
    and whose second has one is constructed without complaint. *)
Example Sample_new_accepts_mismatched_columns :
  exists s,
    Sample.new 7 0 1 0
      [[vector DT_INT64 [1; 2]; vector DT_INT64 [3; 4]]; [vector DT_INT64 [5]]]
      [false; false] = Returns s
    ∧ length <$> Sample.chunks_ s = [2; 1]%nat.
Proof. eexists. split; reflexivity. Qed.

(** C8 (amended). The constructor aborts when the chunk-group sequence is
    empty or its first group is empty; a sample it returns holds the chunk
    groups it was given and takes its column count from the first group; and
    it returns whenever every group starts with a tensor of rank at least 1,
    whatever the column counts of the groups. *)
Theorem Sample_new_checks :
  forall key probability table_size priority (chunks : list (list Tensor)) squeeze_columns,
    (chunks = [] ∨ head chunks = Some [] ->
     Sample.new key probability table_size priority chunks squeeze_columns = Aborts)
    ∧ (forall s,
         Sample.new key probability table_size priority chunks squeeze_columns = Returns s ->
         exists front rest,
           chunks = front :: rest ∧ front ≠ []
           ∧ Sample.chunks_ s = chunks
           ∧ Sample.num_data_tensors_ s = length front
           ∧ Sample.next_timestep_called_ s = false)
    ∧ (chunks ≠ [] ->
       Forall (fun group => exists front, head group = Some front ∧ shape front ≠ []) chunks ->
       exists s,
         Sample.new key probability table_size priority chunks squeeze_columns = Returns s).
Proof.
  intros key probability table_size priority chunks squeeze_columns.
  unfold Sample.new. split; [|split].
  - intros [-> | Hhead]; [done|].
    destruct chunks as [|front rest]; [done|]. injection Hhead as ->. done.
  - intros s Hnew. destruct chunks as [|front rest]; [done|].
    case_bool_decide as Hfront; [done|].
    destruct (Sample.sum_front_dims (front :: rest) 0) as [n| | |]; try done.
    injection Hnew as <-. by exists front, rest.
  - intros Hne Hall. destruct chunks as [|front rest]; [done|].
    case_bool_decide as Hfront.
    + apply Forall_cons in Hall as [(t0 & Ht0 & _) _]. by subst front.
    + destruct (sum_front_dims_returns _ 0 Hall) as [n ->]. by eexists.
Qed.

(** A witness of [Sample_new_checks]: its third part builds the sample with
    mismatched column counts. *)
Lemma Sample_new_checks_witness :
  exists s,
    Sample.new 7 0 1 0
      [[vector DT_INT64 [1; 2]; vector DT_INT64 [3; 4]]; [vector DT_INT64 [5]]]
      [false; false] = Returns s.
Proof.
  apply (Sample_new_checks 7 0 1 0
           [[vector DT_INT64 [1; 2]; vector DT_INT64 [3; 4]]; [vector DT_INT64 [5]]]
           [false; false]); [done|].
  repeat constructor; eexists; (split; [reflexivity | done]).
Defined.

Lemma GetNextTimestep_called s row s' :
  Sample.GetNextTimestep s = Returns (row, s') -> Sample.next_timestep_called_ s' = true.
Proof.
  unfold Sample.GetNextTimestep. intros Hcall.
  repeat exec_case Hcall; by simplify_eq.
Qed.

Lemma AsBatchedTimesteps_called s :
  Sample.next_timestep_called_ s = true ->
  Sample.AsBatchedTimesteps s
  = Returns (DataLossError [Text "Sample::AsBatchedTimesteps: Some time steps have been lost."],
             None, s).
Proof. intros Hc. unfold Sample.AsBatchedTimesteps. by rewrite Hc. Qed.

Lemma AsTrajectory_called s :
  Sample.next_timestep_called_ s = true ->
  Sample.AsTrajectory s
  = Returns (DataLossError [Text "Sample::AsBatchedTimesteps: Some time steps have been lost."],
             None, s).
Proof. intros Hc. unfold Sample.AsTrajectory. by rewrite Hc. Qed.

Lemma call_keeps_called s s' :
  Sample.call s s' ->
  Sample.next_timestep_called_ s = true -> Sample.next_timestep_called_ s' = true.
Proof.
  intros [s0 row s1 Hcall | s0 st out s1 Hcall | s0 st out s1 Hcall] Hc.
  - by eapply GetNextTimestep_called.
  - rewrite AsBatchedTimesteps_called in Hcall by done. by simplify_eq.
  - rewrite AsTrajectory_called in Hcall by done. by simplify_eq.
Qed.

Lemma calls_keep_called s s' :
  rtc Sample.call s s' ->
  Sample.next_timestep_called_ s = true -> Sample.next_timestep_called_ s' = true.
Proof. induction 1; eauto using call_keeps_called. Qed.

(** C5. Once [GetNextTimestep] has returned a timestep of a sample, then
    after any further calls on it both [AsBatchedTimesteps] and
    [AsTrajectory] return a data-loss error, write nothing to the output and
    leave the sample as it is. *)
Theorem materialise_after_timestep_is_data_loss :
  forall s row s1 s2,
    Sample.GetNextTimestep s = Returns (row, s1) ->
    rtc Sample.call s1 s2 ->
    (exists msg, Sample.AsBatchedTimesteps s2 = Returns (DataLossError msg, None, s2))
    ∧ (exists msg, Sample.AsTrajectory s2 = Returns (DataLossError msg, None, s2)).
Proof.
  intros s row s1 s2 Hfirst Hcalls.
  assert (Sample.next_timestep_called_ s2 = true) as Hc
    by eauto using calls_keep_called, GetNextTimestep_called.
  split; eexists; [by apply AsBatchedTimesteps_called | by apply AsTrajectory_called].
Qed.

(** A witness of [materialise_after_timestep_is_data_loss]: a sample of three
    timesteps, one fetched, then another. *)
Lemma materialise_after_timestep_witness :
  (exists msg,
     Sample.AsBatchedTimesteps
       (Sample.mk 7 0 1 0 3 1 [[vector DT_INT64 [10; 20; 30]]] [false] 2 true)
     = Returns (DataLossError msg, None,
                Sample.mk 7 0 1 0 3 1 [[vector DT_INT64 [10; 20; 30]]] [false] 2 true))
  ∧ (exists msg,
       Sample.AsTrajectory
         (Sample.mk 7 0 1 0 3 1 [[vector DT_INT64 [10; 20; 30]]] [false] 2 true)
       = Returns (DataLossError msg, None,
                  Sample.mk 7 0 1 0 3 1 [[vector DT_INT64 [10; 20; 30]]] [false] 2 true)).
Proof.
  apply (materialise_after_timestep_is_data_loss
           (Sample.mk 7 0 1 0 3 1 [[vector DT_INT64 [10; 20; 30]]] [false] 0 false)
           (Sample.metadata (Sample.mk 7 0 1 0 3 1 [] [] 0 false) ++ [scalar DT_INT64 10])
           (Sample.mk 7 0 1 0 3 1 [[vector DT_INT64 [10; 20; 30]]] [false] 1 true)).
  - reflexivity.
  - eapply rtc_l; [|apply rtc_refl].
    eapply Sample.call_timestep. reflexivity.
Defined.

Lemma push_group_returns (cols : list (list Tensor)) (group : list Tensor) :
  (length group ≤ length cols)%nat ->
  exists cols',
    Sample.push_group cols group = Returns cols'
    ∧ length cols' = length cols
    ∧ forall i, cols' !! i = (fun col => col ++ option_list (group !! i)) <$> cols !! i.
Proof.
  revert cols. induction group as [|batch group IH]; intros cols Hlen; simpl.
  - exists cols. split; [done|]. split; [done|]. intros i.
    destruct (cols !! i); simpl; [by rewrite app_nil_r | done].
  - destruct cols as [|col cols]; simpl in Hlen; [lia|].
    destruct (IH cols) as (cols' & -> & Hl & Hi); [lia|]. simpl.
    eexists. split; [done|]. split; [simpl; lia|].
    intros [|i]; simpl; [done | apply Hi].
Qed.

Lemma column_cons (group : list Tensor) chunks i :
  Sample.column (group :: chunks) i = option_list (group !! i) ++ Sample.column chunks i.
Proof. unfold Sample.column. simpl. by destruct (group !! i). Qed.

Lemma extract_chunks_returns (cols : list (list Tensor)) (chunks : list (list Tensor)) :
  Forall (fun group => length group ≤ length cols)%nat chunks ->
  exists cols',
    Sample.extract_chunks cols chunks = Returns cols'
    ∧ length cols' = length cols
    ∧ forall i, cols' !! i = (fun col => col ++ Sample.column chunks i) <$> cols !! i.
Proof.
  revert cols.
  induction chunks as [|group chunks IH]; intros cols Hall; cbn [Sample.extract_chunks].
  - exists cols. split; [done|]. split; [done|]. intros i.
    destruct (cols !! i); simpl; [by rewrite app_nil_r | done].
  - apply Forall_cons in Hall as [Hg Hall].
    destruct (push_group_returns cols group Hg) as (cols1 & -> & Hl1 & Hi1). simpl.
    destruct (IH cols1) as (cols2 & -> & Hl2 & Hi2).
    { by rewrite Hl1. }
    exists cols2. split; [done|]. split; [congruence|].
    intros i. rewrite Hi2, Hi1.
    destruct (cols !! i) as [col|]; [|done]. simpl. f_equal.
    destruct (group !! i); simpl; [by rewrite <- app_assoc | by rewrite app_nil_r].
Qed.

(** From empty per-column vectors, extraction yields the data columns. *)
Lemma extract_chunks_columns n (chunks : list (list Tensor)) :
  Forall (fun group => length group ≤ n)%nat chunks ->
  Sample.extract_chunks (replicate n []) chunks
  = Returns (Sample.column chunks <$> seq 0 n).
Proof.
  intros Hall.
  destruct (extract_chunks_returns (replicate n []) chunks) as (cols & -> & Hl & Hi).
  { by rewrite length_replicate. }
  f_equal. apply list_eq. intros i. rewrite Hi, list_lookup_fmap.
  destruct (decide (i < n)%nat) as [Hlt | Hge].
  - rewrite lookup_replicate_2 by done. rewrite lookup_seq_lt by done. done.
  - rewrite (proj1 (lookup_replicate_None n [] i)) by lia.
    rewrite lookup_seq_ge by lia. done.
Qed.

Lemma concat_all_returns (cols : list (list Tensor)) (sequences : list Tensor) :
  Forall2 (fun col c => Concat col = Returns (inr c)) cols sequences ->
  Sample.concat_all cols = Returns (inr sequences).
Proof.
  induction 1 as [|col c cols sequences Hc _ IH]; simpl; [done|].
  by rewrite Hc; simpl; rewrite IH.
Qed.

Lemma concat_all_fails (done_cols : list (list Tensor)) (sequences : list Tensor)
    col err rest :
  Forall2 (fun col c => Concat col = Returns (inr c)) done_cols sequences ->
  Concat col = Returns (inl err) ->
  Sample.concat_all (done_cols ++ col :: rest) = Returns (inl err).
Proof.
  intros Hdone Herr. induction Hdone as [|col' c cols sequences Hc _ IH]; simpl.
  - by rewrite Herr.
  - by rewrite Hc; simpl; rewrite IH.
Qed.

(** C6 (refuted as stated). A fresh, timestep-decomposable sample whose two
    chunk groups disagree on the element type of the column: the call does
    not succeed, it returns the error of the concatenation. *)
Example AsBatchedTimesteps_concat_error :
  exists s,
    Sample.new 7 0 1 0 [[vector DT_INT64 [1]]; [vector DT_DOUBLE [2]]] [false] = Returns s
    ∧ Sample.next_timestep_called_ s = false
    ∧ Sample.is_composed_of_timesteps s = Returns true
    ∧ Sample.AsBatchedTimesteps s
      = Returns (InvalidArgumentError
                   [Text "Cannot concatenate tensors that have different data types."],
                 None, Sample.set_chunks s []).
Proof. eexists. repeat split; reflexivity. Qed.

(** C6 (amended). On a sample that has not been iterated,
    [AsBatchedTimesteps] returns failed-precondition, writing nothing, when
    the trajectory is not timestep-decomposable.  When it is, and no chunk
    group has more tensors than the sample has columns: if the concatenation
    of every data column across the chunk groups succeeds, the call succeeds
    and its output is the key, probability, table size and priority, each as
    a vector of [num_timesteps_] copies, followed by the concatenated
    columns in order; and if the concatenation of column [i] is the first to
    fail, the call returns that error and writes nothing. *)
Theorem AsBatchedTimesteps_fresh :
  forall s,
    Sample.next_timestep_called_ s = false ->
    (Sample.is_composed_of_timesteps s = Returns false ->
     exists msg,
       Sample.AsBatchedTimesteps s = Returns (FailedPreconditionError msg, None, s))
    ∧ (Sample.is_composed_of_timesteps s = Returns true ->
       0 <= Sample.num_timesteps_ s ->
       Forall (fun group => length group ≤ Sample.num_data_tensors_ s)%nat
              (Sample.chunks_ s) ->
       let n := Sample.num_timesteps_ s in
       let copies v := replicate (Z.to_nat n) v in
       (forall sequences,
          Forall2 (fun i c => Concat (Sample.column (Sample.chunks_ s) i) = Returns (inr c))
                  (seq 0 (Sample.num_data_tensors_ s)) sequences ->
          Sample.AsBatchedTimesteps s
          = Returns (OkStatus,
                     Some ([mkTensor DT_UINT64 [n] (copies (Sample.key_ s));
                            mkTensor DT_DOUBLE [n] (copies (Sample.probability_ s));
                            mkTensor DT_INT64 [n] (copies (Sample.table_size_ s));
                            mkTensor DT_DOUBLE [n] (copies (Sample.priority_ s))]
                           ++ sequences),
                     Sample.set_chunks s []))
       ∧ (forall i err sequences,
            (i < Sample.num_data_tensors_ s)%nat ->
            Forall2 (fun j c => Concat (Sample.column (Sample.chunks_ s) j) = Returns (inr c))
                    (seq 0 i) sequences ->
            Concat (Sample.column (Sample.chunks_ s) i) = Returns (inl err) ->
            Sample.AsBatchedTimesteps s = Returns (err, None, Sample.set_chunks s []))).
Proof.
  intros s Hfresh. unfold Sample.AsBatchedTimesteps. rewrite Hfresh. split.
  - intros ->. simpl. by eexists.
  - intros -> Hn Hgroups. simpl.
    unfold InitializeTensor.
    destruct (Sample.num_timesteps_ s <? 0) eqn:Hneg; [lia|]. simpl.
    rewrite extract_chunks_columns by done. simpl. split.
    + intros sequences Hseq.
      rewrite (concat_all_returns _ sequences); [done|].
      by apply Forall2_fmap_l.
    + intros i err sequences Hi Hdone Herr.
      replace (seq 0 (Sample.num_data_tensors_ s))
        with (seq 0 i ++ i :: seq (S i) (Sample.num_data_tensors_ s - S i)).
      * rewrite fmap_app, fmap_cons.
        rewrite (concat_all_fails _ sequences _ err); [done | | done].
        by apply Forall2_fmap_l.
      * change (i :: seq (S i) (Sample.num_data_tensors_ s - S i))
          with (seq (0 + i) (S (Sample.num_data_tensors_ s - S i))).
        rewrite <- seq_app. f_equal. lia.
Qed.

(** A witness of [AsBatchedTimesteps_fresh]: two chunk groups of two and one
    timesteps are batched into vectors of length three. *)
Lemma AsBatchedTimesteps_fresh_witness :
  Sample.AsBatchedTimesteps
    (Sample.mk 7 11 5 13 3 1 [[vector DT_INT64 [10; 20]]; [vector DT_INT64 [30]]]
               [false] 0 false)
  = Returns (OkStatus,
             Some [vector DT_UINT64 [7; 7; 7]; vector DT_DOUBLE [11; 11; 11];
                   vector DT_INT64 [5; 5; 5]; vector DT_DOUBLE [13; 13; 13];
                   vector DT_INT64 [10; 20; 30]],
             Sample.mk 7 11 5 13 3 1 [] [false] 0 false).
Proof.
  apply (proj1 (proj2 (AsBatchedTimesteps_fresh
           (Sample.mk 7 11 5 13 3 1 [[vector DT_INT64 [10; 20]]; [vector DT_INT64 [30]]]
                      [false] 0 false)
           eq_refl) eq_refl ltac:(simpl; lia)
           ltac:(repeat constructor))
           [vector DT_INT64 [10; 20; 30]]).
  repeat constructor.
Defined.

(** ** Timestep-aligned materialisation *)

Lemma Slice_returns t start limit out :
  Slice t start limit = Returns out ->
  exists d rest,
    shape t = d :: rest ∧ 0 <= start ∧ start <= limit ∧ limit <= d
    ∧ shape out = (limit - start) :: rest.
Proof.
  unfold Slice. destruct (shape t) as [|d rest]; [done|].
  destruct (0 <=? start) eqn:H0; [|done].
  destruct (start <=? limit) eqn:H1; [|done].
  destruct (limit <=? d) eqn:H2; [|done].
  simpl. intros [= <-]. exists d, rest. simpl. repeat split; lia.
Qed.

Section AssemblyProperties.
Context `{TrajectoryUtil}.

(** The tensor loop of one response: on success every decoded tensor has the
    leading dimension that comes out as [batch_size], and was cut to
    [offset, min(offset + remaining, batch_size)). *)
Lemma convert_tensors_inv delta offset remaining protos :
  forall bs acc batches B,
    convert_tensors delta offset remaining protos bs acc = Returns (inr (batches, B)) ->
    (0 <= bs -> B = bs) ∧ (protos = [] -> B = bs)
    ∧ exists sliced,
        batches = reverse sliced ++ acc
        ∧ Forall2 (fun proto out =>
                     dim_size0 (decode_tensor delta proto) = Returns B
                     ∧ Slice (decode_tensor delta proto) offset
                             (Z.min (offset + remaining) B) = Returns out)
                  protos sliced.
Proof.
  induction protos as [|chunk protos IH]; intros bs acc batches B Hrun.
  - simpl in Hrun. injection Hrun as <- <-.
    split; [done|]. split; [done|]. exists []. split; [done | constructor].
  - cbn [convert_tensors] in Hrun.
    destruct (dim_size0 (decode_tensor delta chunk)) as [d| | |] eqn:Hd; try done.
    simpl in Hrun.
    destruct (negb (bs <? 0) && negb (bs =? d)) eqn:Hmis; [done|].
    set (bs' := if bs <? 0 then d else bs) in Hrun.
    destruct (Slice (decode_tensor delta chunk) offset (Z.min (offset + remaining) bs'))
      as [sliced| | |] eqn:Hslice; try done.
    simpl in Hrun.
    apply Slice_returns in Hslice as Hshape.
    destruct Hshape as (d0 & rest & Hsh & Hs0 & Hs1 & Hs2 & _).
    assert (0 <= bs') as Hbs' by lia.
    apply IH in Hrun as (HB & _ & sliced' & -> & Hall).
    specialize (HB Hbs'). subst B.
    assert (bs' = d) as Hbsd.
    { subst bs'. destruct (bs <? 0) eqn:Hneg; [done|].
      simpl in Hmis. apply negb_false_iff in Hmis. lia. }
    split; [|split; [done|]].
    + intros Hbs. subst bs'. destruct (bs <? 0) eqn:Hneg; [lia | done].
    + exists (sliced :: sliced'). split.
      * unfold DeepCopyIfUnaligned. by rewrite reverse_cons, <- app_assoc.
      * constructor; [|done]. split; [by rewrite Hbsd | done].
Qed.

Lemma convert_tensors_lengths delta offset remaining ts batches B :
  convert_tensors delta offset remaining (reverse ts) (-1) [] = Returns (inr (batches, B)) ->
  Forall2 (fun proto out =>
             dim_size0 (decode_tensor delta proto) = Returns B
             ∧ Slice (decode_tensor delta proto) offset
                     (Z.min (offset + remaining) B) = Returns out)
          ts batches.
Proof.
  intros Hrun. apply convert_tensors_inv in Hrun as (_ & _ & sliced & -> & Hall).
  rewrite app_nil_r. rewrite <- (reverse_involutive ts). by apply Forall2_reverse.
Qed.

(** The response loop: the groups it appends, and, when none of them is
    empty, their lengths and what is left of [remaining]. *)
Lemma unpack_responses_inv responses :
  forall offset remaining acc chunks remaining',
    unpack_responses responses offset remaining acc = Returns (inr (chunks, remaining')) ->
    exists groups,
      chunks = acc ++ groups
      ∧ (Forall (fun group => group ≠ []) groups ->
         exists lens,
           Forall2 (fun group len => Forall (fun t => dim_size0 t = Returns len) group)
                   groups lens
           ∧ remaining' = remaining - foldr Z.add 0 lens).
Proof.
  induction responses as [|response responses IH];
    intros offset remaining acc chunks remaining' Hrun.
  - simpl in Hrun. injection Hrun as <- <-. exists []. split; [by rewrite app_nil_r|].
    intros _. exists []. split; [constructor | simpl; lia].
  - cbn [unpack_responses] in Hrun.
    destruct (negb (0 <? remaining)); [done|].
    destruct (convert_tensors _ offset remaining _ (-1) [])
      as [[err | [batches B]]| | |] eqn:Hconv; try done.
    simpl in Hrun. apply IH in Hrun as (groups & -> & Hlens).
    exists (batches :: groups). split; [by rewrite <- app_assoc|].
    intros Hne. apply Forall_cons in Hne as [Hbatches Hne].
    destruct (Hlens Hne) as (lens & Hall & ->).
    apply convert_tensors_lengths in Hconv.
    exists (Z.min remaining (B - offset) :: lens). split; [|simpl; lia].
    constructor; [|done].
    apply Forall_forall. intros out Hout.
    apply list_elem_of_lookup in Hout as [i Hi].
    destruct (Forall2_lookup_r _ _ _ _ _ Hconv Hi) as (proto & _ & _ & Hslice).
    apply Slice_returns in Hslice as (d & rest & _ & _ & _ & _ & Hshape).
    unfold dim_size0. rewrite Hshape. f_equal. lia.
Qed.

Lemma sum_front_dims_inv chunks :
  forall acc n,
    Sample.sum_front_dims chunks acc = Returns n ->
    Forall (fun group => group ≠ []) chunks
    ∧ forall lens,
        Forall2 (fun group len => Forall (fun t => dim_size0 t = Returns len) group)
                chunks lens ->
        n = acc + foldr Z.add 0 lens.
Proof.
  induction chunks as [|group chunks IH]; intros acc n Hsum.
  - simpl in Hsum. injection Hsum as <-. split; [constructor|].
    intros lens Hall. apply Forall2_nil_inv_l in Hall as ->. simpl. lia.
  - cbn [Sample.sum_front_dims] in Hsum.
    destruct group as [|front group]; [done|].
    destruct (dim_size0 front) as [d| | |] eqn:Hd; try done. simpl in Hsum.
    apply IH in Hsum as [Hne Hlens]. split; [by constructor|].
    intros lens Hall. apply Forall2_cons_inv_l in Hall as (len & lens' & Hlen & Hall & ->).
    apply Forall_cons in Hlen as [Hfront _].
    rewrite (Hlens lens' Hall). simpl. assert (d = len) by congruence. lia.
Qed.

(** C7 (amended). In [TimestepTrajectoryAsSample], a response whose tensor
    loop ends with leading dimension [B] emits, for each of its tensors, the
    slice from [offset] to [min(offset + remaining, B)] of the decoded
    tensor, and the loop goes on with [offset = 0] and
    [remaining - min(remaining, B - offset)].  When the call returns a
    sample, [remaining] was 0 after the last response, the status is OK, the
    tensors of each emitted chunk group share one leading dimension, and
    these dimensions add up to the length declared by the trajectory, which
    is also the sample's [num_timesteps_]. *)
Theorem timestep_materialisation :
  (forall response rest offset remaining chunks batches B,
     0 < remaining ->
     convert_tensors (delta_encoded (data response)) offset remaining
                     (reverse (tensors (data response))) (-1) []
     = Returns (inr (batches, B)) ->
     Forall2 (fun proto out =>
                dim_size0 (decode_tensor (delta_encoded (data response)) proto) = Returns B
                ∧ Slice (decode_tensor (delta_encoded (data response)) proto) offset
                        (Z.min (offset + remaining) B) = Returns out)
             (tensors (data response)) batches
     ∧ unpack_responses (response :: rest) offset remaining chunks
       = unpack_responses rest 0 (remaining - Z.min remaining (B - offset))
                          (chunks ++ [batches]))
  ∧ (forall responses status sample,
       TimestepTrajectoryAsSample responses = Returns (status, Some sample) ->
       exists front lens,
         head responses = Some front
         ∧ status = OkStatus
         ∧ unpack_responses responses
             (TimestepTrajectoryOffset (flat_trajectory (info_item (info front))))
             (TimestepTrajectoryLength (flat_trajectory (info_item (info front)))) []
           = Returns (inr (Sample.chunks_ sample, 0))
         ∧ Forall2 (fun group len => Forall (fun t => dim_size0 t = Returns len) group)
                   (Sample.chunks_ sample) lens
         ∧ foldr Z.add 0 lens
           = TimestepTrajectoryLength (flat_trajectory (info_item (info front)))
         ∧ Sample.num_timesteps_ sample
           = TimestepTrajectoryLength (flat_trajectory (info_item (info front)))).
Proof.
  split.
  - intros response rest offset remaining chunks batches B Hpos Hconv. split.
    + by apply convert_tensors_lengths.
    + cbn [unpack_responses]. rewrite Hconv.
      by destruct (0 <? remaining) eqn:Hlt; [|lia].
  - intros responses status sample Hrun. unfold TimestepTrajectoryAsSample in Hrun.
    destruct responses as [|front responses]; [done|].
    set (traj := flat_trajectory (info_item (info front))) in *.
    destruct (unpack_responses (front :: responses) _ _ [])
      as [[err | [chunks remaining]]| | |] eqn:Hloop; try done.
    simpl in Hrun.
    destruct (remaining =? 0) eqn:Hrem; [|done]. simpl in Hrun.
    apply Z.eqb_eq in Hrem as ->.
    unfold Sample.new in Hrun.
    destruct chunks as [|group chunks]; [done|].
    case_bool_decide; [done|].
    destruct (Sample.sum_front_dims (group :: chunks) 0) as [n| | |] eqn:Hsum; try done.
    simpl in Hrun. injection Hrun as <- <-. simpl.
    apply sum_front_dims_inv in Hsum as [Hne Hn].
    apply unpack_responses_inv in Hloop as Hinv.
    destruct Hinv as (groups & Hgroups & Hlens). simpl in Hgroups. subst groups.
    destruct (Hlens Hne) as (lens & Hall & Hzero).
    exists front, lens. fold traj. repeat split; try done; [lia|].
    rewrite (Hn lens Hall). lia.
Qed.

End AssemblyProperties.

(** A witness of [timestep_materialisation]: a trajectory of two timesteps
    that starts at row 1 of chunk 7 and ends with row 0 of chunk 8. *)
Lemma timestep_materialisation_witness :
  exists front lens,
    head [mkResponse
            (Some (mkSampleInfo
                     (mkItem 5 0 (mkFlatTrajectory
                                    [mkColumn [mkChunkSlice 7 1 1 0; mkChunkSlice 8 0 1 0]
                                              false]))
                     0 1))
            (Some (mkChunkData 7 [mkTensorProto DT_INT64 [2] [10; 20]] false));
          mkResponse None
            (Some (mkChunkData 8 [mkTensorProto DT_INT64 [2] [30; 40]] false))]
    = Some front
    ∧ OkStatus = OkStatus
    ∧ @unpack_responses plain_util
        [mkResponse
           (Some (mkSampleInfo
                    (mkItem 5 0 (mkFlatTrajectory
                                   [mkColumn [mkChunkSlice 7 1 1 0; mkChunkSlice 8 0 1 0]
                                             false]))
                    0 1))
           (Some (mkChunkData 7 [mkTensorProto DT_INT64 [2] [10; 20]] false));
         mkResponse None
           (Some (mkChunkData 8 [mkTensorProto DT_INT64 [2] [30; 40]] false))]
        (@TimestepTrajectoryOffset plain_util (flat_trajectory (info_item (info front))))
        (@TimestepTrajectoryLength plain_util (flat_trajectory (info_item (info front))))
        []
      = Returns (inr (Sample.chunks_
                        (Sample.mk 5 0 1 0 2 1
                           [[vector DT_INT64 [20]]; [vector DT_INT64 [30]]] [false] 0 false),
                      0))
    ∧ Forall2 (fun group len => Forall (fun t => dim_size0 t = Returns len) group)
              (Sample.chunks_
                 (Sample.mk 5 0 1 0 2 1
                    [[vector DT_INT64 [20]]; [vector DT_INT64 [30]]] [false] 0 false))
              lens
    ∧ foldr Z.add 0 lens
      = @TimestepTrajectoryLength plain_util (flat_trajectory (info_item (info front)))
    ∧ Sample.num_timesteps_
        (Sample.mk 5 0 1 0 2 1
           [[vector DT_INT64 [20]]; [vector DT_INT64 [30]]] [false] 0 false)
      = @TimestepTrajectoryLength plain_util (flat_trajectory (info_item (info front))).
Proof.
  apply (proj2 (@timestep_materialisation plain_util)
           [mkResponse
              (Some (mkSampleInfo
                       (mkItem 5 0 (mkFlatTrajectory
                                      [mkColumn [mkChunkSlice 7 1 1 0; mkChunkSlice 8 0 1 0]
                                                false]))
                       0 1))
              (Some (mkChunkData 7 [mkTensorProto DT_INT64 [2] [10; 20]] false));
            mkResponse None
              (Some (mkChunkData 8 [mkTensorProto DT_INT64 [2] [30; 40]] false))]
           OkStatus
           (Sample.mk 5 0 1 0 2 1
              [[vector DT_INT64 [20]]; [vector DT_INT64 [30]]] [false] 0 false)).
  reflexivity.
Defined.

(** C7 (refuted as stated). A trajectory of offset 1 and length 1 in a chunk
    of three rows: after the response [remaining] is 0 and the call returns
    the one-row sample, whereas [remaining - (B - offset)] is -1. *)
Example remaining_is_clamped :
  @unpack_responses plain_util
    [mkResponse None (Some (mkChunkData 7 [mkTensorProto DT_INT64 [3] [10; 20; 30]] false))]
    1 1 []
  = Returns (inr ([[vector DT_INT64 [20]]], 0))
  ∧ @convert_tensors plain_util false 1 1 [mkTensorProto DT_INT64 [3] [10; 20; 30]] (-1) []
    = Returns (inr ([vector DT_INT64 [20]], 3))
  ∧ 1 - (3 - 1) = -1
  ∧ @TimestepTrajectoryAsSample plain_util
      [mkResponse
         (Some (mkSampleInfo
                  (mkItem 5 0 (mkFlatTrajectory [mkColumn [mkChunkSlice 7 1 1 0] false])) 0 1))
         (Some (mkChunkData 7 [mkTensorProto DT_INT64 [3] [10; 20; 30]] false))]
    = Returns (OkStatus,
               Some (Sample.mk 5 0 1 0 1 1 [[vector DT_INT64 [20]]] [false] 0 false)).
Proof. repeat split; reflexivity. Qed.

(** ** Chunk keys missing at unpack time *)

Section MissingChunk.
Context `{TrajectoryUtil}.

Lemma index_responses_lookup_None (responses : list SampleStreamResponse) key :
  (forall r, r ∈ responses -> chunk_key (data r) ≠ key) ->
  index_responses responses !! key = None.
Proof.
  unfold index_responses.
  assert (forall m : gmap Z (option ChunkData),
            m !! key = None ->
            (forall r, r ∈ responses -> chunk_key (data r) ≠ key) ->
            foldl (fun chunks response =>
                     <[chunk_key (data response) := opt_data response]> chunks)
                  m responses !! key = None) as Hgen.
  { induction responses as [|r responses IH]; intros m Hm Hall; simpl; [done|].
    apply IH.
    - rewrite lookup_insert_ne; [done|]. apply Hall. by left.
    - intros r' Hr'. apply Hall. by right. }
  intros Hall. by apply Hgen.
Qed.

Lemma index_chunks_lookup_None (chunks : list ChunkData) key :
  (forall c, c ∈ chunks -> chunk_key c ≠ key) ->
  index_chunks chunks !! key = None.
Proof.
  unfold index_chunks.
  assert (forall m : gmap Z ChunkData,
            m !! key = None ->
            (forall c, c ∈ chunks -> chunk_key c ≠ key) ->
            foldl (fun m chunk => <[chunk_key chunk := chunk]> m) m chunks !! key = None)
    as Hgen.
  { induction chunks as [|c chunks IH]; intros m Hm Hall; simpl; [done|].
    apply IH.
    - rewrite lookup_insert_ne; [done|]. apply Hall. by left.
    - intros c' Hc'. apply Hall. by right. }
  intros Hall. by apply Hgen.
Qed.

(** Remote path: the slices before the missing one unpack, then the lookup
    fails and the internal error is returned. *)
Lemma unpack_slices_missing chunks item before sl after :
  forall unpacked,
    unpack_slices chunks item before = Returns (inr unpacked) ->
    chunks !! slice_chunk_key sl = None ->
    unpack_slices chunks item (before ++ sl :: after)
    = Returns (inl (chunk_not_found (slice_chunk_key sl) item)).
Proof.
  induction before as [|sl0 before IH]; intros unpacked Hbefore Hmiss; simpl.
  - by rewrite Hmiss.
  - simpl in Hbefore.
    destruct (chunks !! slice_chunk_key sl0) as [[chunk|]|]; try done.
    destruct (UnpackChunkColumnAndSlice chunk sl0) as [st tensor].
    destruct (negb (ok st)); [done|].
    destruct (unpack_slices chunks item before) as [[err | unpacked']| | |] eqn:Hrest;
      try done.
    by rewrite (IH unpacked').
Qed.

Lemma unpack_columns_missing chunks item before col after sl :
  forall unpacked,
    unpack_columns chunks item before = Returns (inr unpacked) ->
    unpack_slices chunks item (chunk_slices col)
    = Returns (inl (chunk_not_found (slice_chunk_key sl) item)) ->
    unpack_columns chunks item (before ++ col :: after)
    = Returns (inl (chunk_not_found (slice_chunk_key sl) item)).
Proof.
  induction before as [|col0 before IH]; intros unpacked Hbefore Hmiss; simpl.
  - by rewrite Hmiss.
  - simpl in Hbefore.
    destruct (unpack_slices chunks item (chunk_slices col0)) as [[err | ts]| | |];
      try done.
    simpl in *. destruct (Concat ts) as [[err | c]| | |]; try done.
    simpl in *.
    destruct (unpack_columns chunks item before) as [[err | unpacked']| | |] eqn:Hrest;
      try done.
    by rewrite (IH unpacked').
Qed.

(** The remote general-trajectory path: a slice whose chunk key is the key of
    no response, reached after the columns and slices before it unpacked,
    makes [AsSample] return the internal error that names the chunk key and
    the item key; no sample is produced. *)
Lemma AsSample_missing_chunk front rest cols_before col cols_after
    slices_before sl slices_after unpacked_cols unpacked :
  let traj := flat_trajectory (info_item (info front)) in
  let item := item_key (info_item (info front)) in
  let chunks := index_responses (front :: rest) in
  IsTimestepTrajectory traj = false ->
  columns traj = cols_before ++ col :: cols_after ->
  chunk_slices col = slices_before ++ sl :: slices_after ->
  unpack_columns chunks item cols_before = Returns (inr unpacked_cols) ->
  unpack_slices chunks item slices_before = Returns (inr unpacked) ->
  (forall r, r ∈ front :: rest -> chunk_key (data r) ≠ slice_chunk_key sl) ->
  AsSample (front :: rest)
  = Returns (InternalError [Text "Chunk "; Num (slice_chunk_key sl);
                            Text " could not be found when unpacking item ";
                            Num item; Text "."], None).
Proof.
  intros traj item chunks Hgeneral Hcols Hslices Hdone_cols Hdone_slices Habsent.
  unfold AsSample. fold traj. rewrite Hgeneral. fold item chunks. rewrite Hcols.
  rewrite (unpack_columns_missing _ _ _ _ _ sl unpacked_cols); [done | done |].
  rewrite Hslices. apply (unpack_slices_missing _ _ _ _ _ unpacked); [done|].
  by apply index_responses_lookup_None.
Qed.

Lemma unpack_slices_local_missing chunks before sl after :
  forall unpacked,
    unpack_slices_local chunks before = Returns (inr unpacked) ->
    chunks !! slice_chunk_key sl = None ->
    unpack_slices_local chunks (before ++ sl :: after) = Undefined.
Proof.
  induction before as [|sl0 before IH]; intros unpacked Hbefore Hmiss; simpl.
  - by rewrite Hmiss.
  - simpl in Hbefore.
    destruct (chunks !! slice_chunk_key sl0) as [chunk|]; try done.
    destruct (UnpackChunkColumnAndSlice chunk sl0) as [st tensor].
    destruct (negb (ok st)); [done|].
    destruct (unpack_slices_local chunks before) as [[err | unpacked']| | |] eqn:Hrest;
      try done.
    by rewrite (IH unpacked').
Qed.

Lemma unpack_columns_local_missing chunks before col after :
  forall unpacked,
    unpack_columns_local chunks before = Returns (inr unpacked) ->
    unpack_slices_local chunks (chunk_slices col) = Undefined ->
    unpack_columns_local chunks (before ++ col :: after) = Undefined.
Proof.
  induction before as [|col0 before IH]; intros unpacked Hbefore Hmiss; simpl.
  - by rewrite Hmiss.
  - simpl in Hbefore.
    destruct (unpack_slices_local chunks (chunk_slices col0)) as [[err | ts]| | |];
      try done.
    simpl in *. destruct (Concat ts) as [[err | c]| | |]; try done.
    simpl in *.
    destruct (unpack_columns_local chunks before) as [[err | unpacked']| | |] eqn:Hrest;
      try done.
    by rewrite (IH unpacked').
Qed.

(** The local path in the same situation: the chunk map is indexed with the
    absent key and the null entry is dereferenced; no status is returned. *)
Lemma AsSampleLocal_missing_chunk item cols_before col cols_after
    slices_before sl slices_after unpacked_cols unpacked :
  let traj := flat_trajectory (sampled_item item) in
  let chunks := index_chunks (sampled_chunks item) in
  columns traj = cols_before ++ col :: cols_after ->
  chunk_slices col = slices_before ++ sl :: slices_after ->
  unpack_columns_local chunks cols_before = Returns (inr unpacked_cols) ->
  unpack_slices_local chunks slices_before = Returns (inr unpacked) ->
  (forall c, c ∈ sampled_chunks item -> chunk_key c ≠ slice_chunk_key sl) ->
  AsSampleLocal item = Undefined.
Proof.
  intros traj chunks Hcols Hslices Hdone_cols Hdone_slices Habsent.
  unfold AsSampleLocal. fold traj chunks. rewrite Hcols.
  rewrite (unpack_columns_local_missing _ _ _ _ unpacked_cols); [done | done |].
  rewrite Hslices. apply (unpack_slices_local_missing _ _ _ _ unpacked); [done|].
  by apply index_chunks_lookup_None.
Qed.

End MissingChunk.

(** C9 (the local path misses the check). An item of two columns whose first
    slice references chunk 7 while only chunk 8 is at hand: the remote path
    returns the internal error naming chunk 7 and item 5; the local path runs
    into the null entry of its chunk map, under every [TrajectoryUtil]. *)
Theorem missing_chunk_remote_and_local :
  @AsSample plain_util
    [mkResponse
       (Some (mkSampleInfo
                (mkItem 5 0 (mkFlatTrajectory [mkColumn [mkChunkSlice 7 0 1 0] false;
                                               mkColumn [mkChunkSlice 8 0 1 0] false]))
                0 1))
       (Some (mkChunkData 8 [mkTensorProto DT_INT64 [1] [10]] false))]
  = Returns (InternalError [Text "Chunk "; Num 7;
                            Text " could not be found when unpacking item ";
                            Num 5; Text "."], None)
  ∧ forall util : TrajectoryUtil,
      @AsSampleLocal util
        (mkSampledItem
           (mkItem 5 0 (mkFlatTrajectory [mkColumn [mkChunkSlice 7 0 1 0] false;
                                          mkColumn [mkChunkSlice 8 0 1 0] false]))
           0 1 [mkChunkData 8 [mkTensorProto DT_INT64 [1] [10]] false])
      = Undefined.
Proof.
  split; [reflexivity|]. intros util.
  eapply (AsSampleLocal_missing_chunk _ [] _ _ [] (mkChunkSlice 7 0 1 0));
    [reflexivity | reflexivity | reflexivity | reflexivity |].
  intros c Hc. apply list_elem_of_singleton in Hc as ->. done.
Qed.

(** ** What FetchSamples reports *)

Lemma push_sample_counted sample p accepted p' :
  push_sample sample p = Returns (accepted, p') -> counted p -> counted p'.
Proof.
  unfold push_sample, counted. destruct (push_answers p) as [|[] answers]; try done.
  - intros [= <- <-] Hp. simpl. rewrite length_app. simpl. lia.
  - intros [= <- <-] Hp. done.
Qed.

Lemma finish_fetch_counted num_samples p :
  counted p ->
  (fetched_result (finish_fetch num_samples p)).1
  = Z.of_nat (length (fetched_pushed (finish_fetch num_samples p))).
Proof. unfold finish_fetch, counted. by destruct (negb _). Qed.

Section WorkerProperties.
Context `{TrajectoryUtil}.

Lemma fetch_request_counted count finish :
  forall incoming p p' r,
    fetch_request count finish incoming p = Returns (p', r) -> counted p -> counted p'.
Proof.
  induction count as [|count IH]; intros incoming p p' r Hrun Hp.
  - simpl in Hrun. by simplify_eq.
  - cbn [fetch_request] in Hrun.
    destruct (read_sample incoming []) as [[responses|] incoming'];
      [|by simplify_eq].
    destruct (AsSample responses) as [[status sample]| | |]; try done.
    simpl in Hrun. destruct (negb (ok status)); [by simplify_eq|].
    destruct sample as [sample|]; [|done].
    destruct (push_sample sample p) as [[accepted p1]| | |] eqn:Hpush; try done.
    simpl in Hrun. apply push_sample_counted in Hpush; [|done].
    destruct (negb accepted); [by simplify_eq|]. by eapply IH.
Qed.

Lemma fetch_stream_counted samples_per_request num_samples finish writable :
  forall incoming p f,
    fetch_stream samples_per_request num_samples writable finish incoming p = Returns f ->
    counted p ->
    (fetched_result f).1 = Z.of_nat (length (fetched_pushed f)).
Proof.
  induction writable as [|writable IH]; intros incoming p f Hrun Hp;
    cbn [fetch_stream] in Hrun;
    (destruct (num_samples_returned p <? num_samples);
     [|injection Hrun as <-; by apply finish_fetch_counted]).
  - by injection Hrun as <-.
  - destruct (fetch_request _ finish incoming p) as [[p' r]| | |] eqn:Hreq; try done.
    simpl in Hrun. apply fetch_request_counted in Hreq; [|done].
    destruct r as [status | incoming']; [by injection Hrun as <-|]. by eapply IH.
Qed.

(** The remote worker: the count in the pair [FetchSamples] returns is the
    number of samples it pushed during the call. *)
Lemma GrpcFetchSamples_counts samples_per_request closed stream answers num_samples f :
  GrpcFetchSamples samples_per_request closed stream answers num_samples = Returns f ->
  (fetched_result f).1 = Z.of_nat (length (fetched_pushed f)).
Proof.
  unfold GrpcFetchSamples. destruct closed; [by intros [= <-]|].
  intros Hrun. by eapply fetch_stream_counted.
Qed.

Lemma push_items_counted items :
  forall p p' r, push_items items p = Returns (p', r) -> counted p -> counted p'.
Proof.
  induction items as [|item items IH]; intros p p' r Hrun Hp.
  - simpl in Hrun. by simplify_eq.
  - cbn [push_items] in Hrun.
    destruct (AsSampleLocal item) as [[status sample]| | |]; try done.
    simpl in Hrun. destruct (negb (ok status)); [by simplify_eq|].
    destruct sample as [sample|]; [|done].
    destruct (push_sample sample p) as [[accepted p1]| | |] eqn:Hpush; try done.
    simpl in Hrun. apply push_sample_counted in Hpush; [|done].
    destruct (negb accepted); [by simplify_eq|]. by eapply IH.
Qed.

(** The local worker: the same, except on the return taken when [closed_] is
    seen at the top of the loop, which reports 0 whatever was pushed. *)
Lemma LocalFetchSamples_counts flexible_batch_size rounds answers num_samples f :
  LocalFetchSamples flexible_batch_size rounds answers num_samples = Returns f ->
  (fetched_result f).1 = Z.of_nat (length (fetched_pushed f))
  ∨ fetched_result f = (0, CancelledError [Text "`Close` called on Sampler."]).
Proof.
  unfold LocalFetchSamples.
  assert (counted (mkProgress [] 0 answers)) as Hp by done.
  revert Hp. generalize (mkProgress [] 0 answers). revert f.
  induction rounds as [|round rounds IH]; intros f p Hp Hrun;
    cbn [fetch_local] in Hrun;
    (destruct (num_samples_returned p <? num_samples);
     [|injection Hrun as <-; left; by apply finish_fetch_counted]); [done|].
  destruct (closed_seen round); [injection Hrun as <-; by right|].
  destruct (SampleFlexibleBatch round _) as [status items].
  destruct (IsDeadlineExceeded status && before_final_deadline round); [by eapply IH|].
  destruct (negb (ok status)); [injection Hrun as <-; by left|].
  destruct (push_items items p) as [[p' r]| | |] eqn:Hpush; try done.
  simpl in Hrun. apply push_items_counted in Hpush; [|done].
  destruct r as [status'|]; [injection Hrun as <-; by left | by eapply IH].
Qed.

End WorkerProperties.

(** ** The Sampler: popping *)

(** C1. With the queue closed and empty, [PopNextSample] returns, in this
    order of precedence, out-of-range when [returned_ == max_samples_],
    cancelled when the sampler is closed, and otherwise [worker_status_];
    it stores no sample and changes nothing.  Whenever that status is an
    error, [GetNextSample], [GetNextTrajectory] and (when it has to pop)
    [GetNextTimestep] return it to the caller unchanged. *)
Theorem pop_status_priority :
  forall s,
    Queue.items (Sampler.samples_ s) = [] ->
    Queue.closed (Sampler.samples_ s) = true ->
    exists status,
      Sampler.PopNextSample s = Returns (status, None, s)
      ∧ (Sampler.returned_ s = Sampler.max_samples_ s ->
         status = OutOfRangeError [Text "`max_samples` already returned."])
      ∧ (Sampler.returned_ s ≠ Sampler.max_samples_ s -> Sampler.closed_ s = true ->
         status = CancelledError [Text "Sampler has been cancelled."])
      ∧ (Sampler.returned_ s ≠ Sampler.max_samples_ s -> Sampler.closed_ s = false ->
         status = Sampler.worker_status_ s)
      ∧ (ok status = false ->
         Sampler.GetNextSample s = Returns (status, None, s)
         ∧ Sampler.GetNextTrajectory s = Returns (status, None, s)
         ∧ (Sampler.needs_next_sample s = true ->
            Sampler.GetNextTimestep s = Returns (status, None, None, s))).
Proof.
  intros s Hempty Hclosed.
  assert (Queue.Pop (Sampler.samples_ s) = Returns (None, Sampler.samples_ s)) as Hpop.
  { unfold Queue.Pop. by rewrite Hempty, Hclosed. }
  assert (forall status,
            Sampler.PopNextSample s = Returns (status, None, s) ->
            ok status = false ->
            Sampler.GetNextSample s = Returns (status, None, s)
            ∧ Sampler.GetNextTrajectory s = Returns (status, None, s)
            ∧ (Sampler.needs_next_sample s = true ->
               Sampler.GetNextTimestep s = Returns (status, None, None, s))) as Hcallers.
  { intros status Hstatus Herr.
    unfold Sampler.GetNextSample, Sampler.GetNextTrajectory, Sampler.get_next,
      Sampler.GetNextTimestep, Sampler.MaybeSampleNext.
    rewrite Hstatus. simpl. rewrite Herr. simpl. repeat split.
    intros ->. simpl. by rewrite Herr. }
  unfold Sampler.PopNextSample in *. rewrite Hpop in *. simpl in *.
  destruct (Sampler.returned_ s =? Sampler.max_samples_ s) eqn:Hmax.
  - eexists. split; [done|]. split; [done|].
    split; [intros; lia|]. split; [intros; lia|]. by apply Hcallers.
  - destruct (Sampler.closed_ s) eqn:Hc.
    + eexists. split; [done|]. split; [intros; lia|].
      split; [done|]. split; [done|]. by apply Hcallers.
    + eexists. split; [done|]. split; [intros; lia|].
      split; [done|]. split; [done|]. by apply Hcallers.
Qed.

(** A witness of [pop_status_priority]: a sampler closed before anything was
    returned. *)
Lemma pop_status_priority_witness :
  exists status,
    Sampler.PopNextSample (Sampler.Close (Sampler.new "table" 3 3 1 None))
    = Returns (status, None, Sampler.Close (Sampler.new "table" 3 3 1 None))
    ∧ status = CancelledError [Text "Sampler has been cancelled."]
    ∧ Sampler.GetNextSample (Sampler.Close (Sampler.new "table" 3 3 1 None))
      = Returns (status, None, Sampler.Close (Sampler.new "table" 3 3 1 None)).
Proof.
  destruct (pop_status_priority (Sampler.Close (Sampler.new "table" 3 3 1 None))
              eq_refl eq_refl) as (status & Hpop & _ & Hcancelled & _ & Hcallers).
  exists status. split; [done|].
  assert (status = CancelledError [Text "Sampler has been cancelled."]) as ->
    by (apply Hcancelled; [simpl; lia | done]).
  split; [done|]. by apply Hcallers.
Defined.

(** ** The Sampler: what the consumer calls leave alone *)

Ltac solve_frame :=
  unfold Sampler.consumer_frame, Sampler.count_returned in *; simpl;
  repeat match goal with
         | |- context [if ?b then _ else _] => destruct b; simpl
         end;
  destruct_and?; repeat split; congruence.

Lemma consumer_frame_refl s : Sampler.consumer_frame s s.
Proof. solve_frame. Qed.

Lemma count_returned_frame s : Sampler.consumer_frame s (Sampler.count_returned s).
Proof. solve_frame. Qed.

Lemma PopNextSample_frame s status popped s' :
  Sampler.PopNextSample s = Returns (status, popped, s') -> Sampler.consumer_frame s s'.
Proof.
  unfold Sampler.PopNextSample. intros Hpop.
  repeat exec_case Hpop; simplify_eq; solve_frame.
Qed.

Lemma get_next_frame materialise mode s status data s' :
  Sampler.get_next materialise mode s = Returns (status, data, s') ->
  Sampler.consumer_frame s s'.
Proof.
  unfold Sampler.get_next. intros Hcall.
  destruct (Sampler.PopNextSample s) as [[[st popped] s1]| | |] eqn:Hpop; try done.
  apply PopNextSample_frame in Hpop. simpl in Hcall.
  repeat exec_case Hcall; simplify_eq; solve_frame.
Qed.

Lemma GetNextTimestep_frame s status data eos s' :
  Sampler.GetNextTimestep s = Returns (status, data, eos, s') ->
  Sampler.consumer_frame s s'.
Proof.
  unfold Sampler.GetNextTimestep, Sampler.MaybeSampleNext. intros Hcall.
  destruct (negb (Sampler.needs_next_sample s)); simpl in Hcall.
  - repeat exec_case Hcall; simplify_eq; solve_frame.
  - destruct (Sampler.PopNextSample s) as [[[st popped] s1]| | |] eqn:Hpop; try done.
    apply PopNextSample_frame in Hpop. simpl in Hcall.
    destruct popped as [sample|]; simpl in Hcall;
      repeat exec_case Hcall; simplify_eq; solve_frame.
Qed.

(** ** The Sampler: the sticky worker status *)

Lemma step_keeps_error s s' :
  Sampler.step s s' ->
  ok (Sampler.worker_status_ s) = false ->
  Sampler.worker_status_ s' = Sampler.worker_status_ s.
Proof.
  intros Hstep Herr. destruct Hstep as
    [s n s' Hres | s sample q Hpush | s n result
     | s status out eos s' Hcall | s status out s' Hcall | s status out s' Hcall | s].
  - unfold Sampler.reserve in Hres. repeat exec_case Hres; by simplify_eq.
  - done.
  - unfold Sampler.report. simpl. by rewrite Herr.
  - by apply GetNextTimestep_frame in Hcall as (_ & _ & _ & _ & _ & ? & _).
  - by apply get_next_frame in Hcall as (_ & _ & _ & _ & _ & ? & _).
  - by apply get_next_frame in Hcall as (_ & _ & _ & _ & _ & ? & _).
  - unfold Sampler.Close. by destruct (Sampler.closed_ s).
Qed.

Lemma steps_keep_error s s' :
  rtc Sampler.step s s' ->
  ok (Sampler.worker_status_ s) = false ->
  Sampler.worker_status_ s' = Sampler.worker_status_ s.
Proof.
  induction 1 as [s | s1 s2 s3 Hstep _ IH]; [done|].
  intros Herr. pose proof (step_keeps_error _ _ Hstep Herr) as Heq.
  rewrite IH; [done | by rewrite Heq].
Qed.

(** C3. In the block of [RunWorker] that follows [FetchSamples]: an
    unavailable status leaves [worker_status_] and the queue as they are and
    the loop goes on; any other error, met while [worker_status_] is OK,
    becomes [worker_status_], closes the queue and ends the thread; and once
    [worker_status_] is an error, no action of any thread on the sampler
    changes it. *)
Theorem worker_status_is_sticky :
  forall s samples_to_stream produced status,
    (IsUnavailable status = true ->
     Sampler.worker_status_ (Sampler.report samples_to_stream (produced, status) s).1
     = Sampler.worker_status_ s
     ∧ Sampler.samples_ (Sampler.report samples_to_stream (produced, status) s).1
       = Sampler.samples_ s
     ∧ (Sampler.report samples_to_stream (produced, status) s).2 = false)
    ∧ (ok (Sampler.worker_status_ s) = true ->
       ok status = false -> IsUnavailable status = false ->
       Sampler.worker_status_ (Sampler.report samples_to_stream (produced, status) s).1
       = status
       ∧ Queue.closed
           (Sampler.samples_ (Sampler.report samples_to_stream (produced, status) s).1)
         = true
       ∧ (Sampler.report samples_to_stream (produced, status) s).2 = true)
    ∧ (forall s',
         ok (Sampler.worker_status_ s) = false ->
         rtc Sampler.step s s' ->
         Sampler.worker_status_ s' = Sampler.worker_status_ s).
Proof.
  intros s samples_to_stream produced status. unfold Sampler.report. simpl.
  split; [|split].
  - intros ->. by rewrite andb_false_r.
  - by intros -> -> ->.
  - intros s' Herr Hsteps. by apply steps_keep_error.
Qed.

(** A witness of [worker_status_is_sticky]: an unavailable stream, then an
    internal error, then a close and a later unavailable stream. *)
Lemma worker_status_is_sticky_witness :
  Sampler.worker_status_
    (Sampler.report 2 (0, mkStatus kUnavailable []) (Sampler.new "table" 5 2 1 None)).1
  = OkStatus
  ∧ Sampler.worker_status_
      (Sampler.report 2 (1, InternalError [Text "broken"])
                      (Sampler.new "table" 5 2 1 None)).1
    = InternalError [Text "broken"]
  ∧ Sampler.worker_status_
      (Sampler.report 2 (0, mkStatus kDeadlineExceeded [])
         (Sampler.Close
            (Sampler.report 2 (1, InternalError [Text "broken"])
                            (Sampler.new "table" 5 2 1 None)).1)).1
    = InternalError [Text "broken"].
Proof.
  split; [|split].
  - apply (proj1 (worker_status_is_sticky (Sampler.new "table" 5 2 1 None) 2 0
                    (mkStatus kUnavailable []))). reflexivity.
  - apply (proj1 (proj2 (worker_status_is_sticky (Sampler.new "table" 5 2 1 None) 2 1
                           (InternalError [Text "broken"])))); reflexivity.
  - apply (proj2 (proj2 (worker_status_is_sticky
             (Sampler.report 2 (1, InternalError [Text "broken"])
                             (Sampler.new "table" 5 2 1 None)).1 2 1 OkStatus)));
      [reflexivity|].
    eapply rtc_l; [apply Sampler.step_close|].
    eapply rtc_l; [apply (Sampler.step_report _ 2 (0, mkStatus kDeadlineExceeded []))|].
    apply rtc_refl.
Defined.

(** ** The Sampler: output validation *)

Lemma validate_from_code table sig mode entries :
  forall i,
    ok (Sampler.validate_from table sig mode i entries) = false ->
    code (Sampler.validate_from table sig mode i entries) = kInvalidArgument.
Proof.
  induction entries as [|[tensor spec] entries IH]; intros i; simpl; [done|].
  repeat match goal with
         | |- context [if ?b then _ else _] => destruct b; simpl; try done
         end.
  apply IH.
Qed.

Lemma ValidateAgainstOutputSpec_code s data mode :
  ok (Sampler.ValidateAgainstOutputSpec s data mode) = false ->
  code (Sampler.ValidateAgainstOutputSpec s data mode) = kInvalidArgument.
Proof.
  unfold Sampler.ValidateAgainstOutputSpec.
  destruct (Sampler.dtypes_and_shapes_ s) as [sig|]; [|done].
  case_bool_decide; [done|]. apply validate_from_code.
Qed.

Lemma Pop_keeps_closed {A} (q q' : Queue.t A) popped :
  Queue.Pop q = Returns (popped, q') -> Queue.closed q' = Queue.closed q.
Proof.
  unfold Queue.Pop. destruct (Queue.items q); [|by intros [= <- <-]].
  destruct (Queue.closed q) eqn:Hclosed; [by intros [= <- <-] | done].
Qed.

Lemma get_next_validation_failure materialise mode s sample q data sample' :
  Queue.Pop (Sampler.samples_ s) = Returns (Some sample, q) ->
  materialise sample = Returns (OkStatus, Some data, sample') ->
  ok (Sampler.ValidateAgainstOutputSpec s data mode) = false ->
  Sampler.get_next materialise mode s
  = Returns (Sampler.ValidateAgainstOutputSpec s data mode, Some data,
             Sampler.set_samples s q).
Proof.
  intros Hpop Hmat Hfail.
  unfold Sampler.get_next, Sampler.PopNextSample.
  rewrite Hpop. simpl. rewrite Hmat. simpl.
  change (Sampler.ValidateAgainstOutputSpec (Sampler.set_samples s q) data mode)
    with (Sampler.ValidateAgainstOutputSpec s data mode).
  by rewrite Hfail.
Qed.

(** C10 (refuted as stated). A sampler for one sample, which a worker has
    delivered, with a signature the sample does not match: [GetNextSample]
    returns invalid-argument, but not without a change of state.  The output
    has been written and the sample has left the queue and is lost;
    [returned_] is still 0 and [requested_] is 1 of 1, so the worker waits
    for a quota that never comes and the next [GetNextSample] waits for a
    sample that never comes. *)
Example validation_failure_drops_sample :
  exists status data s',
    Sampler.GetNextSample
      (Sampler.mk "table" 1 1 None
         (Queue.mk [Sample.mk 7 0 1 0 2 1
                      [[mkTensor DT_INT64 [2; 5] [1; 2; 3; 4; 5; 6; 7; 8; 9; 10]]]
                      [false] 0 false] 1 false)
         (Some [mkTensorSpec "key" DT_UINT64 (Some []);
                mkTensorSpec "probability" DT_DOUBLE (Some []);
                mkTensorSpec "table_size" DT_INT64 (Some []);
                mkTensorSpec "priority" DT_DOUBLE (Some []);
                mkTensorSpec "observation" DT_INT64 (Some [4])])
         1 0 OkStatus false)
    = Returns (status, Some data, s')
    ∧ code status = kInvalidArgument
    ∧ length data = 5%nat
    ∧ Queue.items (Sampler.samples_ s') = []
    ∧ Sampler.returned_ s' = 0
    ∧ Sampler.requested_ s' = 1
    ∧ Sampler.reserve s' = Blocks
    ∧ Sampler.GetNextSample s' = Blocks.
Proof. do 3 eexists. repeat split; reflexivity. Qed.

(** C10 (amended). When [GetNextSample] or [GetNextTrajectory] has popped a
    sample and materialised it, and the output fails validation against the
    signature, the call returns the validator's invalid-argument error with
    the output written; [returned_] is not incremented, the queue is not
    closed by the call, and [requested_], [worker_status_] and [closed_] are
    as before.  The sampler after the call differs from the one before in
    that the popped sample has left the queue. *)
Theorem validation_failure_counts_nothing :
  forall s sample q,
    Queue.Pop (Sampler.samples_ s) = Returns (Some sample, q) ->
    (forall data sample',
       Sample.AsBatchedTimesteps sample = Returns (OkStatus, Some data, sample') ->
       ok (Sampler.ValidateAgainstOutputSpec s data kBatchedTimestep) = false ->
       exists status,
         Sampler.GetNextSample s = Returns (status, Some data, Sampler.set_samples s q)
         ∧ status = Sampler.ValidateAgainstOutputSpec s data kBatchedTimestep
         ∧ code status = kInvalidArgument)
    ∧ (forall data sample',
         Sample.AsTrajectory sample = Returns (OkStatus, Some data, sample') ->
         ok (Sampler.ValidateAgainstOutputSpec s data kTrajectory) = false ->
         exists status,
           Sampler.GetNextTrajectory s = Returns (status, Some data, Sampler.set_samples s q)
           ∧ status = Sampler.ValidateAgainstOutputSpec s data kTrajectory
           ∧ code status = kInvalidArgument)
    ∧ Sampler.returned_ (Sampler.set_samples s q) = Sampler.returned_ s
    ∧ Queue.closed (Sampler.samples_ (Sampler.set_samples s q))
      = Queue.closed (Sampler.samples_ s)
    ∧ Sampler.requested_ (Sampler.set_samples s q) = Sampler.requested_ s
    ∧ Sampler.worker_status_ (Sampler.set_samples s q) = Sampler.worker_status_ s
    ∧ Sampler.closed_ (Sampler.set_samples s q) = Sampler.closed_ s
    ∧ Sampler.active_sample_ (Sampler.set_samples s q) = Sampler.active_sample_ s.
Proof.
  intros s sample q Hpop. split; [|split].
  - intros data sample' Hmat Hfail. eexists. split.
    + unfold Sampler.GetNextSample. by eapply get_next_validation_failure.
    + split; [done | by apply ValidateAgainstOutputSpec_code].
  - intros data sample' Hmat Hfail. eexists. split.
    + unfold Sampler.GetNextTrajectory. by eapply get_next_validation_failure.
    + split; [done | by apply ValidateAgainstOutputSpec_code].
  - simpl. repeat split. by eapply Pop_keeps_closed.
Qed.

(** A witness of [validation_failure_counts_nothing]: the signature asks for
    rows of four values at flattened index 4, the sample has rows of five. *)
Lemma validation_failure_witness :
  exists status,
    Sampler.GetNextSample
      (Sampler.mk "table" 3 3 None
         (Queue.mk [Sample.mk 7 0 1 0 2 1
                      [[mkTensor DT_INT64 [2; 5] [1; 2; 3; 4; 5; 6; 7; 8; 9; 10]]]
                      [false] 0 false] 1 false)
         (Some [mkTensorSpec "key" DT_UINT64 (Some []);
                mkTensorSpec "probability" DT_DOUBLE (Some []);
                mkTensorSpec "table_size" DT_INT64 (Some []);
                mkTensorSpec "priority" DT_DOUBLE (Some []);
                mkTensorSpec "observation" DT_INT64 (Some [4])])
         1 0 OkStatus false)
    = Returns (status,
               Some [vector DT_UINT64 [7; 7]; vector DT_DOUBLE [0; 0];
                     vector DT_INT64 [1; 1]; vector DT_DOUBLE [0; 0];
                     mkTensor DT_INT64 [2; 5] [1; 2; 3; 4; 5; 6; 7; 8; 9; 10]],
               Sampler.mk "table" 3 3 None (Queue.mk [] 1 false)
                 (Some [mkTensorSpec "key" DT_UINT64 (Some []);
                        mkTensorSpec "probability" DT_DOUBLE (Some []);
                        mkTensorSpec "table_size" DT_INT64 (Some []);
                        mkTensorSpec "priority" DT_DOUBLE (Some []);
                        mkTensorSpec "observation" DT_INT64 (Some [4])])
                 1 0 OkStatus false)
    ∧ code status = kInvalidArgument
    ∧ Num 4 ∈ message status
    ∧ Text "table" ∈ message status.
Proof.
  edestruct (proj1 (validation_failure_counts_nothing
                      (Sampler.mk "table" 3 3 None
                         (Queue.mk [Sample.mk 7 0 1 0 2 1
                                      [[mkTensor DT_INT64 [2; 5]
                                                 [1; 2; 3; 4; 5; 6; 7; 8; 9; 10]]]
                                      [false] 0 false] 1 false)
                         (Some [mkTensorSpec "key" DT_UINT64 (Some []);
                                mkTensorSpec "probability" DT_DOUBLE (Some []);
                                mkTensorSpec "table_size" DT_INT64 (Some []);
                                mkTensorSpec "priority" DT_DOUBLE (Some []);
                                mkTensorSpec "observation" DT_INT64 (Some [4])])
                         1 0 OkStatus false)
                      _ _ eq_refl))
    as (status & Hcall & Hstatus & Hcode); [reflexivity | reflexivity |].
  exists status. split; [exact Hcall|]. split; [exact Hcode|].
  subst status. split.
  - apply list_elem_of_In. vm_compute. tauto.
  - apply list_elem_of_In. vm_compute. tauto.
Defined.

(** ** The local worker's count after cancellation *)

(** One iteration of the worker loop around a [FetchSamples] call whose
    count is the number of samples it pushed: [requested_] grows by exactly
    the number of samples that entered the queue. *)
Lemma worker_iteration_balance s samples_to_stream s1 samples status :
  Sampler.reserve s = Returns (Some samples_to_stream, s1) ->
  let s2 := (Sampler.report samples_to_stream (Z.of_nat (length samples), status)
                            (Sampler.deliver samples s1)).1 in
  Sampler.requested_ s2 = Sampler.requested_ s + Z.of_nat (length samples)
  ∧ Queue.items (Sampler.samples_ s2) = Queue.items (Sampler.samples_ s) ++ samples
  ∧ Sampler.returned_ s2 = Sampler.returned_ s.
Proof.
  unfold Sampler.reserve. intros Hres.
  destruct (Sampler.should_stop_workers s); [done|].
  destruct (Sampler.requested_ s <? Sampler.max_samples_ s); [|done].
  injection Hres as <- <-. unfold Sampler.report. simpl.
  destruct (ok (Sampler.worker_status_ s) && negb (ok status) && negb (IsUnavailable status));
    simpl; repeat split; lia.
Qed.

(** C2 (the local worker misreports). A quota of two with a flexible batch
    size of one: the table yields one item, the sample is pushed, then
    [closed_] is seen at the top of the loop.  [FetchSamples] reports 0
    although it pushed one sample, the worker loop takes the whole quota of
    two back, and [requested_ - returned_] is 0 with one sample in the queue
    and nothing in flight. *)
Theorem local_worker_cancel_miscount :
  exists sample s1 s2,
    @LocalFetchSamples plain_util 1
      [mkRound false
         (fun _ => (OkStatus,
                    [mkSampledItem
                       (mkItem 5 0 (mkFlatTrajectory [mkColumn [mkChunkSlice 8 0 1 0] false]))
                       0 1 [mkChunkData 8 [mkTensorProto DT_INT64 [1] [10]] false]]))
         true;
       mkRound true (fun _ => (OkStatus, [])) true]
      [true] 2
    = Returns (mkFetched [sample]
                 (0, CancelledError [Text "`Close` called on Sampler."]))
    ∧ Sampler.reserve (Sampler.new "table" 2 2 1 None) = Returns (Some 2, s1)
    ∧ Sampler.report 2 (0, CancelledError [Text "`Close` called on Sampler."])
                     (Sampler.Close (Sampler.deliver [sample] s1))
      = (s2, true)
    ∧ Sampler.requested_ s2 - Sampler.returned_ s2 = 0
    ∧ length (Queue.items (Sampler.samples_ s2)) = 1%nat.
Proof. do 3 eexists. repeat split; reflexivity. Qed.

(** * Further properties of the code *)

(** ** Options *)

Section OptionsProperties.
Context `{SamplerConstants}.

(** X1. [Options::Validate] returns OK exactly when every field is in its
    range: [max_samples] and [max_samples_per_stream] at least 1 or the
    unlimited sentinel, [num_workers] and [flexible_batch_size] at least 1
    or the auto-select sentinel, [max_in_flight_samples_per_worker] at least
    1, and a non-negative timeout; any other answer is invalid-argument. *)
Theorem Validate_ok_iff :
  forall o,
    (Validate o = OkStatus
     ↔ (1 <= max_samples o ∨ max_samples o = kUnlimitedMaxSamples)
       ∧ 1 <= max_in_flight_samples_per_worker o
       ∧ (1 <= num_workers o ∨ num_workers o = kAutoSelectValue)
       ∧ (1 <= max_samples_per_stream o ∨ max_samples_per_stream o = kUnlimitedMaxSamples)
       ∧ 0 <= rate_limiter_timeout o
       ∧ (1 <= flexible_batch_size o ∨ flexible_batch_size o = kAutoSelectValue))
    ∧ (Validate o = OkStatus ∨ code (Validate o) = kInvalidArgument).
Proof.
  intros o. unfold Validate.
  destruct (max_samples o <? 1) eqn:H1, (max_samples o =? kUnlimitedMaxSamples) eqn:H1';
    simpl; try (split; [split; [done | intros; exfalso; lia] | by right]);
  (destruct (max_in_flight_samples_per_worker o <? 1) eqn:H2;
   [split; [split; [done | intros; exfalso; lia] | by right]|]);
  (destruct (num_workers o <? 1) eqn:H3, (num_workers o =? kAutoSelectValue) eqn:H3';
   simpl; try (split; [split; [done | intros; exfalso; lia] | by right]));
  (destruct (max_samples_per_stream o <? 1) eqn:H4,
            (max_samples_per_stream o =? kUnlimitedMaxSamples) eqn:H4';
   simpl; try (split; [split; [done | intros; exfalso; lia] | by right]));
  (destruct (rate_limiter_timeout o <? 0) eqn:H5;
   [split; [split; [done | intros; exfalso; lia] | by right]|]);
  (destruct (flexible_batch_size o <? 1) eqn:H6,
            (flexible_batch_size o =? kAutoSelectValue) eqn:H6';
   simpl; try (split; [split; [done | intros; exfalso; lia] | by right]));
  (split; [split; [intros _; lia | done] | by left]).
Qed.

(** X2. Options that [Validate] accepts pass every [REVERB_CHECK] of the
    [Sampler] constructor: it returns a sampler with no sample requested or
    returned, an OK worker status, an open empty queue of capacity
    [max(num_workers, 1)], and [max_samples_] at least 1. *)
Theorem validated_options_construct :
  forall table o dtypes_and_shapes,
    Validate o = OkStatus ->
    exists s,
      construct table o dtypes_and_shapes = Returns s
      ∧ 1 <= Sampler.max_samples_ s
      ∧ Sampler.requested_ s = 0 ∧ Sampler.returned_ s = 0
      ∧ Sampler.worker_status_ s = OkStatus ∧ Sampler.closed_ s = false
      ∧ Sampler.active_sample_ s = None
      ∧ Queue.items (Sampler.samples_ s) = []
      ∧ Queue.closed (Sampler.samples_ s) = false
      ∧ Queue.capacity (Sampler.samples_ s) = Z.to_nat (Z.max (num_workers o) 1).
Proof.
  intros table o sig Hvalid.
  apply Validate_ok_iff in Hvalid as (Hmax & Hflight & Hworkers & _ & _ & Hbatch).
  unfold construct, resolved_max_samples, INT64_MAX.
  assert ((0 <? (if max_samples o =? kUnlimitedMaxSamples then 2 ^ 63 - 1
                 else max_samples o)) = true) as ->.
  { destruct (max_samples o =? kUnlimitedMaxSamples) eqn:Hu; lia. }
  assert ((0 <? max_in_flight_samples_per_worker o) = true) as -> by lia.
  assert ((num_workers o =? kAutoSelectValue) || (0 <? num_workers o) = true) as ->.
  { destruct Hworkers as [?| ->]; [apply orb_true_iff; right; lia|].
    by rewrite Z.eqb_refl. }
  assert ((flexible_batch_size o =? kAutoSelectValue) || (0 <? flexible_batch_size o) = true)
    as ->.
  { destruct Hbatch as [?| ->]; [apply orb_true_iff; right; lia|].
    by rewrite Z.eqb_refl. }
  simpl. eexists. split; [done|]. simpl. repeat split.
  destruct (max_samples o =? kUnlimitedMaxSamples) eqn:Hu; lia.
Qed.

(** X3. For options that [Validate] accepts, with a default worker count of
    at least 1, [GetNumWorkers] yields between 1 and the configured number
    of workers, and more than one worker only if each of them can be given
    [max_in_flight_samples_per_worker] samples out of [max_samples]. *)
Theorem GetNumWorkers_bounds :
  forall o,
    Validate o = OkStatus ->
    1 <= kDefaultNumWorkers ->
    exists n,
      GetNumWorkers o = Returns n
      ∧ 1 <= n ∧ n <= resolved_num_workers o
      ∧ (1 < n -> n * max_in_flight_samples_per_worker o <= resolved_max_samples o).
Proof.
  intros o Hvalid Hdefault.
  apply Validate_ok_iff in Hvalid as (Hmax & Hflight & Hworkers & _).
  unfold GetNumWorkers.
  destruct (max_in_flight_samples_per_worker o =? 0) eqn:Hz; [lia|].
  destruct (max_in_flight_samples_per_worker o =? -1) eqn:Hneg; [lia|].
  rewrite andb_false_r.
  eexists. split; [done|].
  assert (1 <= resolved_num_workers o) as Hw.
  { unfold resolved_num_workers.
    destruct (num_workers o =? kAutoSelectValue) eqn:Hauto; lia. }
  assert (1 <= resolved_max_samples o) as Hm.
  { unfold resolved_max_samples, INT64_MAX.
    destruct (max_samples o =? kUnlimitedMaxSamples) eqn:Hu; lia. }
  set (w := resolved_num_workers o) in *. set (m := resolved_max_samples o) in *.
  set (f := max_in_flight_samples_per_worker o) in *.
  rewrite Z.quot_div_nonneg by lia.
  split; [lia|]. split; [lia|]. intros Hmany.
  assert (f * (m / f) <= m) by (apply Z.mul_div_le; lia).
  nia.
Qed.

(** X4. For options that [Validate] accepts and a table whose default
    flexible batch size is at least 1, both batch sizes fitting an [int],
    the batch size [MakeLocalWorkers] gives its workers passes the worker's
    check: it is at least 1 and at most [max_in_flight_samples_per_worker]. *)
Theorem local_flexible_batch_size_bounds :
  forall default_flexible_batch_size o,
    Validate o = OkStatus ->
    1 <= default_flexible_batch_size < 2 ^ 31 ->
    flexible_batch_size o < 2 ^ 31 ->
    exists b,
      local_flexible_batch_size default_flexible_batch_size o = Returns b
      ∧ 1 <= b ∧ b <= max_in_flight_samples_per_worker o.
Proof.
  intros d o Hvalid Hd Hint.
  apply Validate_ok_iff in Hvalid as (_ & Hflight & _ & _ & _ & Hbatch).
  unfold local_flexible_batch_size.
  assert (forall z, 1 <= z < 2 ^ 31 -> to_int z = z) as Hfits.
  { intros z Hz. unfold to_int. rewrite Z.mod_small; lia. }
  destruct (flexible_batch_size o =? kAutoSelectValue) eqn:Hauto.
  - rewrite (Hfits d Hd).
    destruct (Z.min d (max_in_flight_samples_per_worker o) <? 1) eqn:Hlt; [lia|].
    eexists. split; [done|]. lia.
  - rewrite (Hfits (flexible_batch_size o)) by lia.
    destruct (Z.min (flexible_batch_size o) (max_in_flight_samples_per_worker o) <? 1)
      eqn:Hlt; [lia|].
    eexists. split; [done|]. lia.
Qed.

End OptionsProperties.

(** Witnesses of X2, X3 and X4: a hundred samples, ten in flight per worker. *)
Lemma validated_options_construct_witness :
  exists s,
    @construct plain_constants "table" (mkOptions 100 10 4 (-1) 0 (-1)) None = Returns s
    ∧ 1 <= Sampler.max_samples_ s
    ∧ Sampler.requested_ s = 0 ∧ Sampler.returned_ s = 0
    ∧ Sampler.worker_status_ s = OkStatus ∧ Sampler.closed_ s = false
    ∧ Sampler.active_sample_ s = None
    ∧ Queue.items (Sampler.samples_ s) = []
    ∧ Queue.closed (Sampler.samples_ s) = false
    ∧ Queue.capacity (Sampler.samples_ s) = Z.to_nat (Z.max 4 1).
Proof.
  apply (@validated_options_construct plain_constants "table"
           (mkOptions 100 10 4 (-1) 0 (-1)) None).
  reflexivity.
Defined.

Lemma GetNumWorkers_bounds_witness :
  exists n,
    @GetNumWorkers plain_constants (mkOptions 100 10 40 (-1) 0 (-1)) = Returns n
    ∧ 1 <= n ∧ n <= 40 ∧ (1 < n -> n * 10 <= 100).
Proof.
  apply (@GetNumWorkers_bounds plain_constants (mkOptions 100 10 40 (-1) 0 (-1)));
    [reflexivity | simpl; lia].
Defined.

Lemma local_flexible_batch_size_bounds_witness :
  exists b,
    @local_flexible_batch_size plain_constants 64 (mkOptions 100 10 4 (-1) 0 (-1))
    = Returns b
    ∧ 1 <= b ∧ b <= 10.
Proof.
  apply (@local_flexible_batch_size_bounds plain_constants 64
           (mkOptions 100 10 4 (-1) 0 (-1))); [reflexivity | lia | simpl; lia].
Defined.

(** ** The Sampler: what a consumer call counts *)

Lemma PopNextSample_queue s status popped s' :
  Sampler.PopNextSample s = Returns (status, popped, s') ->
  Sampler.returned_ s' = Sampler.returned_ s
  ∧ Queue.closed (Sampler.samples_ s') = Queue.closed (Sampler.samples_ s)
  ∧ Sampler.active_sample_ s' = Sampler.active_sample_ s.
Proof.
  unfold Sampler.PopNextSample. intros Hpop.
  destruct (Queue.Pop (Sampler.samples_ s)) as [[p q]| | |] eqn:HPop; try done.
  apply Pop_keeps_closed in HPop. simpl in Hpop.
  destruct p as [sample|]; [by simplify_eq/=|].
  repeat exec_case Hpop; by simplify_eq/=.
Qed.

Lemma count_returned_counts s :
  Sampler.returned_ (Sampler.count_returned s) = Sampler.returned_ s + 1
  ∧ Queue.closed (Sampler.samples_ (Sampler.count_returned s))
    = Queue.closed (Sampler.samples_ s)
      || (Sampler.returned_ s + 1 =? Sampler.max_samples_ s)
  ∧ Queue.items (Sampler.samples_ (Sampler.count_returned s))
    = Queue.items (Sampler.samples_ s)
  ∧ Sampler.active_sample_ (Sampler.count_returned s) = Sampler.active_sample_ s.
Proof.
  unfold Sampler.count_returned. simpl.
  destruct (Sampler.returned_ s + 1 =? Sampler.max_samples_ s); simpl;
    repeat split; by rewrite ?orb_true_r, ?orb_false_r.
Qed.

(** X5. A [GetNextTimestep], [GetNextSample] or [GetNextTrajectory] call
    that returns an error counts nothing: [returned_] is as before and the
    call has not closed the queue. *)
Theorem failed_call_counts_nothing :
  forall s status,
    ok status = false ->
    (forall data s',
       Sampler.GetNextSample s = Returns (status, data, s') ->
       Sampler.returned_ s' = Sampler.returned_ s
       ∧ Queue.closed (Sampler.samples_ s') = Queue.closed (Sampler.samples_ s))
    ∧ (forall data s',
         Sampler.GetNextTrajectory s = Returns (status, data, s') ->
         Sampler.returned_ s' = Sampler.returned_ s
         ∧ Queue.closed (Sampler.samples_ s') = Queue.closed (Sampler.samples_ s))
    ∧ (forall data eos s',
         Sampler.GetNextTimestep s = Returns (status, data, eos, s') ->
         Sampler.returned_ s' = Sampler.returned_ s
         ∧ Queue.closed (Sampler.samples_ s') = Queue.closed (Sampler.samples_ s)
         ∧ eos = None).
Proof.
  intros s status Herr.
  assert (forall materialise mode data s',
            Sampler.get_next materialise mode s = Returns (status, data, s') ->
            Sampler.returned_ s' = Sampler.returned_ s
            ∧ Queue.closed (Sampler.samples_ s') = Queue.closed (Sampler.samples_ s))
    as Hget.
  { intros materialise mode data s'. unfold Sampler.get_next. intros Hcall.
    destruct (Sampler.PopNextSample s) as [[[st popped] s1]| | |] eqn:Hpop; try done.
    apply PopNextSample_queue in Hpop as (Hr & Hc & _). simpl in Hcall.
    repeat exec_case Hcall; simplify_eq/=; try done. }
  split; [apply Hget|]. split; [apply Hget|].
  intros data eos s'. unfold Sampler.GetNextTimestep, Sampler.MaybeSampleNext.
  intros Hcall. destruct (negb (Sampler.needs_next_sample s)); simpl in Hcall.
  - repeat exec_case Hcall; simplify_eq/=; try done.
  - destruct (Sampler.PopNextSample s) as [[[st popped] s1]| | |] eqn:Hpop; try done.
    apply PopNextSample_queue in Hpop as (Hr & Hc & _). simpl in Hcall.
    destruct popped as [sample|]; simpl in Hcall;
      repeat exec_case Hcall; simplify_eq/=; try done.
Qed.

(** A witness of [failed_call_counts_nothing]: a call on a sampler that was
    closed with an empty queue. *)
Lemma failed_call_counts_nothing_witness :
  Sampler.returned_ (Sampler.Close (Sampler.new "table" 3 3 1 None)) = 0
  ∧ Queue.closed (Sampler.samples_ (Sampler.Close (Sampler.new "table" 3 3 1 None)))
    = true.
Proof.
  apply (proj1 (failed_call_counts_nothing
                  (Sampler.Close (Sampler.new "table" 3 3 1 None))
                  (CancelledError [Text "Sampler has been cancelled."]) eq_refl)
           None (Sampler.Close (Sampler.new "table" 3 3 1 None))).
  reflexivity.
Defined.

(** X6. A [GetNextSample] or [GetNextTrajectory] call that returns OK has
    popped one sample, written the output, incremented [returned_] by one,
    and closed the queue exactly when [returned_] thereby reached
    [max_samples_] (a queue closed before stays closed). *)
Theorem successful_call_counts_one :
  forall s status data s',
    ok status = true ->
    Sampler.GetNextSample s = Returns (status, data, s')
    ∨ Sampler.GetNextTrajectory s = Returns (status, data, s') ->
    status = OkStatus
    ∧ is_Some data
    ∧ Sampler.returned_ s' = Sampler.returned_ s + 1
    ∧ Queue.closed (Sampler.samples_ s')
      = Queue.closed (Sampler.samples_ s)
        || (Sampler.returned_ s + 1 =? Sampler.max_samples_ s)
    ∧ exists sample q,
        Queue.Pop (Sampler.samples_ s) = Returns (Some sample, q)
        ∧ Queue.items (Sampler.samples_ s') = Queue.items q.
Proof.
  intros s status data s' Hok Hcall.
  assert (exists materialise mode,
            Sampler.get_next materialise mode s = Returns (status, data, s'))
    as (materialise & mode & Hget) by (destruct Hcall; eauto).
  clear Hcall. unfold Sampler.get_next, Sampler.PopNextSample in Hget.
  destruct (Queue.Pop (Sampler.samples_ s)) as [[popped q]| | |] eqn:Hpop; try done.
  pose proof (Pop_keeps_closed _ _ _ Hpop) as Hclosed. simpl in Hget.
  destruct popped as [sample|]; simpl in Hget.
  - repeat exec_case Hget; simplify_eq/=; try done;
      try (match goal with Hneg : negb (ok _) = true |- _ => by rewrite Hok in Hneg end).
    pose proof (count_returned_counts (Sampler.set_samples s q))
      as (Hr & Hc & Hi & _). simpl in *.
    rewrite Hr, Hc, Hi, Hclosed. repeat split; eauto.
  - destruct (Sampler.returned_ s =? Sampler.max_samples_ s); simpl in Hget;
      [simplify_eq; by vm_compute in Hok|].
    destruct (Sampler.closed_ s); simpl in Hget; [simplify_eq; by vm_compute in Hok|].
    destruct (negb (ok (Sampler.worker_status_ s))) eqn:Hws; simpl in Hget; [|done].
    simplify_eq. by rewrite Hok in Hws.
Qed.


(** A witness of [successful_call_counts_one]: the only sample of a sampler
    for one sample is fetched, and the queue is closed. *)
Lemma successful_call_counts_one_witness :
  OkStatus = OkStatus
  ∧ is_Some (Some [vector DT_UINT64 [7; 7]; vector DT_DOUBLE [0; 0];
                   vector DT_INT64 [1; 1]; vector DT_DOUBLE [0; 0];
                   vector DT_INT64 [10; 20]])
  ∧ Sampler.returned_
      (Sampler.mk "table" 1 1 None (Queue.mk [] 1 true) None 1 1 OkStatus false)
    = Sampler.returned_ one_sample_sampler + 1
  ∧ Queue.closed
      (Sampler.samples_
         (Sampler.mk "table" 1 1 None (Queue.mk [] 1 true) None 1 1 OkStatus false))
    = Queue.closed (Sampler.samples_ one_sample_sampler)
      || (Sampler.returned_ one_sample_sampler + 1
          =? Sampler.max_samples_ one_sample_sampler)
  ∧ exists sample q,
      Queue.Pop (Sampler.samples_ one_sample_sampler) = Returns (Some sample, q)
      ∧ Queue.items
          (Sampler.samples_
             (Sampler.mk "table" 1 1 None (Queue.mk [] 1 true) None 1 1 OkStatus false))
        = Queue.items q.
Proof.
  apply (successful_call_counts_one one_sample_sampler OkStatus
           (Some [vector DT_UINT64 [7; 7]; vector DT_DOUBLE [0; 0];
                  vector DT_INT64 [1; 1]; vector DT_DOUBLE [0; 0];
                  vector DT_INT64 [10; 20]])
           (Sampler.mk "table" 1 1 None (Queue.mk [] 1 true) None 1 1 OkStatus false)
           eq_refl).
  left. reflexivity.
Defined.


(** ** The worker loop *)

(** X8. When [RunWorker] reserves a quota, the sampler is not stopping and,
    for a [max_samples_per_stream_] of at least 1, the quota is at least 1
    and at most [max_samples_per_stream_], [requested_] grows by the quota
    and stays within [max_samples_], and nothing else changes. *)
Theorem reserve_bounds :
  forall s samples_to_stream s',
    1 <= Sampler.max_samples_per_stream_ s ->
    Sampler.reserve s = Returns (Some samples_to_stream, s') ->
    Sampler.should_stop_workers s = false
    ∧ 1 <= samples_to_stream
    ∧ samples_to_stream <= Sampler.max_samples_per_stream_ s
    ∧ Sampler.requested_ s' = Sampler.requested_ s + samples_to_stream
    ∧ Sampler.requested_ s' <= Sampler.max_samples_ s
    ∧ s' = Sampler.set_requested s (Sampler.requested_ s')
    ∧ Sampler.should_stop_workers s' = false.
Proof.
  intros s n s' Hstream. unfold Sampler.reserve.
  destruct (Sampler.should_stop_workers s) eqn:Hstop; [done|].
  destruct (Sampler.requested_ s <? Sampler.max_samples_ s) eqn:Hlt; [|done].
  intros [= <- <-]. simpl. repeat split; try lia. exact Hstop.
Qed.

Lemma reserve_bounds_witness :
  Sampler.should_stop_workers (Sampler.new "table" 5 2 1 None) = false
  ∧ 1 <= 2 ∧ 2 <= Sampler.max_samples_per_stream_ (Sampler.new "table" 5 2 1 None)
  ∧ Sampler.requested_ (Sampler.set_requested (Sampler.new "table" 5 2 1 None) 2)
    = Sampler.requested_ (Sampler.new "table" 5 2 1 None) + 2
  ∧ Sampler.requested_ (Sampler.set_requested (Sampler.new "table" 5 2 1 None) 2)
    <= Sampler.max_samples_ (Sampler.new "table" 5 2 1 None)
  ∧ Sampler.set_requested (Sampler.new "table" 5 2 1 None) 2
    = Sampler.set_requested (Sampler.new "table" 5 2 1 None)
        (Sampler.requested_ (Sampler.set_requested (Sampler.new "table" 5 2 1 None) 2))
  ∧ Sampler.should_stop_workers (Sampler.set_requested (Sampler.new "table" 5 2 1 None) 2)
    = false.
Proof.
  apply (reserve_bounds (Sampler.new "table" 5 2 1 None) 2
           (Sampler.set_requested (Sampler.new "table" 5 2 1 None) 2));
    [simpl; lia | reflexivity].
Defined.

Lemma get_next_queue_closed materialise mode s status data s' :
  Sampler.get_next materialise mode s = Returns (status, data, s') ->
  Queue.closed (Sampler.samples_ s) = true ->
  Queue.closed (Sampler.samples_ s') = true.
Proof.
  unfold Sampler.get_next. intros Hcall Hq.
  destruct (Sampler.PopNextSample s) as [[[st popped] s1]| | |] eqn:Hpop; try done.
  apply PopNextSample_queue in Hpop as (_ & Hq1 & _). rewrite Hq in Hq1.
  simpl in Hcall.
  repeat exec_case Hcall; simplify_eq; try done.
  rewrite (proj1 (proj2 (count_returned_counts _))). by rewrite Hq1.
Qed.

Lemma GetNextTimestep_queue_closed s status data eos s' :
  Sampler.GetNextTimestep s = Returns (status, data, eos, s') ->
  Queue.closed (Sampler.samples_ s) = true ->
  Queue.closed (Sampler.samples_ s') = true.
Proof.
  unfold Sampler.GetNextTimestep, Sampler.MaybeSampleNext. intros Hcall Hq.
  assert (forall s1, Queue.closed (Sampler.samples_ s1) = true ->
                     Queue.closed (Sampler.samples_ (Sampler.count_returned s1)) = true)
    as Hcount.
  { intros s1 Hq1. rewrite (proj1 (proj2 (count_returned_counts _))). by rewrite Hq1. }
  destruct (negb (Sampler.needs_next_sample s)); simpl in Hcall.
  - repeat exec_case Hcall; simplify_eq; try done. by apply Hcount.
  - destruct (Sampler.PopNextSample s) as [[[st popped] s1]| | |] eqn:Hpop; try done.
    apply PopNextSample_queue in Hpop as (_ & Hq1 & _). rewrite Hq in Hq1.
    simpl in Hcall.
    destruct popped as [sample|]; simpl in Hcall;
      repeat exec_case Hcall; simplify_eq; try done; by apply Hcount.
Qed.

Lemma step_keeps_closed s s' :
  Sampler.step s s' ->
  (Sampler.closed_ s = true -> Sampler.closed_ s' = true)
  ∧ (Queue.closed (Sampler.samples_ s) = true ->
     Queue.closed (Sampler.samples_ s') = true).
Proof.
  intros Hstep. destruct Hstep as
    [s n s' Hres | s sample q Hpush | s n result
     | s status out eos s' Hcall | s status out s' Hcall | s status out s' Hcall | s].
  - unfold Sampler.reserve in Hres. repeat exec_case Hres; by simplify_eq.
  - split; [done|]. intros Hq. unfold Queue.Push in Hpush. by rewrite Hq in Hpush.
  - unfold Sampler.report. simpl. by destruct (_ && _ && _).
  - split; [|by eapply GetNextTimestep_queue_closed].
    apply GetNextTimestep_frame in Hcall as (_ & _ & _ & _ & _ & _ & ->). done.
  - split; [|by eapply get_next_queue_closed].
    apply get_next_frame in Hcall as (_ & _ & _ & _ & _ & _ & ->). done.
  - split; [|by eapply get_next_queue_closed].
    apply get_next_frame in Hcall as (_ & _ & _ & _ & _ & _ & ->). done.
  - unfold Sampler.Close. by destruct (Sampler.closed_ s) eqn:Hc.
Qed.

Lemma steps_keep_closed s s' :
  rtc Sampler.step s s' ->
  (Sampler.closed_ s = true -> Sampler.closed_ s' = true)
  ∧ (Queue.closed (Sampler.samples_ s) = true ->
     Queue.closed (Sampler.samples_ s') = true).
Proof.
  induction 1 as [s | s1 s2 s3 Hstep _ [IHc IHq]]; [done|].
  apply step_keeps_closed in Hstep as [Hc Hq]. split; auto.
Qed.

Lemma closed_reserve s :
  Sampler.closed_ s = true -> Sampler.reserve s = Returns (None, s).
Proof.
  intros Hc. unfold Sampler.reserve, Sampler.should_stop_workers. by rewrite Hc.
Qed.

(** X9. A [Close()] call is final, whatever the worker threads and the
    consumer do while it runs and while it joins the workers.  The sampler it
    returns with is closed; a second [Close()] returns at once and leaves it
    as it is; every worker that comes to reserve a quota returns instead;
    and, when the call found the sampler open, the queue is closed and a pop
    on the emptied queue is answered with out-of-range if [max_samples_] have
    been returned and with cancelled otherwise, never with [worker_status_].
    All of this still holds after any further actions on the sampler. *)
Theorem Close_is_final :
  forall s s',
    Close_call s s' ->
    Sampler.closed_ s' = true
    ∧ (forall s'', Close_call s' s'' -> s'' = s')
    ∧ (forall later,
         rtc Sampler.step s' later ->
         Sampler.closed_ later = true
         ∧ Sampler.reserve later = Returns (None, later)
         ∧ (Sampler.closed_ s = false ->
            Queue.closed (Sampler.samples_ later) = true
            ∧ (Queue.items (Sampler.samples_ later) = [] ->
               Sampler.PopNextSample later
               = Returns (if Sampler.returned_ later =? Sampler.max_samples_ later
                          then OutOfRangeError [Text "`max_samples` already returned."]
                          else CancelledError [Text "Sampler has been cancelled."],
                          None, later)))).
Proof.
  intros s s' Hcall.
  assert (Sampler.closed_ s' = true
          ∧ (Sampler.closed_ s = false -> Queue.closed (Sampler.samples_ s') = true))
    as [Hclosed Hqueue].
  { destruct Hcall as [s Hc | s s1 s2 Hc Hfirst Hjoin].
    - split; [done|]. by rewrite Hc.
    - apply steps_keep_closed in Hfirst as [Hc1 _].
      apply steps_keep_closed in Hjoin as [Hc2 Hq2]. split; [|intros _]; auto. }
  split; [done|]. split.
  - intros s'' Hagain. destruct Hagain as [s' _ | s' s1 s2 Hopen _ _]; [done|].
    by rewrite Hclosed in Hopen.
  - intros later Hlater. apply steps_keep_closed in Hlater as [Hc Hq].
    split; [auto|]. split; [by apply closed_reserve; auto|].
    intros Hopen. split; [auto|]. intros Hitems.
    unfold Sampler.PopNextSample, Queue.Pop. rewrite Hitems, (Hq (Hqueue Hopen)). simpl.
    destruct (Sampler.returned_ later =? Sampler.max_samples_ later); [done|].
    by rewrite (Hc Hclosed).
Qed.

(** A witness of [Close_is_final]: [Close()] is called while a worker holds
    a quota of two; the join waits for the worker, whose [FetchSamples]
    comes back with 0 and cancelled, so that [worker_status_] is cancelled
    and the quota is given back when the call returns. *)
Lemma Close_is_final_witness :
  Sampler.closed_
    (Sampler.mk "table" 5 2 None (Queue.mk [] 1 true) None 0 0
                (CancelledError [Text "`Close` called on Sampler."]) true)
  = true
  ∧ Sampler.reserve
      (Sampler.mk "table" 5 2 None (Queue.mk [] 1 true) None 0 0
                  (CancelledError [Text "`Close` called on Sampler."]) true)
    = Returns (None,
               Sampler.mk "table" 5 2 None (Queue.mk [] 1 true) None 0 0
                          (CancelledError [Text "`Close` called on Sampler."]) true)
  ∧ Sampler.PopNextSample
      (Sampler.mk "table" 5 2 None (Queue.mk [] 1 true) None 0 0
                  (CancelledError [Text "`Close` called on Sampler."]) true)
    = Returns (CancelledError [Text "Sampler has been cancelled."], None,
               Sampler.mk "table" 5 2 None (Queue.mk [] 1 true) None 0 0
                          (CancelledError [Text "`Close` called on Sampler."]) true).
Proof.
  assert (Close_call
            (Sampler.mk "table" 5 2 None (Queue.mk [] 1 false) None 2 0 OkStatus false)
            (Sampler.mk "table" 5 2 None (Queue.mk [] 1 true) None 0 0
                        (CancelledError [Text "`Close` called on Sampler."]) true))
    as Hcall.
  { eapply Close_call_run; [reflexivity | apply rtc_refl |].
    apply rtc_once.
    exact (Sampler.step_report
             (Sampler.mk "table" 5 2 None (Queue.mk [] 1 true) None 2 0 OkStatus true)
             2 (0, CancelledError [Text "`Close` called on Sampler."])). }
  destruct (Close_is_final _ _ Hcall) as (Hclosed & _ & Hlater).
  destruct (Hlater _ (rtc_refl _ _)) as (_ & Hreserve & Hopen).
  destruct (Hopen eq_refl) as (_ & Hpop).
  split; [exact Hclosed|]. split; [exact Hreserve|]. exact (Hpop eq_refl).
Defined.

(** X10. One iteration of the [RunWorker] loop whose [FetchSamples] call
    reports the number of samples it pushed leaves [requested_] larger by
    exactly that number, whatever the quota and the status were: the quota
    reserved before the call is given back except for the samples that
    entered the queue, and [returned_] is not touched. *)
Theorem worker_quota_balance s samples_to_stream s1 samples status :
  Sampler.reserve s = Returns (Some samples_to_stream, s1) ->
  let s2 := (Sampler.report samples_to_stream (Z.of_nat (length samples), status)
                            (Sampler.deliver samples s1)).1 in
  Sampler.requested_ s2 = Sampler.requested_ s + Z.of_nat (length samples)
  ∧ Queue.items (Sampler.samples_ s2) = Queue.items (Sampler.samples_ s) ++ samples
  ∧ Sampler.returned_ s2 = Sampler.returned_ s.
Proof. exact (worker_iteration_balance s samples_to_stream s1 samples status). Qed.

(** A witness of [worker_quota_balance]: a stream that breaks after one of
    two samples. *)
Lemma worker_quota_balance_witness :
  Sampler.requested_
    (Sampler.report 2 (Z.of_nat (length [two_step_sample]), mkStatus kUnavailable [])
       (Sampler.deliver [two_step_sample]
          (Sampler.set_requested (Sampler.new "table" 5 2 1 None) 2))).1
  = Sampler.requested_ (Sampler.new "table" 5 2 1 None)
    + Z.of_nat (length [two_step_sample])
  ∧ Queue.items
      (Sampler.samples_
         (Sampler.report 2 (Z.of_nat (length [two_step_sample]), mkStatus kUnavailable [])
            (Sampler.deliver [two_step_sample]
               (Sampler.set_requested (Sampler.new "table" 5 2 1 None) 2))).1)
    = Queue.items (Sampler.samples_ (Sampler.new "table" 5 2 1 None)) ++ [two_step_sample]
  ∧ Sampler.returned_
      (Sampler.report 2 (Z.of_nat (length [two_step_sample]), mkStatus kUnavailable [])
         (Sampler.deliver [two_step_sample]
            (Sampler.set_requested (Sampler.new "table" 5 2 1 None) 2))).1
    = Sampler.returned_ (Sampler.new "table" 5 2 1 None).
Proof.
  apply (worker_quota_balance (Sampler.new "table" 5 2 1 None) 2
           (Sampler.set_requested (Sampler.new "table" 5 2 1 None) 2)
           [two_step_sample] (mkStatus kUnavailable [])).
  reflexivity.
Defined.

(** ** Timestep iteration through the Sampler *)

(** X11. [GetNextTimestep] does not get past a sample that cannot be
    decomposed into timesteps: with such a sample active and not exhausted,
    the call returns invalid-argument and leaves the sampler as it is, so
    every later [GetNextTimestep] does the same. *)
Theorem non_decomposable_sample_stays_active :
  forall s active,
    Sampler.active_sample_ s = Some active ->
    Sample.is_end_of_sample active = false ->
    Sample.is_composed_of_timesteps active = Returns false ->
    Sampler.GetNextTimestep s
    = Returns (InvalidArgumentError
                 [Text "Sampled trajectory cannot be decomposed into timesteps."],
               None, None, s).
Proof.
  intros s active Hactive Hend Hcomposed.
  unfold Sampler.GetNextTimestep, Sampler.MaybeSampleNext, Sampler.needs_next_sample.
  rewrite Hactive, Hend. simpl. rewrite Hactive, Hcomposed. done.
Qed.

Lemma non_decomposable_sample_witness :
  Sampler.GetNextTimestep
    (Sampler.mk "table" 3 3
       (Some (Sample.mk 7 0 1 0 2 2
                [[vector DT_INT64 [10; 20]; vector DT_INT64 [1; 2; 3]]]
                [false; false] 0 false))
       (Queue.mk [] 1 false) None 1 0 OkStatus false)
  = Returns (InvalidArgumentError
               [Text "Sampled trajectory cannot be decomposed into timesteps."],
             None, None,
             Sampler.mk "table" 3 3
               (Some (Sample.mk 7 0 1 0 2 2
                        [[vector DT_INT64 [10; 20]; vector DT_INT64 [1; 2; 3]]]
                        [false; false] 0 false))
               (Queue.mk [] 1 false) None 1 0 OkStatus false).
Proof.
  apply (non_decomposable_sample_stays_active
           (Sampler.mk "table" 3 3
              (Some (Sample.mk 7 0 1 0 2 2
                       [[vector DT_INT64 [10; 20]; vector DT_INT64 [1; 2; 3]]]
                       [false; false] 0 false))
              (Queue.mk [] 1 false) None 1 0 OkStatus false)
           (Sample.mk 7 0 1 0 2 2
              [[vector DT_INT64 [10; 20]; vector DT_INT64 [1; 2; 3]]]
              [false; false] 0 false)); reflexivity.
Defined.

(** ** The output validator *)

Lemma validate_from_ok_iff table sig mode entries :
  forall i,
    ok (Sampler.validate_from table sig mode i entries) = true
    ↔ Forall (fun '(tensor, spec) => matches_spec mode tensor spec) entries.
Proof.
  induction entries as [|[tensor spec] entries IH]; intros i; simpl.
  - split; [constructor | done].
  - rewrite Forall_cons, <- (IH (i + 1)). unfold matches_spec.
    destruct mode; simpl.
    + case_bool_decide as Hdt; simpl.
      * split; [done | by intros [[? _] _]].
      * destruct (IsCompatibleWith (spec_shape spec) (shape tensor)); simpl;
          [tauto | split; [done | by intros [[_ ?] _]]].
    + case_bool_decide as Hsh; simpl.
      * split; [done | by intros [(_ & ? & _) _]].
      * case_bool_decide as Hdt; simpl.
        -- split; [done | by intros [[? _] _]].
        -- destruct (IsCompatibleWith (spec_shape spec) (tail (shape tensor))); simpl;
             [tauto | split; [done | by intros [(_ & _ & ?) _]]].
    + case_bool_decide as Hdt; simpl.
      * split; [done | by intros [[? _] _]].
      * destruct (IsCompatibleWith (spec_shape spec) (shape tensor)); simpl;
          [tauto | split; [done | by intros [[_ ?] _]]].
Qed.

(** X12. With a signature configured, [ValidateAgainstOutputSpec] returns OK
    exactly when the output has as many tensors as the signature has
    entries and, at every index from 4 on, the tensor has the entry's dtype
    and a compatible shape (in batched-timestep mode: a tensor of rank at
    least 1 whose shape without the leading dimension is compatible).  The
    tensors and entries at indices 0 to 3 are not looked at; without a
    signature every output is accepted. *)
Theorem ValidateAgainstOutputSpec_ok_iff :
  forall s data mode,
    (forall sig,
       Sampler.dtypes_and_shapes_ s = Some sig ->
       (ok (Sampler.ValidateAgainstOutputSpec s data mode) = true
        ↔ length data = length sig
          ∧ forall i tensor spec,
              (4 <= i)%nat -> data !! i = Some tensor -> sig !! i = Some spec ->
              matches_spec mode tensor spec))
    ∧ (Sampler.dtypes_and_shapes_ s = None ->
       Sampler.ValidateAgainstOutputSpec s data mode = OkStatus).
Proof.
  intros s data mode. unfold Sampler.ValidateAgainstOutputSpec. split.
  - intros sig ->. case_bool_decide as Hlen.
    + split; [done | by intros [? _]].
    + rewrite validate_from_ok_iff, Forall_lookup. split.
      * intros Hall. split; [done|]. intros i tensor spec Hi Htensor Hspec.
        apply (Hall (i - 4)%nat (tensor, spec)).
        apply lookup_zip_with_Some. exists tensor, spec.
        rewrite !lookup_drop. replace (4 + (i - 4))%nat with i by lia. done.
      * intros [_ Hall] j [tensor spec] Hj.
        apply lookup_zip_with_Some in Hj as (t' & sp' & [= -> ->] & Ht & Hs).
        rewrite lookup_drop in Ht. rewrite lookup_drop in Hs.
        apply (Hall (4 + j)%nat); [lia | done | done].
  - by intros ->.
Qed.

(** ** Framing of the response stream *)

Lemma received_chunks_app (sample more : list SampleStreamResponse) key :
  key ∈ received_chunks sample -> key ∈ received_chunks (sample ++ more).
Proof.
  rewrite !elem_of_received_chunks. intros (r & Hr & Hdata & Hkey).
  exists r. split; [|done]. apply elem_of_app. by left.
Qed.

(** X13. Responses that arrive after a sample is complete do not make it
    incomplete: [SampleIsDone] stays true when responses are appended. *)
Theorem SampleIsDone_app :
  forall sample more,
    SampleIsDone sample = true -> SampleIsDone (sample ++ more) = true.
Proof.
  intros [|front sample] more; [done|]. simpl. unfold SampleIsDone.
  rewrite !forallb_forall. intros Hdone key Hkey.
  apply bool_decide_eq_true_2.
  apply (received_chunks_app (front :: sample) more).
  by eapply bool_decide_eq_true_1, Hdone.
Qed.

Lemma SampleIsDone_app_witness :
  SampleIsDone
    ([mkResponse
        (Some (mkSampleInfo
                 (mkItem 5 0 (mkFlatTrajectory [mkColumn [mkChunkSlice 7 0 1 0] false]))
                 0 1))
        (Some (mkChunkData 7 [mkTensorProto DT_INT64 [1] [10]] false))]
     ++ [mkResponse None (Some (mkChunkData 9 [] false))])
  = true.
Proof.
  apply (SampleIsDone_app
           [mkResponse
              (Some (mkSampleInfo
                       (mkItem 5 0 (mkFlatTrajectory [mkColumn [mkChunkSlice 7 0 1 0] false]))
                       0 1))
              (Some (mkChunkData 7 [mkTensorProto DT_INT64 [1] [10]] false))]
           [mkResponse None (Some (mkChunkData 9 [] false))]).
  reflexivity.
Defined.

Section ReadProperties.
Context `{TrajectoryUtil}.

(** X14. The read loop of the remote worker takes from the stream the
    shortest run of responses that completes the sample: what it returns
    together with what it leaves unread is what the stream held, the
    responses it returns are complete, and no shorter run was; it fails only
    when the stream ends before any run of its responses is complete. *)
Theorem read_sample_shortest :
  forall unread responses,
    match read_sample unread responses with
    | (Some sample, rest) =>
        exists taken,
          sample = responses ++ taken ∧ unread = taken ++ rest
          ∧ SampleIsDone sample = true
          ∧ forall k, (k < length taken)%nat ->
                      SampleIsDone (responses ++ take k taken) = false
    | (None, rest) =>
        rest = []
        ∧ forall k, SampleIsDone (responses ++ take k unread) = false
    end.
Proof.
  induction unread as [|response unread IH]; intros responses; simpl.
  - destruct (SampleIsDone responses) eqn:Hdone.
    + exists []. rewrite app_nil_r. repeat split; try done. simpl. lia.
    + split; [done|]. intros k. by rewrite take_nil, app_nil_r.
  - destruct (SampleIsDone responses) eqn:Hdone.
    + exists []. rewrite app_nil_r. repeat split; try done. simpl. lia.
    + specialize (IH (responses ++ [response])).
      destruct (read_sample unread (responses ++ [response])) as [[sample|] rest].
      * destruct IH as (taken & -> & -> & Hsample & Hshort).
        exists (response :: taken). rewrite <- app_assoc.
        split; [done|]. split; [done|]. split; [by rewrite app_assoc|].
        intros [|k] Hk; simpl.
        -- by rewrite app_nil_r.
        -- change (responses ++ response :: take k taken)
             with (responses ++ [response] ++ take k taken).
           rewrite app_assoc. apply Hshort. simpl in Hk. lia.
      * destruct IH as [-> Hnone]. split; [done|]. intros [|k]; simpl.
        -- by rewrite app_nil_r.
        -- change (responses ++ response :: take k unread)
             with (responses ++ [response] ++ take k unread).
           rewrite app_assoc. apply Hnone.
Qed.

End ReadProperties.

(** ** What the assembler hands back *)

Lemma Concat_error ts err : Concat ts = Returns (inl err) -> ok err = false.
Proof.
  unfold Concat. destruct ts as [|t0 ts]; [by intros [= <-]|].
  repeat case_bool_decide; by intros [= <-].
Qed.

Lemma Sample_new_fields key probability table_size priority chunks squeeze_columns s :
  Sample.new key probability table_size priority chunks squeeze_columns = Returns s ->
  Sample.key_ s = key ∧ Sample.probability_ s = probability
  ∧ Sample.table_size_ s = table_size ∧ Sample.priority_ s = priority
  ∧ Sample.chunks_ s = chunks ∧ chunks ≠ []
  ∧ Sample.squeeze_columns_ s = squeeze_columns
  ∧ Sample.next_timestep_index_ s = 0 ∧ Sample.next_timestep_called_ s = false.
Proof.
  unfold Sample.new. destruct chunks as [|front rest]; [done|].
  case_bool_decide; [done|].
  destruct (Sample.sum_front_dims (front :: rest) 0); try done.
  intros [= <-]. by repeat split.
Qed.

Section AssemblerResults.
Context `{TrajectoryUtil}.

Lemma convert_tensors_error delta offset remaining protos :
  forall bs acc err,
    convert_tensors delta offset remaining protos bs acc = Returns (inl err) ->
    code err = kInternal.
Proof.
  induction protos as [|chunk protos IH]; intros bs acc err Hrun; [done|].
  cbn [convert_tensors] in Hrun.
  destruct (dim_size0 (decode_tensor delta chunk)) as [d| | |]; try done.
  simpl in Hrun. destruct (negb (bs <? 0) && negb (bs =? d)); [by simplify_eq|].
  destruct (Slice _ offset _) as [sliced| | |]; try done. simpl in Hrun. by eapply IH.
Qed.

Lemma unpack_responses_error responses :
  forall offset remaining acc err,
    unpack_responses responses offset remaining acc = Returns (inl err) ->
    code err = kInternal.
Proof.
  induction responses as [|response responses IH]; intros offset remaining acc err Hrun;
    [done|].
  cbn [unpack_responses] in Hrun. destruct (negb (0 <? remaining)); [done|].
  destruct (convert_tensors _ offset remaining _ (-1) [])
    as [[err' | [batches B]]| | |] eqn:Hconv; try done; simpl in Hrun.
  - simplify_eq. by eapply convert_tensors_error.
  - by eapply IH.
Qed.

Lemma unpack_slices_result chunks item slices r :
  unpack_slices chunks item slices = Returns r ->
  match r with
  | inl err => ok err = false
  | inr unpacked => length unpacked = length slices
  end.
Proof.
  revert r. induction slices as [|sl slices IH]; intros r Hrun; simpl in Hrun.
  - by simplify_eq.
  - destruct (chunks !! slice_chunk_key sl) as [[chunk|]|]; try done;
      [|by simplify_eq].
    destruct (UnpackChunkColumnAndSlice chunk sl) as [st tensor].
    destruct (negb (ok st)) eqn:Hst; [simplify_eq; by apply negb_true_iff|].
    destruct (unpack_slices chunks item slices) as [[err|unpacked]| | |]; try done;
      simpl in Hrun; simplify_eq; [by apply (IH (inl err)) | simpl].
    f_equal. by apply (IH (inr unpacked)).
Qed.

Lemma unpack_columns_result chunks item cols r :
  unpack_columns chunks item cols = Returns r ->
  match r with
  | inl err => ok err = false
  | inr unpacked => length unpacked = length cols
  end.
Proof.
  revert r. induction cols as [|col cols IH]; intros r Hrun; simpl in Hrun.
  - by simplify_eq.
  - destruct (unpack_slices chunks item (chunk_slices col)) as [[err|ts]| | |] eqn:Hsl;
      try done; simpl in Hrun.
    { simplify_eq. by pose proof (unpack_slices_result _ _ _ _ Hsl). }
    destruct (Concat ts) as [[err|c]| | |] eqn:Hc; try done; simpl in Hrun.
    { simplify_eq. by eapply Concat_error. }
    destruct (unpack_columns chunks item cols) as [[err|unpacked]| | |]; try done;
      simpl in Hrun; simplify_eq; [by apply (IH (inl err)) | simpl].
    f_equal. by apply (IH (inr unpacked)).
Qed.

(** The cases of [AsSample]. *)
Lemma AsSample_returns :
  forall responses status sample,
    AsSample responses = Returns (status, sample) ->
    match sample with
    | None => ok status = false
    | Some s =>
        status = OkStatus
        ∧ exists front,
            head responses = Some front
            ∧ Sample.key_ s = item_key (info_item (info front))
            ∧ Sample.probability_ s = info_probability (info front)
            ∧ Sample.table_size_ s = info_table_size (info front)
            ∧ Sample.priority_ s = item_priority (info_item (info front))
            ∧ Sample.squeeze_columns_ s
              = squeeze <$> columns (flat_trajectory (info_item (info front)))
            ∧ Sample.chunks_ s ≠ []
            ∧ Sample.next_timestep_index_ s = 0
            ∧ Sample.next_timestep_called_ s = false
            ∧ (IsTimestepTrajectory (flat_trajectory (info_item (info front))) = false ->
               exists unpacked,
                 Sample.chunks_ s = [unpacked]
                 ∧ length unpacked
                   = length (columns (flat_trajectory (info_item (info front)))))
    end.
Proof.
  intros responses status sample. unfold AsSample.
  destruct responses as [|front responses]; [done|].
  destruct (IsTimestepTrajectory _) eqn:Hts.
  - unfold TimestepTrajectoryAsSample.
    destruct (unpack_responses (front :: responses) _ _ [])
      as [[err | [chunks remaining]]| | |] eqn:Hloop; try done; simpl.
    + intros [= <- <-]. apply unpack_responses_error in Hloop.
      unfold ok. by rewrite Hloop.
    + destruct (negb (remaining =? 0)); [done|].
      destruct (Sample.new _ _ _ _ chunks _) as [s| | |] eqn:Hnew; try done. simpl.
      intros [= <- <-]. split; [done|]. exists front.
      apply Sample_new_fields in Hnew as (? & ? & ? & ? & ? & ? & ? & ? & ?).
      repeat split; try done; congruence.
  - destruct (unpack_columns _ _ _) as [[err | unpacked]| | |] eqn:Hcols; try done;
      cbn -[Sample.new].
    + intros [= <- <-]. by pose proof (unpack_columns_result _ _ _ _ Hcols).
    + destruct (Sample.new _ _ _ _ [unpacked] _) as [s| | |] eqn:Hnew; try done.
      cbn -[Sample.new]. intros [= <- <-]. split; [done|]. exists front.
      apply Sample_new_fields in Hnew as (? & ? & ? & ? & ? & ? & ? & ? & ?).
      repeat split; try done; try congruence.
      intros _. exists unpacked. split; [done|].
      by pose proof (unpack_columns_result _ _ _ _ Hcols).
Qed.

(** X15. What [AsSample] returns for a run of stream responses is either an
    error status and no sample, or OK and a sample that carries the key,
    probability, table size and priority of the first response's info and
    the squeeze flags of its trajectory, holds at least one chunk group, and
    has not been iterated; on the general (not timestep-aligned) path the
    sample has exactly one chunk group with one tensor per column. *)
Theorem AsSample_result :
  forall responses status sample,
    AsSample responses = Returns (status, sample) ->
    match sample with
    | None => ok status = false
    | Some s =>
        status = OkStatus
        ∧ exists front,
            head responses = Some front
            ∧ Sample.key_ s = item_key (info_item (info front))
            ∧ Sample.probability_ s = info_probability (info front)
            ∧ Sample.table_size_ s = info_table_size (info front)
            ∧ Sample.priority_ s = item_priority (info_item (info front))
            ∧ Sample.squeeze_columns_ s
              = squeeze <$> columns (flat_trajectory (info_item (info front)))
            ∧ Sample.chunks_ s ≠ []
            ∧ Sample.next_timestep_index_ s = 0
            ∧ Sample.next_timestep_called_ s = false
            ∧ (IsTimestepTrajectory (flat_trajectory (info_item (info front))) = false ->
               exists unpacked,
                 Sample.chunks_ s = [unpacked]
                 ∧ length unpacked
                   = length (columns (flat_trajectory (info_item (info front)))))
    end.
Proof. exact AsSample_returns. Qed.

End AssemblerResults.

(** A witness of [AsSample_result]: two columns cut from two chunks, on the
    general path. *)
Lemma AsSample_result_witness :
  exists unpacked,
    Sample.chunks_
      (Sample.mk 5 0 1 0 1 2 [[vector DT_INT64 [10]; vector DT_INT64 [20]]]
                 [false; false] 0 false)
    = [unpacked]
    ∧ length unpacked = 2%nat.
Proof.
  destruct (@AsSample_result plain_util
              [mkResponse
                 (Some (mkSampleInfo
                          (mkItem 5 0 (mkFlatTrajectory
                                         [mkColumn [mkChunkSlice 7 0 1 0] false;
                                          mkColumn [mkChunkSlice 8 0 1 0] false]))
                          0 1))
                 (Some (mkChunkData 7 [mkTensorProto DT_INT64 [1] [10]] false));
               mkResponse None
                 (Some (mkChunkData 8 [mkTensorProto DT_INT64 [1] [20]] false))]
              OkStatus
              (Some (Sample.mk 5 0 1 0 1 2 [[vector DT_INT64 [10]; vector DT_INT64 [20]]]
                               [false; false] 0 false))
              eq_refl)
    as (_ & front & Hfront & _ & _ & _ & _ & _ & _ & _ & _ & Hgeneral).
  injection Hfront as <-. apply Hgeneral. reflexivity.
Defined.

(** ** What the remote worker pushes *)

Lemma push_sample_inv sample p accepted p' :
  push_sample sample p = Returns (accepted, p') ->
  pushed p' = pushed p ++ (if accepted then [sample] else [])
  ∧ num_samples_returned p'
    = num_samples_returned p + (if accepted then 1 else 0).
Proof.
  unfold push_sample. destruct (push_answers p) as [|[] answers]; try done;
    intros [= <- <-]; simpl; split; try done; try lia. by rewrite app_nil_r.
Qed.

Section RemoteWorkerProperties.
Context `{TrajectoryUtil}.

Lemma fetch_request_inv count finish :
  forall unread p p' r,
    fetch_request count finish unread p = Returns (p', r) ->
    exists new,
      pushed p' = pushed p ++ new
      ∧ num_samples_returned p' = num_samples_returned p + Z.of_nat (length new)
      ∧ (length new <= count)%nat
      ∧ Forall fresh new.
Proof.
  induction count as [|count IH]; intros unread p p' r Hrun.
  - simpl in Hrun. simplify_eq. exists []. rewrite app_nil_r. repeat split; simpl; try lia.
    constructor.
  - cbn [fetch_request] in Hrun.
    assert (exists new, pushed p = pushed p ++ new
                        ∧ num_samples_returned p
                          = num_samples_returned p + Z.of_nat (length new)
                        ∧ (length new <= S count)%nat ∧ Forall fresh new) as Hnone.
    { exists []. rewrite app_nil_r. repeat split; simpl; try lia. constructor. }
    destruct (read_sample unread []) as [[responses|] unread']; [|by simplify_eq].
    destruct (AsSample responses) as [[status sample]| | |] eqn:Has; try done.
    simpl in Hrun. destruct (negb (ok status)); [by simplify_eq|].
    destruct sample as [sample|]; [|done].
    apply AsSample_returns in Has as (_ & front & _ & _ & _ & _ & _ & _ & Hc & Hi & Hn & _).
    destruct (push_sample sample p) as [[accepted p1]| | |] eqn:Hpush; try done.
    simpl in Hrun. apply push_sample_inv in Hpush as [Hp1 Hr1].
    destruct accepted; simpl in Hrun.
    + apply IH in Hrun as (new & Hp' & Hr' & Hlen & Hfresh).
      exists (sample :: new). rewrite Hp', Hp1, Hr', Hr1, <- app_assoc. simpl.
      repeat split; try lia. by constructor.
    + simplify_eq. rewrite Hp1, Hr1. exists []. repeat split; simpl; try lia. constructor.
Qed.

Lemma fetch_stream_inv samples_per_request num_samples finish writable :
  forall unread p f,
    fetch_stream samples_per_request num_samples writable finish unread p = Returns f ->
    exists new,
      fetched_pushed f = pushed p ++ new
      ∧ (fetched_result f).1 = num_samples_returned p + Z.of_nat (length new)
      ∧ (fetched_result f).1 <= Z.max num_samples (num_samples_returned p)
      ∧ Forall fresh new.
Proof.
  induction writable as [|writable IH]; intros unread p f Hrun;
    cbn [fetch_stream] in Hrun;
    assert (exists new, pushed p = pushed p ++ new
                        ∧ num_samples_returned p
                          = num_samples_returned p + Z.of_nat (length new)
                        ∧ num_samples_returned p
                          <= Z.max num_samples (num_samples_returned p)
                        ∧ Forall fresh new) as Hnone
      by (exists []; rewrite app_nil_r; repeat split; simpl; try lia; constructor);
    (destruct (num_samples_returned p <? num_samples) eqn:Hlt;
     [|injection Hrun as <-; unfold finish_fetch; by destruct (negb _)]).
  - by injection Hrun as <-.
  - destruct (fetch_request _ finish unread p) as [[p' r]| | |] eqn:Hreq; try done.
    simpl in Hrun.
    apply fetch_request_inv in Hreq as (new & Hp' & Hr' & Hlen & Hfresh).
    destruct r as [status | unread'].
    + injection Hrun as <-. simpl. exists new. repeat split; try done. lia.
    + apply IH in Hrun as (new' & Hf & Hr & Hbound & Hfresh').
      exists (new ++ new'). rewrite Hf, Hp', Hr, Hr', length_app, <- app_assoc.
      repeat split; try lia. by apply Forall_app.
Qed.

(** X16. Whatever the stream does, a [FetchSamples] call of the remote
    worker that returns reports exactly the number of samples it pushed,
    which is at most [num_samples]; every sample it pushed holds at least
    one chunk group and has not been iterated; and a worker cancelled
    before the call pushes nothing and reports 0 with cancelled. *)
Theorem GrpcFetchSamples_delivers :
  forall samples_per_request closed stream answers num_samples f,
    GrpcFetchSamples samples_per_request closed stream answers num_samples = Returns f ->
    (fetched_result f).1 = Z.of_nat (length (fetched_pushed f))
    ∧ (fetched_result f).1 <= Z.max num_samples 0
    ∧ Forall fresh (fetched_pushed f)
    ∧ (closed = true ->
       f = mkFetched [] (0, CancelledError [Text "`Close` called on Sampler."])).
Proof.
  intros spr closed stream answers n f. unfold GrpcFetchSamples.
  destruct closed.
  - intros [= <-]. simpl. repeat split; try done. lia.
  - intros Hrun. apply fetch_stream_inv in Hrun as (new & Hf & Hr & Hbound & Hfresh).
    simpl in *. subst. repeat split; try done; lia.
Qed.

End RemoteWorkerProperties.

(** A witness of [GrpcFetchSamples_delivers]: a stream that delivers one
    sample of a quota of two and then breaks. *)
Lemma GrpcFetchSamples_delivers_witness :
  (fetched_result (mkFetched [two_step_sample] (1, mkStatus kUnavailable []))).1
  = Z.of_nat (length (fetched_pushed
                        (mkFetched [two_step_sample] (1, mkStatus kUnavailable []))))
  ∧ (fetched_result (mkFetched [two_step_sample] (1, mkStatus kUnavailable []))).1
    <= Z.max 2 0
  ∧ Forall fresh
           (fetched_pushed (mkFetched [two_step_sample] (1, mkStatus kUnavailable [])))
  ∧ (false = true ->
     mkFetched [two_step_sample] (1, mkStatus kUnavailable [])
     = mkFetched [] (0, CancelledError [Text "`Close` called on Sampler."])).
Proof.
  apply (@GrpcFetchSamples_delivers plain_util 2 false
           (mkStream 1
              [mkResponse
                 (Some (mkSampleInfo
                          (mkItem 7 0 (mkFlatTrajectory
                                         [mkColumn [mkChunkSlice 3 0 2 0] false]))
                          0 1))
                 (Some (mkChunkData 3 [mkTensorProto DT_INT64 [2] [10; 20]] false))]
              (mkStatus kUnavailable []))
           [true] 2).
  reflexivity.
Defined.

(** ** The local worker's wake-ups *)

Section LocalWorkerProperties.
Context `{TrajectoryUtil}.

(** X17. Wake-ups of the local worker are invisible in its result: rounds in
    which the worker is not cancelled and the table answers
    deadline-exceeded before the final deadline can be inserted anywhere
    among the rounds of a [FetchSamples] call without changing what it
    pushes and returns. *)
Theorem wakeups_are_transparent :
  forall flexible_batch_size num_samples wakeups before after answers,
    Forall (fun round =>
              closed_seen round = false
              ∧ before_final_deadline round = true
              ∧ forall batch_size,
                  IsDeadlineExceeded (SampleFlexibleBatch round batch_size).1 = true)
           wakeups ->
    LocalFetchSamples flexible_batch_size (before ++ wakeups ++ after) answers num_samples
    = LocalFetchSamples flexible_batch_size (before ++ after) answers num_samples.
Proof.
  intros fbs n wakeups before after answers Hwake. unfold LocalFetchSamples.
  generalize (mkProgress [] 0 answers).
  assert (forall p, fetch_local fbs n (wakeups ++ after) p = fetch_local fbs n after p)
    as Hskip.
  { induction Hwake as [|round wakeups (Hclosed & Hdeadline & Htable) _ IH]; [done|].
    intros p. cbn [app fetch_local].
    destruct (num_samples_returned p <? n) eqn:Hlt.
    - rewrite Hclosed. specialize (Htable (Z.min fbs (to_int (n - num_samples_returned p)))).
      destruct (SampleFlexibleBatch round _) as [status items]. simpl in Htable.
      rewrite Htable, Hdeadline. simpl. apply IH.
    - destruct after; cbn [fetch_local]; by rewrite Hlt. }
  induction before as [|round before IH]; intros p; [apply Hskip|].
  cbn [app fetch_local].
  destruct (num_samples_returned p <? n) eqn:Hlt; [|done].
  destruct (closed_seen round); [done|].
  destruct (SampleFlexibleBatch round _) as [status items].
  destruct (IsDeadlineExceeded status && before_final_deadline round); [apply IH|].
  destruct (negb (ok status)); [done|].
  destruct (push_items items p) as [[p' r]| | |]; try done. simpl.
  destruct r; [done|]. apply IH.
Qed.

End LocalWorkerProperties.

Lemma wakeups_are_transparent_witness :
  @LocalFetchSamples plain_util 1
    ([] ++ [mkRound false (fun _ => (mkStatus kDeadlineExceeded [], [])) true]
        ++ [mkRound false
              (fun _ => (OkStatus,
                         [mkSampledItem
                            (mkItem 5 0 (mkFlatTrajectory
                                           [mkColumn [mkChunkSlice 8 0 1 0] false]))
                            0 1 [mkChunkData 8 [mkTensorProto DT_INT64 [1] [10]] false]]))
              true])
    [true] 1
  = @LocalFetchSamples plain_util 1
      ([] ++ [mkRound false
                (fun _ => (OkStatus,
                           [mkSampledItem
                              (mkItem 5 0 (mkFlatTrajectory
                                             [mkColumn [mkChunkSlice 8 0 1 0] false]))
                              0 1 [mkChunkData 8 [mkTensorProto DT_INT64 [1] [10]] false]]))
                true])
      [true] 1.
Proof.
  apply (@wakeups_are_transparent plain_util 1 1
           [mkRound false (fun _ => (mkStatus kDeadlineExceeded [], [])) true] []).
  repeat constructor.
Defined.

(** ** Errors of the assembler *)

Section AssemblerErrors.
Context `{TrajectoryUtil}.

Lemma convert_tensors_mismatch delta offset remaining middle bad rest d :
  forall bs acc,
    0 <= bs ->
    Forall (fun proto =>
              dim_size0 (decode_tensor delta proto) = Returns bs
              ∧ exists out, Slice (decode_tensor delta proto) offset
                                  (Z.min (offset + remaining) bs) = Returns out)
           middle ->
    dim_size0 (decode_tensor delta bad) = Returns d ->
    d ≠ bs ->
    convert_tensors delta offset remaining (middle ++ bad :: rest) bs acc
    = Returns (inl (InternalError
        [Text "Chunks of the same response must have identical batch size, but first chunk has batch size ";
         Num bs; Text " while the current chunk has batch size "; Num d])).
Proof.
  intros bs acc Hbs Hmiddle Hbad Hne. revert acc.
  induction Hmiddle as [|proto middle (Hdim & out & Hslice) _ IH]; intros acc;
    cbn [app convert_tensors].
  - rewrite Hbad. simpl.
    destruct (bs <? 0) eqn:Hneg; [lia|]. destruct (bs =? d) eqn:Heq; [lia|]. done.
  - rewrite Hdim. simpl. destruct (bs <? 0) eqn:Hneg; [lia|].
    rewrite Z.eqb_refl. simpl. rewrite Hslice. simpl. apply IH.
Qed.

(** X18. In [TimestepTrajectoryAsSample], a response whose tensors, once
    decoded, do not all have the leading dimension of its last tensor (the
    first to be converted) stops the unpacking with an internal error that
    names the two sizes, provided the tensors converted before the odd one
    could be sliced; the responses after it are not looked at. *)
Theorem batch_size_mismatch_is_internal :
  forall response more offset remaining chunks before bad between last B d,
    0 < remaining ->
    tensors (data response) = before ++ bad :: between ++ [last] ->
    Forall (fun proto =>
              dim_size0 (decode_tensor (delta_encoded (data response)) proto) = Returns B
              ∧ exists out,
                  Slice (decode_tensor (delta_encoded (data response)) proto) offset
                        (Z.min (offset + remaining) B) = Returns out)
           (last :: between) ->
    dim_size0 (decode_tensor (delta_encoded (data response)) bad) = Returns d ->
    d ≠ B ->
    unpack_responses (response :: more) offset remaining chunks
    = Returns (inl (InternalError
        [Text "Chunks of the same response must have identical batch size, but first chunk has batch size ";
         Num B; Text " while the current chunk has batch size "; Num d])).
Proof.
  intros response more offset remaining chunks before bad between last B d
    Hpos Htensors Hgood Hbad Hne.
  cbn [unpack_responses]. destruct (0 <? remaining) eqn:Hlt; [|lia]. simpl.
  rewrite Htensors, reverse_app, reverse_cons, reverse_app, reverse_singleton.
  rewrite <- !app_assoc. cbn [app convert_tensors].
  apply Forall_cons in Hgood as [(Hdim & out & Hslice) Hbetween].
  rewrite Hdim. simpl. rewrite Hslice. simpl.
  apply Slice_returns in Hslice as (d0 & sh & _ & ? & ? & ? & _).
  rewrite (convert_tensors_mismatch _ _ _ (reverse between) bad (reverse before) d);
    [done | lia | by apply Forall_reverse | done | done].
Qed.

End AssemblerErrors.

Lemma batch_size_mismatch_witness :
  @unpack_responses plain_util
    [mkResponse None
       (Some (mkChunkData 7 [mkTensorProto DT_INT64 [3] [1; 2; 3];
                             mkTensorProto DT_INT64 [2] [10; 20]] false))]
    0 2 []
  = Returns (inl (InternalError
      [Text "Chunks of the same response must have identical batch size, but first chunk has batch size ";
       Num 2; Text " while the current chunk has batch size "; Num 3])).
Proof.
  apply (@batch_size_mismatch_is_internal plain_util
           (mkResponse None
              (Some (mkChunkData 7 [mkTensorProto DT_INT64 [3] [1; 2; 3];
                                    mkTensorProto DT_INT64 [2] [10; 20]] false)))
           [] 0 2 [] [] (mkTensorProto DT_INT64 [3] [1; 2; 3]) []
           (mkTensorProto DT_INT64 [2] [10; 20]) 2 3);
    [lia | reflexivity | | reflexivity | lia].
  repeat constructor. by eexists.
Defined.

(** X24. On the remote path, for a trajectory that is not a timestep
    trajectory: the first slice, in column order, whose chunk key is the key
    of no response of the sample makes [AsSample] return the internal error
    that names this chunk key and the item key, and no sample is produced. *)
Theorem remote_missing_chunk_is_internal `{TrajectoryUtil}
    front rest cols_before col cols_after
    slices_before sl slices_after unpacked_cols unpacked :
  let traj := flat_trajectory (info_item (info front)) in
  let item := item_key (info_item (info front)) in
  let chunks := index_responses (front :: rest) in
  IsTimestepTrajectory traj = false ->
  columns traj = cols_before ++ col :: cols_after ->
  chunk_slices col = slices_before ++ sl :: slices_after ->
  unpack_columns chunks item cols_before = Returns (inr unpacked_cols) ->
  unpack_slices chunks item slices_before = Returns (inr unpacked) ->
  (forall r, r ∈ front :: rest -> chunk_key (data r) ≠ slice_chunk_key sl) ->
  AsSample (front :: rest)
  = Returns (InternalError [Text "Chunk "; Num (slice_chunk_key sl);
                            Text " could not be found when unpacking item ";
                            Num item; Text "."], None).
Proof.
  exact (AsSample_missing_chunk front rest cols_before col cols_after
           slices_before sl slices_after unpacked_cols unpacked).
Qed.

(** A witness of [remote_missing_chunk_is_internal]: chunk 7 is referenced,
    chunk 8 is what arrived. *)
Lemma remote_missing_chunk_witness :
  @AsSample plain_util
    (mkResponse
       (Some (mkSampleInfo
                (mkItem 5 0 (mkFlatTrajectory [mkColumn [mkChunkSlice 7 0 1 0] false;
                                               mkColumn [mkChunkSlice 8 0 1 0] false]))
                0 1))
       (Some (mkChunkData 8 [mkTensorProto DT_INT64 [1] [10]] false)) :: [])
  = Returns (InternalError [Text "Chunk "; Num (slice_chunk_key (mkChunkSlice 7 0 1 0));
                            Text " could not be found when unpacking item ";
                            Num 5; Text "."], None).
Proof.
  refine (@remote_missing_chunk_is_internal plain_util
            (mkResponse
               (Some (mkSampleInfo
                        (mkItem 5 0 (mkFlatTrajectory
                                       [mkColumn [mkChunkSlice 7 0 1 0] false;
                                        mkColumn [mkChunkSlice 8 0 1 0] false]))
                        0 1))
               (Some (mkChunkData 8 [mkTensorProto DT_INT64 [1] [10]] false)))
            [] [] (mkColumn [mkChunkSlice 7 0 1 0] false)
            [mkColumn [mkChunkSlice 8 0 1 0] false]
            [] (mkChunkSlice 7 0 1 0) [] [] [] eq_refl eq_refl eq_refl eq_refl eq_refl _).
  intros r Hr. apply list_elem_of_singleton in Hr as ->. done.
Defined.

(** ** What the local worker assembles and pushes *)

Section LocalAssembly.
Context `{TrajectoryUtil}.

Lemma unpack_slices_local_result chunks slices r :
  unpack_slices_local chunks slices = Returns r ->
  match r with
  | inl err => ok err = false
  | inr unpacked => length unpacked = length slices
  end.
Proof.
  revert r. induction slices as [|sl slices IH]; intros r Hrun; simpl in Hrun.
  - by simplify_eq.
  - destruct (chunks !! slice_chunk_key sl) as [chunk|]; try done.
    destruct (UnpackChunkColumnAndSlice chunk sl) as [st tensor].
    destruct (negb (ok st)) eqn:Hst; [simplify_eq; by apply negb_true_iff|].
    destruct (unpack_slices_local chunks slices) as [[err|unpacked]| | |]; try done;
      simpl in Hrun; simplify_eq; [by apply (IH (inl err)) | simpl].
    f_equal. by apply (IH (inr unpacked)).
Qed.

Lemma unpack_columns_local_result chunks cols r :
  unpack_columns_local chunks cols = Returns r ->
  match r with
  | inl err => ok err = false
  | inr unpacked => length unpacked = length cols
  end.
Proof.
  revert r. induction cols as [|col cols IH]; intros r Hrun; simpl in Hrun.
  - by simplify_eq.
  - destruct (unpack_slices_local chunks (chunk_slices col)) as [[err|ts]| | |] eqn:Hsl;
      try done; simpl in Hrun.
    { simplify_eq. by pose proof (unpack_slices_local_result _ _ _ Hsl). }
    destruct (Concat ts) as [[err|c]| | |] eqn:Hc; try done; simpl in Hrun.
    { simplify_eq. by eapply Concat_error. }
    destruct (unpack_columns_local chunks cols) as [[err|unpacked]| | |]; try done;
      simpl in Hrun; simplify_eq; [by apply (IH (inl err)) | simpl].
    f_equal. by apply (IH (inr unpacked)).
Qed.

(** The cases of the local [AsSample]. *)
Lemma AsSampleLocal_returns item status sample :
  AsSampleLocal item = Returns (status, sample) ->
  match sample with
  | None => ok status = false
  | Some s =>
      status = OkStatus
      ∧ Sample.key_ s = item_key (sampled_item item)
      ∧ Sample.probability_ s = sampled_probability item
      ∧ Sample.table_size_ s = sampled_table_size item
      ∧ Sample.priority_ s = item_priority (sampled_item item)
      ∧ Sample.squeeze_columns_ s
        = squeeze <$> columns (flat_trajectory (sampled_item item))
      ∧ fresh s
      ∧ exists unpacked,
          Sample.chunks_ s = [unpacked]
          ∧ length unpacked = length (columns (flat_trajectory (sampled_item item)))
  end.
Proof.
  unfold AsSampleLocal.
  destruct (unpack_columns_local _ _) as [[err | unpacked]| | |] eqn:Hcols; try done;
    cbn -[Sample.new].
  - intros [= <- <-]. by pose proof (unpack_columns_local_result _ _ _ Hcols).
  - destruct (Sample.new _ _ _ _ [unpacked] _) as [s| | |] eqn:Hnew; try done.
    cbn -[Sample.new]. intros [= <- <-]. split; [done|].
    apply Sample_new_fields in Hnew as (? & ? & ? & ? & ? & ? & ? & ? & ?).
    unfold fresh. repeat split; try done; try congruence.
    exists unpacked. split; [done|].
    by pose proof (unpack_columns_local_result _ _ _ Hcols).
Qed.

(** X19. What the local [AsSample] returns for a sampled item is either an
    error status and no sample, or OK and a sample that has not been
    iterated, carries the item's key and priority and the probability and
    table size it was sampled with, and holds exactly one chunk group with
    one tensor per column of the item's trajectory. *)
Theorem AsSampleLocal_result :
  forall item status sample,
    AsSampleLocal item = Returns (status, sample) ->
    match sample with
    | None => ok status = false
    | Some s =>
        status = OkStatus
        ∧ Sample.key_ s = item_key (sampled_item item)
        ∧ Sample.probability_ s = sampled_probability item
        ∧ Sample.table_size_ s = sampled_table_size item
        ∧ Sample.priority_ s = item_priority (sampled_item item)
        ∧ Sample.squeeze_columns_ s
          = squeeze <$> columns (flat_trajectory (sampled_item item))
        ∧ fresh s
        ∧ exists unpacked,
            Sample.chunks_ s = [unpacked]
            ∧ length unpacked = length (columns (flat_trajectory (sampled_item item)))
    end.
Proof. exact AsSampleLocal_returns. Qed.

Lemma push_items_inv items :
  forall p p' r,
    push_items items p = Returns (p', r) ->
    exists new,
      pushed p' = pushed p ++ new
      ∧ num_samples_returned p' = num_samples_returned p + Z.of_nat (length new)
      ∧ (length new <= length items)%nat
      ∧ Forall fresh new.
Proof.
  induction items as [|item items IH]; intros p p' r Hrun.
  - simpl in Hrun. simplify_eq. exists []. rewrite app_nil_r. repeat split; simpl; try lia.
    constructor.
  - cbn [push_items] in Hrun.
    assert (exists new, pushed p = pushed p ++ new
                        ∧ num_samples_returned p
                          = num_samples_returned p + Z.of_nat (length new)
                        ∧ (length new <= length (item :: items))%nat ∧ Forall fresh new)
      as Hnone.
    { exists []. rewrite app_nil_r. repeat split; simpl; try lia. constructor. }
    destruct (AsSampleLocal item) as [[status sample]| | |] eqn:Has; try done.
    simpl in Hrun. destruct (negb (ok status)); [by simplify_eq|].
    destruct sample as [sample|]; [|done].
    apply AsSampleLocal_returns in Has as (_ & _ & _ & _ & _ & _ & Hfresh & _).
    destruct (push_sample sample p) as [[accepted p1]| | |] eqn:Hpush; try done.
    simpl in Hrun. apply push_sample_inv in Hpush as [Hp1 Hr1].
    destruct accepted; simpl in Hrun.
    + apply IH in Hrun as (new & Hp' & Hr' & Hlen & Hnew).
      exists (sample :: new). rewrite Hp', Hp1, Hr', Hr1, <- app_assoc. simpl.
      repeat split; try lia. by constructor.
    + simplify_eq. rewrite Hp1, Hr1. exists []. repeat split; simpl; try lia. constructor.
Qed.

(** X20. As long as the table never returns more items than the batch size
    it is asked for, the local worker pushes at most [num_samples] samples
    in one [FetchSamples] call (for a quota that fits an [int]), and every
    sample it pushes has not been iterated and holds one chunk group. *)
Theorem LocalFetchSamples_delivers :
  forall flexible_batch_size rounds answers num_samples f,
    0 <= num_samples < 2 ^ 31 ->
    Forall (fun round =>
              forall batch_size,
                Z.of_nat (length (SampleFlexibleBatch round batch_size).2)
                <= Z.max 0 batch_size)
           rounds ->
    LocalFetchSamples flexible_batch_size rounds answers num_samples = Returns f ->
    Z.of_nat (length (fetched_pushed f)) <= num_samples
    ∧ Forall fresh (fetched_pushed f).
Proof.
  intros fbs rounds answers n f Hn Htable. unfold LocalFetchSamples.
  assert (forall p f,
            Z.of_nat (length (pushed p)) = num_samples_returned p ->
            num_samples_returned p <= n ->
            Forall fresh (pushed p) ->
            fetch_local fbs n rounds p = Returns f ->
            Z.of_nat (length (fetched_pushed f)) <= n ∧ Forall fresh (fetched_pushed f))
    as Hgen.
  { clear f. induction Htable as [|round rounds Hround _ IH]; intros p f Hcount Hle Hfresh Hrun;
      cbn [fetch_local] in Hrun;
      (destruct (num_samples_returned p <? n) eqn:Hlt;
       [|injection Hrun as <-; unfold finish_fetch; destruct (negb _); simpl;
         (split; [lia | done])]); [done|].
    destruct (closed_seen round); [injection Hrun as <-; simpl; split; [lia | done]|].
    set (batch := Z.min fbs (to_int (n - num_samples_returned p))) in *.
    specialize (Hround batch).
    destruct (SampleFlexibleBatch round batch) as [status items]. simpl in Hround.
    destruct (IsDeadlineExceeded status && before_final_deadline round); [by eapply IH|].
    destruct (negb (ok status)); [injection Hrun as <-; simpl; split; [lia | done]|].
    destruct (push_items items p) as [[p' r]| | |] eqn:Hpush; try done.
    simpl in Hrun. apply push_items_inv in Hpush as (new & Hp' & Hr' & Hlen & Hnew).
    assert (to_int (n - num_samples_returned p) = n - num_samples_returned p) as Hint.
    { unfold to_int. rewrite Z.mod_small; lia. }
    assert (Z.of_nat (length new) <= n - num_samples_returned p) as Hroom by lia.
    assert (Forall fresh (pushed p')) as Hfresh' by (rewrite Hp'; by apply Forall_app).
    assert (Z.of_nat (length (pushed p')) = num_samples_returned p') as Hcount'
      by (rewrite Hp', length_app; lia).
    destruct r as [status'|].
    - injection Hrun as <-. simpl. split; [lia | done].
    - eapply IH; [exact Hcount' | lia | done | done]. }
  intros Hrun.
  apply (Hgen (mkProgress [] 0 answers) f); [done | simpl; lia | constructor | done].
Qed.

End LocalAssembly.

(** ** Iterating a sample timestep by timestep *)

Lemma exec_map_const {A B} (f : A -> Exec B) (l : list A) (v : B) :
  Forall (fun x => f x = Returns v) l ->
  exec_map f l = Returns (replicate (length l) v).
Proof.
  induction 1 as [|x l Hx _ IH]; simpl; [done|]. by rewrite Hx; simpl; rewrite IH.
Qed.

Lemma exec_map_returns {A B} (f : A -> Exec B) (l : list A) :
  Forall (fun x => exists y, f x = Returns y) l ->
  exists ys, exec_map f l = Returns ys ∧ length ys = length l.
Proof.
  induction 1 as [|x l [y Hy] _ (ys & IH & Hlen)]; simpl; [by exists []|].
  exists (y :: ys). rewrite Hy. simpl. rewrite IH. simpl. split; [done | by f_equal].
Qed.

Lemma column_length_aligned n chunks dims i :
  aligned n chunks dims -> (i < n)%nat ->
  forall acc,
    Sample.column_length chunks i acc
    = Returns (foldl (fun a d => to_int (a + d)) acc dims).
Proof.
  intros Hal Hi. induction Hal as [|group d chunks dims (Hd & Hlen & Hsh) _ IH];
    intros acc; simpl; [done|].
  destruct (lookup_lt_is_Some_2 group i) as [t Ht]; [lia|]. rewrite Ht.
  rewrite Forall_lookup in Hsh. destruct (Hsh i t Ht) as [rest Hshape].
  unfold dim_size0. rewrite Hshape. simpl. apply IH.
Qed.

Lemma is_composed_aligned s n dims :
  aligned n (Sample.chunks_ s) dims -> Sample.chunks_ s ≠ [] ->
  Sample.is_composed_of_timesteps s = Returns true.
Proof.
  intros Hal Hne. unfold Sample.is_composed_of_timesteps.
  destruct (Sample.chunks_ s) as [|front rest] eqn:Hchunks; [done|].
  assert (length front = n) as Hfront.
  { apply Forall2_cons_inv_l in Hal as (d & ds & (_ & ? & _) & _ & _). done. }
  rewrite (exec_map_const _ _ (foldl (fun a d => to_int (a + d)) 0 dims)).
  - simpl. apply f_equal. apply forallb_forall. intros a Ha.
    apply list_elem_of_In, elem_of_replicate in Ha as [-> Hpos].
    rewrite length_seq in Hpos |- *.
    destruct (length front); simpl; [done | apply Z.eqb_refl].
  - apply Forall_forall. intros i Hi. apply elem_of_seq in Hi.
    apply (column_length_aligned n); [done | lia].
Qed.

Lemma GetNextTimestep_aligned s n group rest d ds :
  Sample.chunks_ s = group :: rest ->
  aligned n (group :: rest) (d :: ds) -> (0 < n)%nat ->
  0 <= Sample.next_timestep_index_ s < d ->
  exists row,
    Sample.GetNextTimestep s
    = Returns (row,
               if Sample.next_timestep_index_ s + 1 =? d then at_cursor s rest 0
               else at_cursor s (group :: rest) (Sample.next_timestep_index_ s + 1))
    ∧ length row = (4 + n)%nat
    ∧ take 4 row = Sample.metadata s.
Proof.
  intros Hchunks Hal Hn Hidx.
  unfold Sample.GetNextTimestep, Sample.is_end_of_sample. rewrite Hchunks.
  case_bool_decide; [done|].
  rewrite (is_composed_aligned s n (d :: ds)); [|by rewrite Hchunks..]. simpl.
  rewrite ?Hchunks.
  apply Forall2_cons_1 in Hal as [(Hd & Hlen & Hsh) _].
  destruct (exec_map_returns
              (fun tensor =>
                 slice ← SubSlice tensor (Sample.next_timestep_index_ s);
                 Returns (DeepCopyIfUnaligned slice)) group) as (rows & -> & Hrows).
  { eapply Forall_impl; [exact Hsh|]. intros t [sh Hshape]. unfold SubSlice.
    rewrite Hshape.
    destruct (0 <=? Sample.next_timestep_index_ s) eqn:H0; [|lia].
    destruct (Sample.next_timestep_index_ s <=? d) eqn:H1; [|lia].
    simpl. by eexists. }
  simpl. destruct group as [|first group]; [simpl in Hlen; lia|].
  apply Forall_cons in Hsh as [[sh Hshape] _].
  unfold dim_size0. rewrite Hshape. simpl.
  exists (Sample.metadata s ++ rows). split; [|split].
  - unfold at_cursor. by destruct (Sample.next_timestep_index_ s + 1 =? d).
  - rewrite length_app, Hrows, Hlen. done.
  - done.
Qed.

Lemma timesteps_app (a b : nat) (s : Sample.t) :
  timesteps (a + b) s
  = '(front, s1) ← timesteps a s;
    '(back, s2) ← timesteps b s1;
    Returns (front ++ back, s2).
Proof.
  revert s. induction a as [|a IH]; intros s; simpl.
  - by destruct (timesteps b s) as [[back s2]| | |].
  - destruct (Sample.GetNextTimestep s) as [[row s1]| | |]; simpl; try done.
    rewrite IH. destruct (timesteps a s1) as [[front s1']| | |]; simpl; try done.
    by destruct (timesteps b s1') as [[back s2]| | |].
Qed.

Lemma aligned_total n chunks dims :
  aligned n chunks dims -> 0 <= foldr Z.add 0 dims.
Proof. induction 1 as [|group d chunks dims (Hd & _) _ IH]; simpl; lia. Qed.

Lemma timesteps_group n group rest d ds (j : nat) :
  aligned n (group :: rest) (d :: ds) -> (0 < n)%nat ->
  forall s,
    Sample.chunks_ s = group :: rest ->
    Sample.next_timestep_index_ s = d - Z.of_nat j ->
    (0 < j)%nat -> Z.of_nat j <= d ->
    (exists rows,
        timesteps j s = Returns (rows, at_cursor s rest 0)
        ∧ length rows = j
        ∧ Forall (fun row => length row = (4 + n)%nat
                             ∧ take 4 row = Sample.metadata s) rows)
    ∧ (forall k, (k < j)%nat ->
         exists rows s', timesteps k s = Returns (rows, s')
                         ∧ Sample.chunks_ s' = group :: rest).
Proof.
  intros Hal Hn. induction j as [|j IH]; intros s Hchunks Hidx Hj Hle; [lia|].
  destruct (GetNextTimestep_aligned s n group rest d ds)
    as (row & Hstep & Hlen & Hmeta); [done | done | done | lia |].
  destruct (Sample.next_timestep_index_ s + 1 =? d) eqn:Hlast.
  - assert (j = 0%nat) as -> by lia. split.
    + exists [row]. simpl. rewrite Hstep. simpl. by repeat constructor.
    + intros k Hk. assert (k = 0%nat) as -> by lia. by exists [], s.
  - set (s1 := at_cursor s (group :: rest) (Sample.next_timestep_index_ s + 1)) in *.
    destruct (IH s1) as [(rows & Hrows & Hlens & Hall) Hbefore];
      [done | simpl; lia | lia | lia |].
    split.
    + exists (row :: rows). simpl. rewrite Hstep. simpl. rewrite Hrows. simpl.
      split; [done|]. split; [by f_equal|]. by constructor.
    + intros [|k] Hk; [by exists [], s|].
      destruct (Hbefore k) as (rows' & s' & Hrun & Hs'); [lia|].
      exists (row :: rows'), s'. simpl. rewrite Hstep. simpl. by rewrite Hrun.
Qed.

Lemma timesteps_groups n :
  (0 < n)%nat ->
  forall chunks dims,
    aligned n chunks dims ->
    forall s,
      Sample.chunks_ s = chunks ->
      Sample.next_timestep_index_ s = 0 ->
      (exists rows s',
          timesteps (Z.to_nat (foldr Z.add 0 dims)) s = Returns (rows, s')
          ∧ Sample.is_end_of_sample s' = true
          ∧ length rows = Z.to_nat (foldr Z.add 0 dims)
          ∧ Forall (fun row => length row = (4 + n)%nat
                               ∧ take 4 row = Sample.metadata s) rows)
      ∧ (forall k, (k < Z.to_nat (foldr Z.add 0%Z dims))%nat ->
           exists rows s', timesteps k s = Returns (rows, s')
                           ∧ Sample.is_end_of_sample s' = false).
Proof.
  intros Hn chunks dims Hal.
  induction Hal as [|group d rest ds Hgroup Hrest IH]; intros s Hchunks Hidx.
  - simpl. split; [|intros k Hk; lia].
    exists [], s. unfold Sample.is_end_of_sample. rewrite Hchunks. by repeat split.
  - assert (aligned n (group :: rest) (d :: ds)) as Hal by by constructor.
    pose proof (aligned_total _ _ _ Hrest) as Htotal.
    destruct Hgroup as (Hd & Hgroup).
    destruct (timesteps_group n group rest d ds (Z.to_nat d) Hal Hn s)
      as [(front & Hfront & Hflen & Hfall) Hbefore]; [done | lia | lia | lia |].
    destruct (IH (at_cursor s rest 0)) as [(back & s' & Hback & Hend & Hblen & Hball) Hmid];
      [done | done |].
    simpl foldr. rewrite Z2Nat.inj_add by lia. split.
    + exists (front ++ back), s'. rewrite timesteps_app, Hfront. simpl.
      rewrite Hback. simpl. split; [done|]. split; [done|].
      split; [rewrite length_app; lia | by apply Forall_app].
    + intros k Hk. destruct (decide (k < Z.to_nat d)%nat) as [Hlt|Hge].
      * destruct (Hbefore k Hlt) as (rows & sk & Hrun & Hsk).
        exists rows, sk. split; [done|].
        unfold Sample.is_end_of_sample. by rewrite Hsk.
      * destruct (Hmid (k - Z.to_nat d)%nat) as (rows & sk & Hrun & Hsk); [lia|].
        exists (front ++ rows), sk.
        replace k with (Z.to_nat d + (k - Z.to_nat d))%nat by lia.
        rewrite timesteps_app, Hfront. simpl. rewrite Hrun. done.
Qed.

(** X21. A sample whose chunk groups all have [n] columns, each group's
    tensors sharing the group's positive leading dimension, yields exactly as
    many timesteps as the leading dimensions add up to: that many successive
    [GetNextTimestep] calls all return, each row holds the four metadata
    scalars of the sample followed by [n] tensors, the sample is at its end
    after the last one and not before. *)
Theorem timesteps_until_end_of_sample (s : Sample.t) (n : nat) (dims : list Z) :
  (0 < n)%nat ->
  aligned n (Sample.chunks_ s) dims ->
  Sample.next_timestep_index_ s = 0 ->
  (exists rows s',
      timesteps (Z.to_nat (foldr Z.add 0 dims)) s = Returns (rows, s')
      ∧ Sample.is_end_of_sample s' = true
      ∧ length rows = Z.to_nat (foldr Z.add 0 dims)
      ∧ Forall (fun row => length row = (4 + n)%nat
                           ∧ take 4 row = Sample.metadata s) rows)
  ∧ (forall k, (k < Z.to_nat (foldr Z.add 0%Z dims))%nat ->
       exists rows s', timesteps k s = Returns (rows, s')
                       ∧ Sample.is_end_of_sample s' = false).
Proof. intros Hn Hal Hidx. by apply (timesteps_groups n Hn _ dims Hal). Qed.

(** A witness of [timesteps_until_end_of_sample]: one group of one column
    with two rows. *)
Lemma timesteps_until_end_of_sample_witness :
  exists rows s',
    timesteps 2 two_step_sample = Returns (rows, s')
    ∧ Sample.is_end_of_sample s' = true
    ∧ length rows = 2%nat
    ∧ Forall (fun row => length row = 5%nat
                         ∧ take 4 row = Sample.metadata two_step_sample) rows.
Proof.
  refine (proj1 (timesteps_until_end_of_sample two_step_sample 1 [2] _ _ eq_refl)).
  - lia.
  - repeat constructor. by exists [].
Defined.

(** A witness of [AsSampleLocal_result]: one column cut from one chunk. *)
Lemma AsSampleLocal_result_witness :
  exists unpacked,
    Sample.chunks_ (Sample.mk 5 0 1 0 1 1 [[vector DT_INT64 [10]]] [false] 0 false)
    = [unpacked]
    ∧ length unpacked = 1%nat.
Proof.
  exact (proj2 (proj2 (proj2 (proj2 (proj2 (proj2 (proj2
           (@AsSampleLocal_result plain_util
              (mkSampledItem
                 (mkItem 5 0 (mkFlatTrajectory [mkColumn [mkChunkSlice 8 0 1 0] false]))
                 0 1 [mkChunkData 8 [mkTensorProto DT_INT64 [1] [10]] false])
              OkStatus
              (Some (Sample.mk 5 0 1 0 1 1 [[vector DT_INT64 [10]]] [false] 0 false))
              eq_refl)))))))).
Defined.

(** A witness of [LocalFetchSamples_delivers]: a quota of one sample, served
    by one round of a table that honours the batch size. *)
Lemma LocalFetchSamples_delivers_witness :
  Z.of_nat (length [Sample.mk 5 0 1 0 1 1 [[vector DT_INT64 [10]]] [false] 0 false]) <= 1
  ∧ Forall fresh [Sample.mk 5 0 1 0 1 1 [[vector DT_INT64 [10]]] [false] 0 false].
Proof.
  apply (@LocalFetchSamples_delivers plain_util 1
           [mkRound false
              (fun batch_size =>
                 (OkStatus,
                  if 1 <=? batch_size then
                    [mkSampledItem
                       (mkItem 5 0 (mkFlatTrajectory
                                      [mkColumn [mkChunkSlice 8 0 1 0] false]))
                       0 1 [mkChunkData 8 [mkTensorProto DT_INT64 [1] [10]] false]]
                  else []))
              true]
           [true] 1
           (mkFetched [Sample.mk 5 0 1 0 1 1 [[vector DT_INT64 [10]]] [false] 0 false]
                      (1, OkStatus))).
  - split; [lia | reflexivity].
  - repeat constructor. intros batch_size. simpl.
    destruct (1 <=? batch_size) eqn:Hsize; simpl; lia.
  - reflexivity.
Defined.

(** ** Materialising a trajectory from one chunk group *)

Lemma squeeze_from_returns squeeze_columns columns :
  Forall2 (fun sq t => sq = true -> exists rest, shape t = 1 :: rest)
          squeeze_columns columns ->
  forall i prefix,
    length prefix = (i + 4)%nat ->
    Sample.squeeze_from squeeze_columns i (prefix ++ columns)
    = Returns (inr (prefix ++ zip_with squeezed squeeze_columns columns)).
Proof.
  induction 1 as [|sq t squeeze_columns columns Ht _ IH]; intros i prefix Hlen;
    [done|].
  cbn [Sample.squeeze_from zip_with]. destruct sq; simpl.
  - destruct Ht as [rest Hshape]; [done|].
    rewrite list_lookup_middle by done.
    unfold dim_size0, SubSlice. rewrite Hshape. simpl.
    rewrite insert_app_r_alt by lia. rewrite Hlen, Nat.sub_diag. simpl.
    rewrite (cons_middle _ prefix), app_assoc.
    rewrite IH by (rewrite length_app; simpl; lia).
    by rewrite <- app_assoc.
  - rewrite (cons_middle t prefix columns), app_assoc.
    rewrite (IH (S i) (prefix ++ [t])); [|rewrite length_app; simpl; lia].
    by rewrite <- app_assoc.
Qed.

Lemma squeeze_from_fails squeeze_columns columns :
  Forall2 (fun sq t => sq = true -> exists rest, shape t = 1 :: rest)
          squeeze_columns columns ->
  forall i prefix t d rest later_squeeze later_columns,
    length prefix = (i + 4)%nat ->
    shape t = d :: rest ->
    to_int d ≠ 1 ->
    Sample.squeeze_from (squeeze_columns ++ true :: later_squeeze) i
                        (prefix ++ columns ++ t :: later_columns)
    = Returns (inl (InternalError [Text "Tried to squeeze column with batch size ";
                                   Num (to_int d); Text "."])).
Proof.
  induction 1 as [|sq c squeeze_columns columns Hc _ IH];
    intros i prefix t d rest later_squeeze later_columns Hlen Hshape Hd.
  - cbn [app Sample.squeeze_from negb]. rewrite list_lookup_middle by done.
    unfold dim_size0. rewrite Hshape. simpl.
    destruct (to_int d =? 1) eqn:Heq; [lia | done].
  - cbn [app Sample.squeeze_from]. destruct sq; simpl.
    + destruct Hc as [crest Hcshape]; [done|].
      rewrite list_lookup_middle by done.
      unfold dim_size0, SubSlice. rewrite Hcshape. simpl.
      rewrite insert_app_r_alt by lia. rewrite Hlen, Nat.sub_diag. simpl.
      rewrite (cons_middle _ prefix), app_assoc.
      apply (IH (S i)) with (rest := rest); [rewrite length_app; simpl; lia | done | done].
    + rewrite (cons_middle c prefix), app_assoc.
      apply (IH (S i)) with (rest := rest); [rewrite length_app; simpl; lia | done | done].
Qed.

(** X22. A sample that has not been iterated and holds one chunk group with
    one tensor per column is materialised by [AsTrajectory] without any
    concatenation: when every squeezed column has leading dimension 1 the
    call is OK, the output is the four metadata scalars followed by the
    group's tensors in order, each squeezed column replaced by its only row,
    and the sample is left without chunks. *)
Theorem AsTrajectory_single_group (s : Sample.t) (front : list Tensor) :
  Sample.next_timestep_called_ s = false ->
  Sample.chunks_ s = [front] ->
  length front = Sample.num_data_tensors_ s ->
  Forall2 (fun sq t => sq = true -> exists rest, shape t = 1 :: rest)
          (Sample.squeeze_columns_ s) front ->
  Sample.AsTrajectory s
  = Returns (OkStatus,
             Some (Sample.metadata s ++ zip_with squeezed (Sample.squeeze_columns_ s) front),
             Sample.set_chunks s []).
Proof.
  intros Hcalled Hchunks Hlen Hsq. unfold Sample.AsTrajectory.
  rewrite Hcalled, Hchunks. case_bool_decide; [|lia].
  rewrite <- Hlen, Nat.sub_diag. simpl. rewrite app_nil_r.
  change (?a :: ?b :: ?c :: ?d :: front) with ([a; b; c; d] ++ front).
  by rewrite (squeeze_from_returns _ _ Hsq 0).
Qed.

(** X23. For such a sample, the first squeezed column whose leading
    dimension is not 1 makes [AsTrajectory] return an internal error that
    names this dimension; no output is produced and the sample is left
    without chunks. *)
Theorem AsTrajectory_squeeze_error (s : Sample.t)
    (columns later_columns : list Tensor) (squeeze_columns later_squeeze : list bool)
    (t : Tensor) (d : Z) (rest : list Z) :
  Sample.next_timestep_called_ s = false ->
  Sample.chunks_ s = [columns ++ t :: later_columns] ->
  length (columns ++ t :: later_columns) = Sample.num_data_tensors_ s ->
  Sample.squeeze_columns_ s = squeeze_columns ++ true :: later_squeeze ->
  Forall2 (fun sq t => sq = true -> exists rest, shape t = 1 :: rest)
          squeeze_columns columns ->
  shape t = d :: rest ->
  to_int d ≠ 1 ->
  Sample.AsTrajectory s
  = Returns (InternalError [Text "Tried to squeeze column with batch size ";
                            Num (to_int d); Text "."],
             None, Sample.set_chunks s []).
Proof.
  intros Hcalled Hchunks Hlen Hsqs Hsq Hshape Hd. unfold Sample.AsTrajectory.
  rewrite Hcalled, Hchunks. case_bool_decide; [|lia].
  rewrite <- Hlen, Nat.sub_diag, Hsqs. simpl. rewrite app_nil_r.
  change (?a :: ?b :: ?c :: ?e :: columns ++ t :: later_columns)
    with ([a; b; c; e] ++ columns ++ t :: later_columns).
  by rewrite (squeeze_from_fails _ _ Hsq 0 _ t d rest).
Qed.

(** A witness of [AsTrajectory_single_group]: a squeezed column of one row
    and a column that is kept as it is. *)
Lemma AsTrajectory_single_group_witness :
  Sample.AsTrajectory
    (Sample.mk 5 0 1 0 1 2
               [[mkTensor DT_INT64 [1; 2] [10; 20]; vector DT_INT64 [30]]]
               [true; false] 0 false)
  = Returns (OkStatus,
             Some [scalar DT_UINT64 5; scalar DT_DOUBLE 0; scalar DT_INT64 1;
                   scalar DT_DOUBLE 0;
                   mkTensor DT_INT64 [2] [10; 20]; vector DT_INT64 [30]],
             Sample.mk 5 0 1 0 1 2 [] [true; false] 0 false).
Proof.
  apply (AsTrajectory_single_group
           (Sample.mk 5 0 1 0 1 2
                      [[mkTensor DT_INT64 [1; 2] [10; 20]; vector DT_INT64 [30]]]
                      [true; false] 0 false)
           [mkTensor DT_INT64 [1; 2] [10; 20]; vector DT_INT64 [30]]).
  - reflexivity.
  - reflexivity.
  - reflexivity.
  - repeat constructor; [by exists [2] | done].
Defined.

(** A witness of [AsTrajectory_squeeze_error]: a squeezed column of two
    rows. *)
Lemma AsTrajectory_squeeze_error_witness :
  Sample.AsTrajectory
    (Sample.mk 5 0 1 0 2 1 [[vector DT_INT64 [10; 20]]] [true] 0 false)
  = Returns (InternalError [Text "Tried to squeeze column with batch size ";
                            Num 2; Text "."],
             None,
             Sample.mk 5 0 1 0 2 1 [] [true] 0 false).
Proof.
  apply (AsTrajectory_squeeze_error
           (Sample.mk 5 0 1 0 2 1 [[vector DT_INT64 [10; 20]]] [true] 0 false)
           [] [] [] [] (vector DT_INT64 [10; 20]) 2 []).
  - reflexivity.
  - reflexivity.
  - reflexivity.
  - reflexivity.
  - constructor.
  - reflexivity.
  - by vm_compute.
Defined.
